(** * A contact directory: records, birthdays and the persisted line format

    Shallow embedding of [goit-pycore-hw-07.py] (classes [Name], [Phone],
    [Birthday], [Record], [AddressBook], the functions [file_read],
    [file_write], [parse_input] and the commands of [main]) together with
    the properties its description states.

    Conventions of the embedding.
    - A Python [str] is a list of characters ([str := list ascii]); a
      character is a code point below 256.  In that range the regular
      expression class [\d] is exactly ['0'..'9'] and [str.strip] removes
      the code points 9-13, 28-32, 133 and 160.  Beyond that range the
      class [\d] also holds the decimal digits of other scripts, which
      [re], [strptime] and [int] take as well; such strings are outside
      this development, and what is stated of the strings [Phone] and
      [Birthday] accept is stated of the class [\d], not of a list of
      characters.
    - Exceptions are values: a computation that may raise returns
      [result A], either [Ok a] or [Raise e].
    - Objects are passed explicitly: a method that mutates [self] returns
      its return value paired with the new record.
    - A [dict] is an association list in insertion order with unique keys.
    - [print] and [colored] have no effect on the state and are left out;
      the expressions evaluated to build a message are kept when they can
      raise.
    - The text file is the string written to it ([os.linesep] is the line
      feed); a missing file is [None].
    - [datetime.today()] is a parameter, [now].
    - Of the command loop [main], the branches that change the directory
      are embedded, one function each ([cmd_add], [cmd_add_phone],
      [cmd_add_birthday], [cmd_delete], [cmd_delete_phone],
      [cmd_delete_birthday], [cmd_edit_birthday]), together with
      [parse_input].  The branches that only print, and [edit-phone], are
      not part of the embedding. *)

From Stdlib Require Import List Ascii Bool Arith ZArith Lia Sorted Permutation.
From Stdlib Require String.
Import String.StringSyntax.
Delimit Scope string_scope with string.
Bind Scope string_scope with String.string.
Import ListNotations.

Local Open Scope list_scope.

(* ================================================================= *)
(** * Part I: the program *)
(* ================================================================= *)

(** ** Strings *)

Definition str := list ascii.

(** A string literal of the source. *)
Definition lit (s : String.string) : str := String.list_ascii_of_string s.
Arguments lit s%_string.

Definition LF : ascii := "010"%char.
Definition CR : ascii := "013"%char.

Fixpoint str_eqb (a b : str) : bool :=
  match a, b with
  | [], [] => true
  | x :: a', y :: b' => Ascii.eqb x y && str_eqb a' b'
  | _, _ => false
  end.

(** [c.isspace()] for a code point below 256. *)
Definition is_space (c : ascii) : bool :=
  let n := N_of_ascii c in
  (((9 <=? n) && (n <=? 13)) || ((28 <=? n) && (n <=? 32))
   || (n =? 133) || (n =? 160))%N.

(** ['0' <= c <= '9']. *)
Definition is_digit (c : ascii) : bool :=
  let n := N_of_ascii c in ((48 <=? n) && (n <=? 57))%N.

Definition in_range (lo hi c : ascii) : bool :=
  ((N_of_ascii lo <=? N_of_ascii c) && (N_of_ascii c <=? N_of_ascii hi))%N.

(** [s.lstrip()], [s.rstrip()] and [s.strip()]. *)
Fixpoint lstrip (s : str) : str :=
  match s with
  | c :: s' => if is_space c then lstrip s' else s
  | [] => []
  end.

Fixpoint rstrip (s : str) : str :=
  match s with
  | [] => []
  | c :: s' =>
      match rstrip s' with
      | [] => if is_space c then [] else [c]
      | t => c :: t
      end
  end.

Definition strip (s : str) : str := rstrip (lstrip s).

(** [s.split(sep)] for a one-character separator: always at least one
    field. *)
Fixpoint split (sep : ascii) (s : str) : list str :=
  match s with
  | [] => [[]]
  | c :: s' =>
      if Ascii.eqb c sep then [] :: split sep s'
      else match split sep s' with
           | f :: fs => (c :: f) :: fs
           | [] => [[c]]
           end
  end.

(** [sep.join(parts)]. *)
Fixpoint join (sep : str) (parts : list str) : str :=
  match parts with
  | [] => []
  | [p] => p
  | p :: ps => p ++ sep ++ join sep ps
  end.

(** Iterating over a text file opened with the default [newline=None]:
    the line ends [\n], [\r] and [\r\n] all read as [\n], and every line
    but possibly the last carries its [\n]. *)
Fixpoint readlines (s : str) : list str :=
  match s with
  | [] => []
  | c :: s' =>
      if Ascii.eqb c LF then [LF] :: readlines s'
      else if Ascii.eqb c CR then
        match s' with
        | d :: s'' => if Ascii.eqb d LF then [LF] :: readlines s''
                      else [LF] :: readlines s'
        | [] => [[LF]]
        end
      else match readlines s' with
           | l :: ls => (c :: l) :: ls
           | [] => [[c]]
           end
  end.

(** ** Exceptions *)

Inductive exn : Set := ValueError | TypeError | AttributeError | OverflowError.

Inductive result (A : Type) : Type :=
| Ok (a : A)
| Raise (e : exn).
Arguments Ok {A} a.
Arguments Raise {A} e.

Definition bind {A B : Type} (m : result A) (f : A -> result B) : result B :=
  match m with
  | Ok a => f a
  | Raise e => Raise e
  end.

Notation "x <- m ;; k" := (bind m (fun x => k))
  (at level 61, m at next level, right associativity).

(** [try: body  except ValueError: handler]: only [ValueError] is caught. *)
Definition except_ValueError {A : Type} (body : result A) (handler : result A)
  : result A :=
  match body with
  | Raise ValueError => handler
  | other => other
  end.

(** ** Regular expressions ([re.match])

    The fragment of Python's [re] syntax the program and [strptime] use.
    [Dollar] is [$] without [re.MULTILINE]: the end of the string, or just
    before a line feed that ends the string. *)

Inductive regex : Set :=
| Chr (c : ascii)              (* a literal character *)
| Rng (lo hi : ascii)          (* [lo-hi] *)
| Dig                          (* \d *)
| Cat (r1 r2 : regex)          (* r1 r2 *)
| Alt (r1 r2 : regex)          (* r1|r2 *)
| Rep (n : nat) (r : regex)    (* r{n} *)
| Dollar.                      (* $ *)

Definition at_dollar (s : str) : bool :=
  match s with
  | [] => true
  | [c] => Ascii.eqb c LF
  | _ => false
  end.

(** [accept r s k]: some prefix of [s] matches [r] and the continuation
    [k] accepts what is left. *)
Fixpoint accept (r : regex) (s : str) (k : str -> bool) {struct r} : bool :=
  match r with
  | Chr c => match s with x :: s' => Ascii.eqb x c && k s' | [] => false end
  | Rng lo hi => match s with x :: s' => in_range lo hi x && k s' | [] => false end
  | Dig => match s with x :: s' => is_digit x && k s' | [] => false end
  | Cat r1 r2 => accept r1 s (fun s' => accept r2 s' k)
  | Alt r1 r2 => accept r1 s k || accept r2 s k
  | Rep n r1 =>
      (fix rep (n : nat) (s : str) {struct n} : bool :=
         match n with
         | O => k s
         | S m => accept r1 s (rep m)
         end) n s
  | Dollar => at_dollar s && k s
  end.

(** [bool(re.match(r, s))]: the match is anchored at the start of [s] (so
    a leading [^] adds nothing) and may stop anywhere. *)
Definition re_match (r : regex) (s : str) : bool := accept r s (fun _ => true).

(** The whole of [s] matches [r]. *)
Definition re_fullmatch (r : regex) (s : str) : bool :=
  accept r s (fun rest => match rest with [] => true | _ => false end).

(** ** Calendar dates ([datetime])

    The program reads only the year, month and day of a [datetime]; the
    time of day is midnight throughout. *)

Record date : Set := mkdate { year : Z; month : Z; day : Z }.

Definition is_leap (y : Z) : bool :=
  ((y mod 4 =? 0) && (negb (y mod 100 =? 0) || (y mod 400 =? 0)))%Z.

Definition days_in_month (y m : Z) : Z :=
  (match m with
   | 2 => if is_leap y then 29 else 28
   | 4 | 6 | 9 | 11 => 30
   | _ => 31
   end)%Z.

(** What [datetime(y, m, d)] accepts: MINYEAR = 1, MAXYEAR = 9999. *)
Definition valid_date (d : date) : bool :=
  ((1 <=? year d) && (year d <=? 9999)
   && (1 <=? month d) && (month d <=? 12)
   && (1 <=? day d) && (day d <=? days_in_month (year d) (month d)))%Z.

Definition make_date (y m d : Z) : result date :=
  if valid_date (mkdate y m d) then Ok (mkdate y m d) else Raise ValueError.

(** [d + timedelta(days=1)]; past 31.12.9999 it is an [OverflowError]. *)
Definition tomorrow (d : date) : result date :=
  (if day d <? days_in_month (year d) (month d)
   then Ok (mkdate (year d) (month d) (day d + 1))
   else if month d <? 12 then Ok (mkdate (year d) (month d + 1) 1)
   else if year d <? 9999 then Ok (mkdate (year d + 1) 1 1)
   else Raise OverflowError)%Z.

(** [d + timedelta(days=n)]. *)
Fixpoint add_days (d : date) (n : nat) : result date :=
  match n with
  | O => Ok d
  | S k => d' <- add_days d k ;; tomorrow d'
  end.

(** The order of [datetime] values ([<]). *)
Definition date_ltb (a b : date) : bool :=
  ((year a <? year b)
   || ((year a =? year b)
       && ((month a <? month b)
           || ((month a =? month b) && (day a <? day b)))))%Z.

(** *** [strftime("%d.%m.%Y")] *)

Definition digit_chr (n : Z) : ascii := ascii_of_N (Z.to_N (48 + n mod 10)).

Definition fmt2 (n : Z) : str := [digit_chr (n / 10); digit_chr n].

Definition fmt4 (n : Z) : str :=
  [digit_chr (n / 1000); digit_chr (n / 100); digit_chr (n / 10); digit_chr n].

(** Zero-padded day and month and the four-digit year (years from 1000 on
    print the same on every platform). *)
Definition strftime (d : date) : str :=
  fmt2 (day d) ++ lit "." ++ fmt2 (month d) ++ lit "." ++ fmt4 (year d).

(** *** [datetime.strptime(s, "%d.%m.%Y")]

    The format compiles to the regular expression
    [(?P<d>3[0-1]|[1-2]\d|0[1-9]|[1-9]| [1-9])\.(?P<m>1[0-2]|0[1-9]|[1-9])\.(?P<Y>\d\d\d\d)],
    which has to match the whole string.  No group can match a dot, so the
    groups are the three fields between the dots. *)

Definition chr (s : String.string) : regex :=
  match s with
  | String.String c _ => Chr c
  | String.EmptyString => Rep 0 Dig
  end.
Arguments chr s%_string.

Definition rng (lo hi : String.string) : regex :=
  match lo, hi with
  | String.String a _, String.String b _ => Rng a b
  | _, _ => Rep 0 Dig
  end.
Arguments rng (lo hi)%_string.

Definition re_d : regex :=
  Alt (Cat (chr "3") (rng "0" "1"))
   (Alt (Cat (rng "1" "2") Dig)
     (Alt (Cat (chr "0") (rng "1" "9"))
       (Alt (rng "1" "9")
            (Cat (chr " ") (rng "1" "9"))))).

Definition re_m : regex :=
  Alt (Cat (chr "1") (rng "0" "2"))
   (Alt (Cat (chr "0") (rng "1" "9"))
        (rng "1" "9")).

Definition re_Y : regex := Cat Dig (Cat Dig (Cat Dig Dig)).

Definition digit_val (c : ascii) : Z := Z.of_N (N_of_ascii c) - 48.

(** [int(s)] on a group of the expression above: decimal digits after
    optional leading blanks. *)
Definition int_of (s : str) : Z :=
  fold_left (fun acc c => 10 * acc + digit_val c)%Z (lstrip s) 0%Z.

Definition dot : ascii := "."%char.
Definition comma : ascii := ","%char.
Definition hyphen : ascii := "-"%char.

Definition strptime (s : str) : result date :=
  match split dot s with
  | [d; m; y] =>
      if re_fullmatch re_d d && re_fullmatch re_m m && re_fullmatch re_Y y
      then make_date (int_of y) (int_of m) (int_of d)
      else Raise ValueError
  | _ => Raise ValueError
  end.

(** ** Fields: [Name], [Phone], [Birthday]

    A field object holds one attribute, [value]; the constructor returns
    that value or raises. *)

(** [if not value: raise ValueError("Name cannot be empty.")] *)
Definition Name (value : str) : result str :=
  match value with
  | [] => Raise ValueError
  | _ => Ok value
  end.

(** [^\d{10}$] *)
Definition phone_re : regex := Cat (Rep 10 Dig) Dollar.

Definition validate_phone (value : str) : bool := re_match phone_re value.

Definition Phone (value : str) : result str :=
  if validate_phone value then Ok value else Raise ValueError.

(** [^(0[1-9]|[12][0-9]|3[01])\.(0[1-9]|1[0-2])\.(19|20)\d{2}$] *)
Definition birthday_re : regex :=
  Cat (Alt (Cat (chr "0") (rng "1" "9"))
        (Alt (Cat (rng "1" "2") (rng "0" "9"))
             (Cat (chr "3") (rng "0" "1"))))
   (Cat (chr ".")
     (Cat (Alt (Cat (chr "0") (rng "1" "9"))
               (Cat (chr "1") (rng "0" "2")))
       (Cat (chr ".")
         (Cat (Alt (Cat (chr "1") (chr "9")) (Cat (chr "2") (chr "0")))
           (Cat (Rep 2 Dig) Dollar))))).

Definition validate_birthday (value : str) : bool := re_match birthday_re value.

(** The value of a [Birthday] is the parsed date:
    [self.value = datetime.strptime(value, "%d.%m.%Y")]. *)
Definition Birthday (value : str) : result date :=
  if validate_birthday value then strptime value else Raise ValueError.

(** ** [Record] *)

(** [name] is [None] when the [Name] constructor raised. *)
Record Record_ : Set := mkRecord {
  name : option str;
  phones : list str;
  birthday : option date
}.

Definition set_phones (r : Record_) (ps : list str) : Record_ :=
  mkRecord (name r) ps (birthday r).

Definition set_birthday (r : Record_) (b : option date) : Record_ :=
  mkRecord (name r) (phones r) b.

(** [Record(name)] *)
Definition Record_init (nm : str) : Record_ :=
  mkRecord (match Name nm with Ok v => Some v | Raise _ => None end) [] None.

Definition add_phone (phone : str) (self : Record_) : Z * Record_ :=
  match Phone phone with
  | Ok valid_phone => (1%Z, set_phones self (phones self ++ [valid_phone]))
  | Raise _ => (0%Z, self)
  end.

(** [self.phones = [p for p in self.phones if p.value != phone]] *)
Definition delete_phone (phone : str) (self : Record_) : Z * Record_ :=
  (1%Z, set_phones self (filter (fun p => negb (str_eqb p phone)) (phones self))).

(** The loop returns at the first phone equal to [old_phone]; when there
    is none the [ValueError] raised after it is caught at once. *)
Definition edit_phone (old_phone new_phone : str) (self : Record_)
  : Z * Record_ :=
  if existsb (fun p => str_eqb p old_phone) (phones self)
  then (1%Z, snd (delete_phone old_phone (snd (add_phone new_phone self))))
  else (0%Z, self).

(** The message of the first branch reads [self.name.value], which raises
    [AttributeError] on a record without a name. *)
Definition add_birthday (bd : str) (self : Record_) : result (Z * Record_) :=
  match birthday self with
  | Some _ =>
      match name self with
      | Some _ => Ok (0%Z, self)
      | None => Raise AttributeError
      end
  | None =>
      except_ValueError
        (b <- Birthday bd ;; Ok (1%Z, set_birthday self (Some b)))
        (Ok (0%Z, self))
  end.

Definition delete_birthday (self : Record_) : Record_ := set_birthday self None.

Definition edit_birthday (new_birthday : str) (self : Record_) : Z * Record_ :=
  match Birthday new_birthday with
  | Ok b => (1%Z, set_birthday self (Some b))
  | Raise _ => (0%Z, self)
  end.

(** ** Dictionaries in insertion order *)

Section Dict.
Context {V : Type}.

Fixpoint dict_get (k : str) (d : list (str * V)) : option V :=
  match d with
  | [] => None
  | (k', v) :: d' => if str_eqb k' k then Some v else dict_get k d'
  end.

(** [d[k] = v]: an existing key keeps its place, a new one goes last. *)
Fixpoint dict_set (k : str) (v : V) (d : list (str * V)) : list (str * V) :=
  match d with
  | [] => [(k, v)]
  | (k', v') :: d' =>
      if str_eqb k' k then (k', v) :: d' else (k', v') :: dict_set k v d'
  end.

(** [del d[k]] *)
Fixpoint dict_del (k : str) (d : list (str * V)) : list (str * V) :=
  match d with
  | [] => []
  | (k', v') :: d' => if str_eqb k' k then d' else (k', v') :: dict_del k d'
  end.
End Dict.

(** [for x in xs: body], threading the state and stopping at the first
    exception. *)
Fixpoint for_in {A S : Type} (body : S -> A -> result S) (xs : list A) (s : S)
  : result S :=
  match xs with
  | [] => Ok s
  | x :: xs' => s' <- body s x ;; for_in body xs' s'
  end.

(** ** [AddressBook] (the [data] dictionary of a [UserDict]) *)

Definition AddressBook := list (str * Record_).

Definition add_record (record : Record_) (data : AddressBook) : AddressBook :=
  match name record with
  | None => data
  | Some n => dict_set n record data
  end.

Definition find (nm : str) (data : AddressBook) : option Record_ :=
  dict_get nm data.

Definition delete (nm : str) (data : AddressBook) : Z * AddressBook :=
  match dict_get nm data with
  | Some _ => (1%Z, dict_del nm data)
  | None => (0%Z, data)
  end.

(** An element of the list [birthdays] returns:
    [{"name": ..., "congratulation_date": ...}]. *)
Record entry : Set := mkentry { entry_name : str; congratulation_date : str }.

Definition search_period : nat := 7.

(** The inner loop [for delta in range(search_period + 1)], left by
    [break] at the first day of the window that has the birthday's month
    and day: was there one? *)
Fixpoint window (today birthday_date : date) (deltas : list nat) : result bool :=
  match deltas with
  | [] => Ok false
  | delta :: rest =>
      check_date <- add_days today delta ;;
      if ((month birthday_date =? month check_date)
          && (day birthday_date =? day check_date))%Z
      then Ok true
      else window today birthday_date rest
  end.

(** The body of [for user in self.data.values()]. *)
Definition upcoming_step (today : date) (upcoming_birthdays : list entry)
  (user : Record_) : result (list entry) :=
  match birthday user with
  | None => Ok upcoming_birthdays
  | Some birthday_date =>
      hit <- window today birthday_date (seq 0 (search_period + 1)) ;;
      if hit : bool then
        match name user with
        | Some n =>
            Ok (upcoming_birthdays ++ [mkentry n (strftime birthday_date)])
        | None => Raise AttributeError
        end
      else Ok upcoming_birthdays
  end.

(** [sorted(xs, key=...)]: the keys are computed first, then the list is
    sorted stably on [<] of the keys. *)
Fixpoint insert_by (k : date) (x : entry) (l : list (date * entry))
  : list (date * entry) :=
  match l with
  | [] => [(k, x)]
  | (k', y) :: t =>
      if date_ltb k' k then (k', y) :: insert_by k x t else (k, x) :: l
  end.

Fixpoint with_keys (xs : list entry) : result (list (date * entry)) :=
  match xs with
  | [] => Ok []
  | x :: xs' =>
      k <- strptime (congratulation_date x) ;;
      ks <- with_keys xs' ;;
      Ok ((k, x) :: ks)
  end.

Definition sorted (xs : list entry) : result (list entry) :=
  keyed <- with_keys xs ;;
  Ok (map snd (fold_right (fun kx acc => insert_by (fst kx) (snd kx) acc) [] keyed)).

(** [birthdays(self, check_day=None)]; [now] is [datetime.today().date()].
    [strptime] raises [TypeError] when its argument is not a string, and
    only [ValueError] is caught. *)
Definition birthdays (now : date) (check_day : option str) (data : AddressBook)
  : result (list entry) :=
  check_date <- except_ValueError
                  (match check_day with
                   | None => Raise TypeError
                   | Some s => d <- strptime s ;; Ok (Some d)
                   end)
                  (Ok None) ;;
  let today := match check_date with Some d => d | None => now end in
  upcoming_birthdays <- for_in (upcoming_step today) (map snd data) [] ;;
  sorted upcoming_birthdays.

(** ** The persisted file *)

Definition is_empty (s : str) : bool :=
  match s with [] => true | _ => false end.

(** The body of [for line in file] in [file_read]. *)
Definition file_read_line (contacts : list (str * Record_)) (line : str)
  : result (list (str * Record_)) :=
  let parts := map strip (split comma (strip line)) in
  match parts with
  | [] => Ok contacts
  | nm :: _ =>
      let phones_str := match nth_error parts 1 with Some p => p | None => [] end in
      let bd := nth_error parts 2 in
      let phs := filter (fun p => negb (is_empty p))
                        (map strip (split hyphen phones_str)) in
      let record := match dict_get nm contacts with
                    | Some r => r
                    | None => Record_init nm
                    end in
      let record := fold_left (fun r phone => snd (add_phone phone r)) phs record in
      match bd with
      | Some b =>
          if is_empty b then Ok (dict_set nm record contacts)
          else r <- add_birthday b record ;; Ok (dict_set nm (snd r) contacts)
      | None => Ok (dict_set nm record contacts)
      end
  end.

(** [file_read()]: [file] is the text at [path], [None] when no file is
    there. *)
Definition file_read (file : option str) : result (list (str * Record_)) :=
  match file with
  | None => Ok []
  | Some text => for_in file_read_line (readlines text) []
  end.

(** The line [file_write] writes for one record, [None] when
    [record.name.value] raises. *)
Definition record_line (record : Record_) : option str :=
  let phones_str := join (lit "-") (phones record) in
  let birthday_str := match birthday record with
                      | Some b => strftime b
                      | None => []
                      end in
  match name record with
  | None => None
  | Some n =>
      Some (if is_empty birthday_str
            then n ++ lit ", " ++ phones_str ++ lit "," ++ [LF]
            else n ++ lit ", " ++ phones_str ++ lit ", " ++ birthday_str ++ [LF])
  end.

(** [file_write(contacts)]: the text left in the file.  An exception ends
    the loop ([except Exception]) with the lines written so far. *)
Fixpoint write_records (records : list Record_) : str :=
  match records with
  | [] => []
  | record :: rest =>
      match record_line record with
      | Some l => l ++ write_records rest
      | None => []
      end
  end.

Definition file_write (contacts : list (str * Record_)) : str :=
  write_records (map snd contacts).

(** ** The command line ([parse_input]) *)

(** [s.split()]: the maximal runs of characters that are not white
    space, in order. *)
Fixpoint split_ws (s : str) : list str :=
  match s with
  | [] => []
  | c :: s' =>
      if is_space c then split_ws s'
      else match s' with
           | [] => [[c]]
           | d :: _ =>
               if is_space d then [c] :: split_ws s'
               else match split_ws s' with
                    | w :: ws => (c :: w) :: ws
                    | [] => [[c]]
                    end
           end
  end.

(** [c.lower()] for a code point below 256: the letters [A-Z] and the
    capital letters of Latin-1 (192 to 222, but the sign 215). *)
Definition lower_char (c : ascii) : ascii :=
  let n := N_of_ascii c in
  if (((65 <=? n) && (n <=? 90))
      || ((192 <=? n) && (n <=? 222) && negb (n =? 215)))%N
  then ascii_of_N (n + 32) else c.

Definition lower (s : str) : str := map lower_char s.

(** [cmd, *args = user_input.split()] raises [ValueError] when there is
    nothing to unpack. *)
Definition parse_input (user_input : str) : result (str * list str) :=
  match split_ws user_input with
  | [] => Raise ValueError
  | cmd :: args => Ok (lower (strip cmd), args)
  end.

(** ** The commands of [main] that change the directory

    One function per branch of the command loop.  It takes the arguments
    of the command and the directory, and returns the directory the
    branch leaves together with the text [file_write] leaves in the file
    when the branch calls it ([None] when it does not).  A record found
    by [book.find] is changed in place: the directory then holds the
    changed record under the same key.  An exception that leaves the
    branch leaves [main], and the program ends. *)

(** The truth value of a returned 0 or 1. *)
Definition truthy (n : Z) : bool := negb (n =? 0)%Z.

(** [command == "add"]: [phone] and [birthday] are [None] when the
    argument is missing, and [re.match] raises [TypeError] on [None];
    the branch catches [ValueError] only. *)
Definition cmd_add (args : list str) (book : AddressBook)
  : result (AddressBook * option str) :=
  match args with
  | [] => Ok (book, None)
  | nm :: _ =>
      let phone := nth_error args 1 in
      let bd := nth_error args 2 in
      match find nm book with
      | Some _ => Ok (book, None)
      | None =>
          let record := Record_init nm in
          record <- except_ValueError
                      (match phone with
                       | None => Raise TypeError
                       | Some p => _ <- Phone p ;; Ok (snd (add_phone p record))
                       end)
                      (Ok record) ;;
          record <- except_ValueError
                      (match bd with
                       | None => Raise TypeError
                       | Some b =>
                           _ <- Birthday b ;;
                           r <- add_birthday b record ;; Ok (snd r)
                       end)
                      (Ok record) ;;
          let book := add_record record book in
          Ok (book, Some (file_write book))
      end
  end.

(** [command == "add-phone"]; the branch catches every exception. *)
Definition cmd_add_phone (args : list str) (book : AddressBook)
  : AddressBook * option str :=
  match args with
  | [] => (book, None)
  | nm :: _ =>
      match find nm book, nth_error args 1 with
      | Some record, Some phone =>
          if is_empty phone then (book, None)
          else
            let (ok, record) := add_phone phone record in
            let book := dict_set nm record book in
            if truthy ok then
              let book := add_record record book in
              (book, Some (file_write book))
            else (book, None)
      | _, _ => (book, None)
      end
  end.

(** [command == "add-birthday"]; the branch catches every exception,
    also the [AttributeError] of [add_birthday]. *)
Definition cmd_add_birthday (args : list str) (book : AddressBook)
  : AddressBook * option str :=
  match args with
  | [] => (book, None)
  | nm :: _ =>
      match find nm book, nth_error args 1 with
      | Some record, Some bd =>
          if is_empty bd then (book, None)
          else
            match add_birthday bd record with
            | Ok (ok, record) =>
                let book := dict_set nm record book in
                if truthy ok then
                  let book := add_record record book in
                  (book, Some (file_write book))
                else (book, None)
            | Raise _ => (book, None)
            end
      | _, _ => (book, None)
      end
  end.

(** [command == "delete"] *)
Definition cmd_delete (args : list str) (book : AddressBook)
  : AddressBook * option str :=
  match args with
  | [nm] =>
      let (ok, book) := delete nm book in
      if truthy ok then (book, Some (file_write book)) else (book, None)
  | _ => (book, None)
  end.

(** [command == "delete-phone"] *)
Definition cmd_delete_phone (args : list str) (book : AddressBook)
  : AddressBook * option str :=
  match args with
  | [nm; phone] =>
      match find nm book with
      | Some record =>
          let (ok, record) := delete_phone phone record in
          let book := dict_set nm record book in
          if truthy ok then (book, Some (file_write book)) else (book, None)
      | None => (book, None)
      end
  | _ => (book, None)
  end.

(** [command == "delete-birthday"] *)
Definition cmd_delete_birthday (args : list str) (book : AddressBook)
  : AddressBook * option str :=
  match args with
  | [nm] =>
      match find nm book with
      | Some record =>
          let book := dict_set nm (delete_birthday record) book in
          (book, Some (file_write book))
      | None => (book, None)
      end
  | _ => (book, None)
  end.

(** [command == "edit-birthday"]: the file is written whatever
    [edit_birthday] returns. *)
Definition cmd_edit_birthday (args : list str) (book : AddressBook)
  : AddressBook * option str :=
  match args with
  | [nm; new_birthday] =>
      match find nm book with
      | Some record =>
          let book := dict_set nm (snd (edit_birthday new_birthday record)) book in
          (book, Some (file_write book))
      | None => (book, None)
      end
  | _ => (book, None)
  end.

(* ================================================================= *)
(** * Part II: the vocabulary of the description *)
(* ================================================================= *)

(** ** Fields *)

(** A string of exactly ten ASCII decimal digits. *)
Definition ten_digits (s : str) : bool :=
  (length s =? 10) && forallb is_digit s.

(** Empty or made of white space only. *)
Definition blank (s : str) : bool := forallb is_space s.

(** [DD.MM.YYYY]: day [d], month [m] and year [y] written with two, two
    and four digits. *)
Definition dmy (d m y : Z) : str := strftime (mkdate y m d).

(** The dates a [Birthday] can hold: calendar dates of the years 1900 to
    2099. *)
Definition birthday_ok (b : date) : bool :=
  (valid_date b && (1900 <=? year b) && (year b <=? 2099))%Z.

(** ** The invariant of a directory *)

(** What [add_record] and the [Birthday] constructor establish for a
    record stored under the key [k]: it carries the name [k], and its
    birthday, if any, is a date [Birthday] returns. *)
Definition record_ok (k : str) (r : Record_) : Prop :=
  name r = Some k /\ forall b, birthday r = Some b -> birthday_ok b = true.

(** Keys are unique and every record satisfies [record_ok]. *)
Definition book_ok (data : AddressBook) : Prop :=
  NoDup (map fst data) /\ forall k r, In (k, r) data -> record_ok k r.

(** ** Upcoming birthdays *)

(** The reference date of [birthdays] for the input [s]: the date it
    parses to, today's date when it does not parse. *)
Definition reference_date (now : date) (s : str) : date :=
  match strptime s with
  | Ok d => d
  | Raise _ => now
  end.

(** The eight days from [today] on are dates ([today] is not within the
    last week of the year 9999). *)
Definition window_in_range (today : date) : Prop :=
  exists c, add_days today search_period = Ok c.

(** Some [delta] in 0..7 makes [today + delta] days fall on the month and
    day of [b]. *)
Definition falls_in_window (today b : date) : Prop :=
  exists delta c, delta <= search_period /\ add_days today delta = Ok c
                  /\ month c = month b /\ day c = day b.

(** Does [today + delta] fall on the month and day of [b]? *)
Definition hits (today b : date) (delta : nat) : bool :=
  match add_days today delta with
  | Ok c => ((month b =? month c) && (day b =? day c))%Z
  | Raise _ => false
  end.

(** What one record adds to the list. *)
Definition upcoming_of (today : date) (user : Record_) : list entry :=
  match birthday user, name user with
  | Some b, Some n =>
      if existsb (hits today b) (seq 0 (search_period + 1))
      then [mkentry n (strftime b)] else []
  | _, _ => []
  end.

(** [a <= b] on dates: [b < a] is false. *)
Definition date_le (a b : date) : Prop := date_ltb b a = false.

(** The order of the result: both reported strings parse as [DD.MM.YYYY]
    and the first date is not after the second. *)
Definition entry_le (a b : entry) : Prop :=
  exists ka kb, strptime (congratulation_date a) = Ok ka
                /\ strptime (congratulation_date b) = Ok kb
                /\ date_ltb kb ka = false.

(** The order of the keys. *)
Definition key_le (p q : date * entry) : Prop := date_le (fst p) (fst q).

(** [sorted] on a list that carries its keys: an insertion sort that
    keeps the order of equal keys. *)
Definition isort (keyed : list (date * entry)) : list (date * entry) :=
  fold_right (fun kx acc => insert_by (fst kx) (snd kx) acc) [] keyed.

(** ** The lines of a file, as [file_read] takes them *)

(** The parts of a line: what stands between its commas, stripped. *)
Definition line_parts (line : str) : list str :=
  map strip (split comma (strip line)).

(** The name field. *)
Definition line_name (line : str) : str := hd [] (line_parts line).

(** The tokens of the phone field that are not empty. *)
Definition line_phones (line : str) : list str :=
  filter (fun p => negb (is_empty p))
         (map strip (split hyphen (nth 1 (line_parts line) []))).

(** The birthday field, when the line has a third part. *)
Definition line_birthday (line : str) : option str :=
  nth_error (line_parts line) 2.

(** The first token, in order, that [Birthday] accepts. *)
Fixpoint first_birthday (tokens : list (option str)) : option date :=
  match tokens with
  | [] => None
  | Some b :: rest =>
      match Birthday b with
      | Ok d => Some d
      | Raise _ => first_birthday rest
      end
  | None :: rest => first_birthday rest
  end.

(** The record a line of name [n] is applied to. *)
Definition get_or_new (n : str) (contacts : list (str * Record_)) : Record_ :=
  match dict_get n contacts with
  | Some r => r
  | None => Record_init n
  end.

(** The record a line leaves: the valid phone tokens are appended, and
    the birthday token is taken when the record has no birthday and the
    token is a valid one. *)
Definition merge_line (r : Record_) (line : str) : Record_ :=
  mkRecord (name r)
           (phones r ++ filter validate_phone (line_phones line))
           (match birthday r with
            | Some b => Some b
            | None => first_birthday [line_birthday line]
            end).

(** One line read into the dictionary. *)
Definition read_step (contacts : list (str * Record_)) (line : str)
  : list (str * Record_) :=
  dict_set (line_name line)
           (merge_line (get_or_new (line_name line) contacts) line) contacts.

(** Every record has the name [Record(k)] gives it, [k] being its key:
    the key itself, and no name under the empty key. *)
Definition named (contacts : list (str * Record_)) : Prop :=
  forall k r, In (k, r) contacts -> name r = name (Record_init k).

(** A line [file_read] gets through: it has a name, or it has no birthday
    token (on the record without a name, which the lines with an empty
    name field share, a second birthday token raises). *)
Definition readable (line : str) : Prop :=
  line_name line <> []
  \/ line_birthday line = None \/ line_birthday line = Some [].

(** ** The lines [file_write] writes *)

(** Not a line break: [readlines] keeps it inside its line. *)
Definition nobreak (c : ascii) : bool :=
  negb (Ascii.eqb c LF) && negb (Ascii.eqb c CR).

(** May stand in a name: not a line break and not a comma. *)
Definition name_char (c : ascii) : bool :=
  nobreak c && negb (Ascii.eqb c comma).

(** A character of the phone and birthday fields: moreover not white
    space. *)
Definition field_char (c : ascii) : bool :=
  name_char c && negb (is_space c).

(** A name the file keeps: not empty, no white space at either end, no
    comma and no line break. *)
Definition clean_name (n : str) : Prop :=
  n <> [] /\ strip n = n /\ forallb name_char n = true.

(** What the round trip asks of a record stored under [k]: it carries the
    name [k], a name the file keeps; its phones are ten digits each; its
    birthday, if any, is one [Birthday] returns. *)
Definition stored (k : str) (r : Record_) : Prop :=
  name r = Some k /\ clean_name k
  /\ Forall (fun p => ten_digits p = true) (phones r)
  /\ forall b, birthday r = Some b -> birthday_ok b = true.

(** The birthday field of the line of [r]. *)
Definition birthday_field (r : Record_) : str :=
  match birthday r with
  | Some b => strftime b
  | None => []
  end.

(** What follows the phone field in a line: a comma, then a blank and
    the birthday if there is one. *)
Definition line_end (bf : str) : str :=
  comma :: (if is_empty bf then [] else " "%char :: bf).

(** The line of the record [r] stored under [k]. *)
Definition written_line (kr : str * Record_) : str :=
  (fst kr ++ comma :: " "%char :: join (lit "-") (phones (snd kr))
     ++ line_end (birthday_field (snd kr))) ++ [LF].

(** ** Tests decided by evaluation *)

(** The integers [a], [a+1], ..., [a+n-1]. *)
Definition Zrange (a : Z) (n : nat) : list Z :=
  map (fun i => (a + Z.of_nat i)%Z) (seq 0 n).

(** What [Birthday] does on [DD.MM.YYYY], as a test: the pattern accepts
    the string, and [strptime] returns the date when the month has that
    day and raises [ValueError] when it has not. *)
Definition birthday_case (d m y : Z) : bool :=
  let s := dmy d m y in
  validate_birthday s
  && match strptime s with
     | Ok b => (d <=? days_in_month y m)%Z
               && (year b =? y)%Z && (month b =? m)%Z && (day b =? d)%Z
     | Raise ValueError => negb (d <=? days_in_month y m)%Z
     | Raise _ => false
     end.

(** ** Inputs of the examples *)

(** A day for [datetime.today()]. *)
Definition today_ : date := mkdate 2026 11 3.

(** A directory of one record with a birthday. *)
Definition book_of (nm : String.string) (bd : date) : AddressBook :=
  [(lit nm, mkRecord (Some (lit nm)) [lit "1112223333"] (Some bd))].
Arguments book_of nm%_string bd.

(** Birthdays of different years, and a record without one. *)
Definition bob_ann : AddressBook :=
  [(lit "Bob", mkRecord (Some (lit "Bob")) [] (Some (mkdate 1990 1 5)));
   (lit "Eve", mkRecord (Some (lit "Eve")) [lit "5556667777"] None);
   (lit "Ann", mkRecord (Some (lit "Ann")) [] (Some (mkdate 1995 1 3)))].

(** A file with three lines for one name. *)
Definition bob_file : str :=
  lit "Bob, 1234567890-abc-1112223333, 31.02.2000" ++ [LF]
  ++ lit "Ann, 2223334444," ++ [LF]
  ++ lit "Bob, 5555555555, 02.02.2000" ++ [LF]
  ++ lit "Bob, , 03.03.2000" ++ [LF].

(** A directory to write and read back. *)
Definition two_contacts : AddressBook :=
  [(lit "John Smith",
    mkRecord (Some (lit "John Smith")) [lit "1112223333"; lit "4445556666"]
             (Some (mkdate 1990 1 3)));
   (lit "Eve", mkRecord (Some (lit "Eve")) [] None)].

(** ** Lines of a text file *)

(** A line of [readlines]: characters that are no line breaks, and
    possibly one line feed after them. *)
Definition line_shape (line : str) : Prop :=
  exists body, forallb nobreak body = true
               /\ (line = body \/ line = body ++ [LF]).

(** The text with every line feed written as carriage return and line
    feed. *)
Fixpoint to_crlf (s : str) : str :=
  match s with
  | [] => []
  | c :: s' => if Ascii.eqb c LF then CR :: LF :: to_crlf s' else c :: to_crlf s'
  end.

(** ** The digit class of the patterns *)

(** [re.fullmatch(r"\d{10}", s)]: the whole of [s] is ten characters of
    the class [\d].  This is what the pattern of [Phone] asks for, without
    the final line feed its [$] lets through; which characters the class
    holds is the affair of [re]. *)
Definition ten_of_class_d (s : str) : bool := re_fullmatch (Rep 10 Dig) s.

(** What [file_read] establishes for a record stored under [k]: it
    carries the name [k], a name the file keeps; each of its phones is
    ten characters of the class [\d]; its birthday, if any, is one
    [Birthday] returns. *)
Definition loaded (k : str) (r : Record_) : Prop :=
  name r = Some k /\ clean_name k
  /\ Forall (fun p => ten_of_class_d p = true) (phones r)
  /\ forall b, birthday r = Some b -> birthday_ok b = true.

(** ** Tokens of the command line *)

(** Not empty and free of white space. *)
Definition is_token (s : str) : bool :=
  negb (is_empty s) && forallb (fun c => negb (is_space c)) s.

(** ** The directory and its file *)

(** What a command leaves, after [book]: either the file holds what
    [file_write] writes for the directory left, or nothing was written
    and the directory is [book] still. *)
Definition file_follows (book : AddressBook) (out : AddressBook * option str)
  : Prop :=
  snd out = Some (file_write (fst out))
  \/ (snd out = None /\ fst out = book).

(** A directory the file keeps: one record per key, each of them
    [stored]. *)
Definition kept (book : AddressBook) : Prop :=
  NoDup (map fst book) /\ forall k r, In (k, r) book -> stored k r.

(** ** Days counted from the start of the calendar *)

(** The days before the first of January of the year [y]
    ([y*365 + y//4 - y//100 + y//400] for the year before). *)
Definition days_before_year (y : Z) : Z :=
  (365 * (y - 1) + (y - 1) / 4 - (y - 1) / 100 + (y - 1) / 400)%Z.

(** The days of the year [y] before the first of the month [m]. *)
Definition days_before_month (y m : Z) : Z :=
  (let leap := if is_leap y then 1 else 0 in
   match m with
   | 1 => 0
   | 2 => 31
   | 3 => 59 + leap
   | 4 => 90 + leap
   | 5 => 120 + leap
   | 6 => 151 + leap
   | 7 => 181 + leap
   | 8 => 212 + leap
   | 9 => 243 + leap
   | 10 => 273 + leap
   | 11 => 304 + leap
   | 12 => 334 + leap
   | _ => 0
   end)%Z.

(** [date.toordinal()]: the number of the day, 01.01.0001 being day 1. *)
Definition ordinal (d : date) : Z :=
  (days_before_year (year d) + days_before_month (year d) (month d) + day d)%Z.

(** The date [c] is the day [delta] days after [today]. *)
Definition days_after (today : date) (delta : Z) (c : date) : Prop :=
  valid_date c = true /\ ordinal c = (ordinal today + delta)%Z.

(** Some day of the eight from [today] on, [today] itself and the seven
    days after it, has the month and the day of [b]. *)
Definition in_window (today b : date) : Prop :=
  exists delta c, (0 <= delta <= 7)%Z /\ days_after today delta c
                  /\ month c = month b /\ day c = day b.

(** ** A file given by its lines *)

(** The text of a file with the lines [lines], each ended by a line
    feed. *)
Definition text_of_lines (lines : list str) : str :=
  concat (map (fun l => l ++ [LF]) lines).

(* ================================================================= *)
(** * Part III: properties *)
(* ================================================================= *)

(** ** Characters and strings *)

Lemma str_eqb_spec (a b : str) : reflect (a = b) (str_eqb a b).
Proof.
  revert b; induction a as [|x a IH]; intros [|y b]; simpl;
    try (constructor; congruence).
  destruct (Ascii.eqb_spec x y) as [->|Hxy]; simpl.
  - destruct (IH b) as [->|Hab]; constructor; congruence.
  - constructor; congruence.
Qed.

Lemma str_eqb_refl (a : str) : str_eqb a a = true.
Proof. destruct (str_eqb_spec a a); congruence. Qed.

Lemma str_eqb_eq (a b : str) : str_eqb a b = true <-> a = b.
Proof. destruct (str_eqb_spec a b); split; congruence. Qed.

Lemma str_eqb_neq (a b : str) : str_eqb a b = false <-> a <> b.
Proof. destruct (str_eqb_spec a b); split; congruence. Qed.

Lemma at_dollar_spec (v : str) : at_dollar v = true <-> v = [] \/ v = [LF].
Proof.
  destruct v as [|c [|d v]]; simpl.
  - intuition.
  - destruct (Ascii.eqb_spec c LF) as [->|Hc]; split; intros H; auto.
    + discriminate.
    + destruct H as [H|H]; [discriminate | congruence].
  - split; [discriminate | intros [H|H]; discriminate].
Qed.

(** ** Regular expressions *)

(** [\d{n}] takes exactly [n] digits. *)
Lemma accept_rep_dig (n : nat) (s : str) (k : str -> bool) :
  accept (Rep n Dig) s k = true <->
  exists u v, s = u ++ v /\ length u = n /\ forallb is_digit u = true /\ k v = true.
Proof.
  revert s; induction n as [|n IH]; intros s.
  - simpl; split.
    + intros H; exists [], s; auto.
    + intros (u & v & -> & Hu & _ & Hk).
      apply length_zero_iff_nil in Hu; subst u; exact Hk.
  - change (accept (Rep (S n) Dig) s k)
      with (match s with
            | x :: s' => is_digit x && accept (Rep n Dig) s' k
            | [] => false
            end).
    destruct s as [|x s'].
    + split; [discriminate|].
      intros (u & v & Hs & Hu & _); destruct u; simpl in *; discriminate.
    + rewrite andb_true_iff, IH; split.
      * intros (Hx & u & v & -> & Hu & Hd & Hk).
        exists (x :: u), v; simpl; rewrite Hx, Hd, Hu; auto.
      * intros (u & v & Hs & Hu & Hd & Hk).
        destruct u as [|y u]; simpl in *; [discriminate|].
        injection Hs as -> ->; apply andb_true_iff in Hd as [Hy Hd].
        split; [exact Hy|]; exists u, v; auto.
Qed.

(** ** [Phone] *)

(** What [^\d{10}$] accepts: ten digits, or ten digits and a final line
    feed. *)
Lemma validate_phone_spec (s : str) :
  validate_phone s = true <->
  ten_digits s = true \/ exists t, ten_digits t = true /\ s = t ++ [LF].
Proof.
  unfold validate_phone, re_match, phone_re, ten_digits.
  change (accept (Cat (Rep 10 Dig) Dollar) s (fun _ => true))
    with (accept (Rep 10 Dig) s (fun s' => at_dollar s' && true)).
  rewrite accept_rep_dig; split.
  - intros (u & v & -> & Hu & Hd & Hv).
    rewrite andb_true_r in Hv; apply at_dollar_spec in Hv as [-> | ->].
    + left; rewrite app_nil_r, Hu, Hd; reflexivity.
    + right; exists u; rewrite Hu, Hd; auto.
  - intros [H | (t & H & ->)]; apply andb_true_iff in H as [Hl Hd];
      apply Nat.eqb_eq in Hl.
    + exists s, []; rewrite app_nil_r; auto.
    + exists t, [LF]; auto.
Qed.

Lemma ten_digits_valid (s : str) : ten_digits s = true -> Phone s = Ok s.
Proof.
  intros H; unfold Phone.
  replace (validate_phone s) with true; [reflexivity|].
  symmetry; apply validate_phone_spec; auto.
Qed.

(** C6 (the code departs from it): [Phone] accepts a string of eleven
    characters, ten digits followed by a line feed, because [$] also
    matches just before a final line feed. *)
Theorem C6_phone_accepts_trailing_newline :
  let value := lit "1234567890" ++ [LF] in
  Phone value = Ok value /\ length value = 11 /\ ten_digits value = false.
Proof. vm_compute; auto. Qed.

(** Apart from that final line feed the constructor accepts exactly the
    strings of ten digits. *)
Lemma Phone_ok_iff (s : str) :
  Phone s = Ok s <->
  ten_digits s = true \/ exists t, ten_digits t = true /\ s = t ++ [LF].
Proof.
  rewrite <- validate_phone_spec; unfold Phone.
  destruct (validate_phone s); split; congruence.
Qed.

(** ** [Name] *)

(** C7 (as amended): [Name] raises exactly on the empty string, and a
    record is left without a name exactly then; a string of white space
    is a name like any other. *)
Theorem C7_name_fails_only_on_empty (value : str) :
  (Name value = Raise ValueError <-> value = [])
  /\ (Name value = Ok value <-> value <> [])
  /\ (name (Record_init value) = None <-> value = []).
Proof.
  unfold Record_init; destruct value as [|c s]; simpl;
    repeat split; try congruence; intros H; try discriminate; auto.
Qed.

(** C7 fails as stated: a single blank is white space only and [Name]
    accepts it. *)
Lemma C7_blank_name_accepted :
  blank (lit " ") = true /\ Name (lit " ") = Ok (lit " ")
  /\ name (Record_init (lit " ")) = Some (lit " ").
Proof. vm_compute; auto. Qed.

(** ** [Record] *)

Lemma existsb_str_eqb (x : str) (l : list str) :
  existsb (fun p => str_eqb p x) l = true <-> In x l.
Proof.
  rewrite existsb_exists; split.
  - intros (p & Hp & He); apply str_eqb_eq in He; subst; assumption.
  - intros H; exists x; split; [assumption | apply str_eqb_refl].
Qed.



Lemma add_phone_valid (phone : str) (r : Record_) :
  validate_phone phone = true ->
  add_phone phone r = (1%Z, set_phones r (phones r ++ [phone])).
Proof. intros H; unfold add_phone, Phone; rewrite H; reflexivity. Qed.



(** With a valid [new_phone] different from [old_phone] the edit replaces
    the phone: [editPhone("1112223333", "4445556666")] leaves
    [4445556666] only. *)
Example edit_phone_replaces :
  phones (snd (edit_phone (lit "1112223333") (lit "4445556666")
                 (mkRecord (Some (lit "Ann")) [lit "1112223333"] None)))
  = [lit "4445556666"].
Proof. reflexivity. Qed.

Lemma edit_phone_not_found (old_phone new_phone : str) (r : Record_) :
  ~ In old_phone (phones r) -> edit_phone old_phone new_phone r = (0%Z, r).
Proof.
  intros H; unfold edit_phone.
  destruct (existsb _ _) eqn:E; [|reflexivity].
  apply existsb_str_eqb in E; contradiction.
Qed.

(** *** Birthdays of a record *)

(** On a record that has a name, a second [add_birthday] returns 0 and
    changes nothing. *)
Lemma add_birthday_twice_named (bd : str) (r : Record_) (n : str) (b : date) :
  name r = Some n -> birthday r = Some b -> add_birthday bd r = Ok (0%Z, r).
Proof. intros Hn Hb; unfold add_birthday; rewrite Hb, Hn; reflexivity. Qed.

(** C8 (the code departs from it): on the record [Record("")] builds,
    which has no name, the first [add_birthday] sets the birthday and the
    second raises [AttributeError] instead of returning 0: the message it
    prints reads [self.name.value]. *)
Theorem C8_add_birthday_twice_raises_without_name :
  let r0 := Record_init [] in
  let r1 := mkRecord None [] (Some (mkdate 2000 1 1)) in
  name r0 = None
  /\ add_birthday (lit "01.01.2000") r0 = Ok (1%Z, r1)
  /\ add_birthday (lit "02.02.2000") r1 = Raise AttributeError.
Proof. vm_compute; auto. Qed.

(** [edit_birthday] overwrites whatever was there. *)
Lemma edit_birthday_overwrites (s : str) (r : Record_) (b : date) :
  Birthday s = Ok b -> edit_birthday s r = (1%Z, set_birthday r (Some b)).
Proof. intros H; unfold edit_birthday; rewrite H; reflexivity. Qed.

(** ** [AddressBook.birthdays]: the reference date *)

(** C2 (the code departs from it): called without a date, [birthdays]
    raises [TypeError], whatever the day and the directory: [strptime] is
    given [None], and only [ValueError] is caught. *)
Theorem C2_birthdays_without_date_raises (now : date) (data : AddressBook) :
  birthdays now None data = Raise TypeError.
Proof. reflexivity. Qed.

(** A date that does not parse is replaced by today's. *)
Lemma birthdays_bad_date_uses_today (now : date) (s : str) (data : AddressBook) :
  strptime s = Raise ValueError ->
  birthdays now (Some s) data
  = (upcoming_birthdays <- for_in (upcoming_step now) (map snd data) [] ;;
     sorted upcoming_birthdays).
Proof. intros H; unfold birthdays; rewrite H; reflexivity. Qed.

Lemma strptime_raises_only_ValueError (s : str) (e : exn) :
  strptime s = Raise e -> e = ValueError.
Proof.
  unfold strptime, make_date.
  repeat match goal with
         | |- context [match ?x with _ => _ end] => destruct x
         end; congruence.
Qed.

(** ** [Birthday] *)

Lemma forallb_Zrange (f : Z -> bool) (a : Z) (n : nat) :
  forallb f (Zrange a n) = true ->
  forall z, (a <= z < a + Z.of_nat n)%Z -> f z = true.
Proof.
  intros H z Hz; rewrite forallb_forall in H; apply H.
  unfold Zrange; apply in_map_iff.
  exists (Z.to_nat (z - a)); split; [lia|].
  apply in_seq; lia.
Qed.

(** All 31 x 12 x 200 strings [DD.MM.YYYY] of the pattern, by evaluation. *)
Lemma birthday_cases_hold :
  forallb (fun y =>
    forallb (fun m =>
      forallb (fun d => birthday_case d m y) (Zrange 1 31))
      (Zrange 1 12))
    (Zrange 1900 200) = true.
Proof. vm_cast_no_check (eq_refl true). Qed.

Lemma birthday_case_holds (d m y : Z) :
  (1 <= d <= 31)%Z -> (1 <= m <= 12)%Z -> (1900 <= y <= 2099)%Z ->
  birthday_case d m y = true.
Proof.
  intros Hd Hm Hy.
  pose proof birthday_cases_hold as H.
  pose proof (forallb_Zrange _ _ _ H y ltac:(lia)) as H1; cbv beta in H1.
  pose proof (forallb_Zrange _ _ _ H1 m ltac:(lia)) as H2; cbv beta in H2.
  exact (forallb_Zrange _ _ _ H2 d ltac:(lia)).
Qed.

(** On a string [DD.MM.YYYY] of the pattern the constructor returns the
    date when there is one and raises [ValueError] otherwise. *)
Lemma Birthday_dmy (d m y : Z) :
  (1 <= d <= 31)%Z -> (1 <= m <= 12)%Z -> (1900 <= y <= 2099)%Z ->
  validate_birthday (dmy d m y) = true
  /\ Birthday (dmy d m y)
     = if (d <=? days_in_month y m)%Z then Ok (mkdate y m d)
       else Raise ValueError.
Proof.
  intros Hd Hm Hy.
  pose proof (birthday_case_holds d m y Hd Hm Hy) as H.
  unfold birthday_case in H; cbv zeta in H.
  apply andb_true_iff in H as [Hv H].
  split; [exact Hv|].
  unfold Birthday; rewrite Hv.
  destruct (strptime (dmy d m y)) as [b|e].
  - repeat (apply andb_true_iff in H as [H ?]).
    rewrite H; destruct b as [by_ bm bd_]; simpl in *.
    f_equal; f_equal; lia.
  - destruct e; try discriminate.
    apply negb_true_iff in H; rewrite H; reflexivity.
Qed.

(** C1 (as amended): on a string [DD.MM.YYYY] with day 01-31, month 01-12
    and year 1900-2099 the pattern always matches, and the constructor
    succeeds exactly when that month of that year has the day; otherwise
    [strptime] raises [ValueError]. *)
Theorem C1_birthday_needs_calendar_date (d m y : Z) :
  (1 <= d <= 31)%Z -> (1 <= m <= 12)%Z -> (1900 <= y <= 2099)%Z ->
  validate_birthday (dmy d m y) = true
  /\ Birthday (dmy d m y)
     = if (d <=? days_in_month y m)%Z then Ok (mkdate y m d)
       else Raise ValueError.
Proof. exact (Birthday_dmy d m y). Qed.

(** C1 at one input: 29.02.2024 is a date and is accepted. *)
Lemma C1_birthday_leap_day :
  validate_birthday (dmy 29 2 2024) = true
  /\ Birthday (dmy 29 2 2024)
     = if (29 <=? days_in_month 2024 2)%Z then Ok (mkdate 2024 2 29)
       else Raise ValueError.
Proof. apply (C1_birthday_needs_calendar_date 29 2 2024); lia. Defined.

(** C1 fails as stated: [31.02.2024] matches the pattern and the
    constructor raises [ValueError]. *)
Lemma C1_birthday_31_02_2024_rejected :
  validate_birthday (lit "31.02.2024") = true
  /\ Birthday (lit "31.02.2024") = Raise ValueError.
Proof. vm_compute; auto. Qed.

Lemma days_in_month_le_31 (y m : Z) : (days_in_month y m <= 31)%Z.
Proof.
  unfold days_in_month.
  repeat match goal with
         | |- context [match ?x with _ => _ end] => destruct x
         end; lia.
Qed.

Lemma birthday_ok_roundtrip (b : date) :
  birthday_ok b = true -> Birthday (strftime b) = Ok b.
Proof.
  destruct b as [y m d]; unfold birthday_ok, valid_date; simpl; intros H.
  repeat (apply andb_true_iff in H as [H ?]).
  pose proof (days_in_month_le_31 y m).
  destruct (Birthday_dmy d m y) as [_ E]; try lia.
  unfold dmy in E; rewrite E.
  replace (d <=? days_in_month y m)%Z with true by (symmetry; assumption).
  reflexivity.
Qed.

(** ** Dates *)

Lemma date_ltb_lt (a b : date) :
  date_ltb a b = true <->
  (year a < year b
   \/ (year a = year b
       /\ (month a < month b \/ (month a = month b /\ day a < day b))))%Z.
Proof.
  unfold date_ltb.
  rewrite !orb_true_iff, !andb_true_iff, !orb_true_iff, !andb_true_iff.
  rewrite !Z.ltb_lt, !Z.eqb_eq; tauto.
Qed.

Lemma date_ltb_ge (a b : date) :
  date_ltb a b = false <->
  (year b < year a
   \/ (year b = year a
       /\ (month b < month a \/ (month b = month a /\ day b <= day a))))%Z.
Proof.
  rewrite <- not_true_iff_false, date_ltb_lt; lia.
Qed.

Lemma date_le_trans (a b c : date) : date_le a b -> date_le b c -> date_le a c.
Proof. unfold date_le; rewrite !date_ltb_ge; lia. Qed.

Lemma date_le_total (a b : date) : date_ltb a b = true -> date_le a b.
Proof. unfold date_le; rewrite date_ltb_lt, date_ltb_ge; lia. Qed.

(** A window that ends inside the calendar lies inside it. *)
Lemma add_days_ok_le (d : date) (n k : nat) (c : date) :
  add_days d n = Ok c -> k <= n -> exists c', add_days d k = Ok c'.
Proof.
  revert c; induction n as [|n IH]; intros c H Hk.
  - replace k with 0 by lia; exists d; reflexivity.
  - destruct (Nat.eq_dec k (S n)) as [->|Hne]; [exists c; exact H|].
    simpl in H; destruct (add_days d n) as [c0|e] eqn:E; [|discriminate].
    apply (IH c0 eq_refl); lia.
Qed.

(** ** The scan of the window *)

Lemma window_scan (today b : date) (deltas : list nat) :
  (forall delta, In delta deltas -> exists c, add_days today delta = Ok c) ->
  window today b deltas = Ok (existsb (hits today b) deltas).
Proof.
  induction deltas as [|delta rest IH]; intros H; [reflexivity|].
  simpl; unfold hits at 1.
  destruct (H delta (or_introl eq_refl)) as [c Hc]; rewrite Hc; simpl.
  destruct ((month b =? month c)%Z && (day b =? day c)%Z); [reflexivity|].
  apply IH; intros d Hd; apply H; right; exact Hd.
Qed.

Lemma window_scan_period (today b : date) :
  window_in_range today ->
  window today b (seq 0 (search_period + 1))
  = Ok (existsb (hits today b) (seq 0 (search_period + 1))).
Proof.
  intros [c Hc]; apply window_scan; intros delta Hd.
  apply in_seq in Hd; apply (add_days_ok_le today search_period delta c Hc).
  unfold search_period in *; lia.
Qed.

Lemma hits_falls_in_window (today b : date) :
  existsb (hits today b) (seq 0 (search_period + 1)) = true
  <-> falls_in_window today b.
Proof.
  rewrite existsb_exists; unfold falls_in_window, hits; split.
  - intros (delta & Hd & H); apply in_seq in Hd.
    destruct (add_days today delta) as [c|e] eqn:E; [|discriminate].
    apply andb_true_iff in H as [Hm Hday].
    apply Z.eqb_eq in Hm, Hday.
    exists delta, c; repeat split; try congruence. lia.
  - intros (delta & c & Hd & Hc & Hm & Hday).
    exists delta; split; [apply in_seq; lia|].
    rewrite Hc, Hm, Hday, !Z.eqb_refl; reflexivity.
Qed.

(** ** The loop over the directory *)

Lemma upcoming_step_named (today : date) (acc : list entry) (user : Record_) :
  window_in_range today -> name user <> None ->
  upcoming_step today acc user = Ok (acc ++ upcoming_of today user).
Proof.
  intros Hw Hn; unfold upcoming_step, upcoming_of.
  destruct (birthday user) as [b|]; [|rewrite app_nil_r; reflexivity].
  rewrite (window_scan_period today b Hw); cbn [bind].
  destruct (name user) as [n|]; [|contradiction].
  destruct (existsb (hits today b) _); [reflexivity | rewrite app_nil_r; reflexivity].
Qed.

Lemma for_in_upcoming (today : date) (users : list Record_) (acc : list entry) :
  window_in_range today ->
  (forall u, In u users -> name u <> None) ->
  for_in (upcoming_step today) users acc
  = Ok (acc ++ flat_map (upcoming_of today) users).
Proof.
  intros Hw; revert acc; induction users as [|u users IH]; intros acc Hn.
  - simpl; rewrite app_nil_r; reflexivity.
  - cbn [for_in flat_map].
    rewrite (upcoming_step_named today acc u Hw); cbn [bind].
    + rewrite IH, app_assoc; [reflexivity|].
      intros v Hv; apply Hn; right; exact Hv.
    + apply Hn; left; reflexivity.
Qed.

(** ** [sorted] *)

Lemma insert_by_perm (k : date) (x : entry) (l : list (date * entry)) :
  Permutation (insert_by k x l) ((k, x) :: l).
Proof.
  induction l as [|[k' y] t IH]; simpl; [apply Permutation_refl|].
  destruct (date_ltb k' k); [|apply Permutation_refl].
  eapply perm_trans; [apply perm_skip, IH | apply perm_swap].
Qed.

Lemma isort_perm (l : list (date * entry)) : Permutation (isort l) l.
Proof.
  induction l as [|[k x] l IH]; simpl; [constructor|].
  eapply perm_trans; [apply insert_by_perm | apply perm_skip, IH].
Qed.

Lemma insert_by_sorted (k : date) (x : entry) (l : list (date * entry)) :
  StronglySorted key_le l -> StronglySorted key_le (insert_by k x l).
Proof.
  induction 1 as [|[k' y] t Hs IH Hall]; simpl.
  - constructor; constructor.
  - destruct (date_ltb k' k) eqn:E.
    + constructor; [exact IH|].
      apply (Permutation_Forall (Permutation_sym (insert_by_perm k x t))).
      constructor; [apply date_le_total, E | exact Hall].
    + constructor; [constructor; assumption|].
      constructor; [exact E|].
      apply Forall_forall; intros q Hq.
      rewrite Forall_forall in Hall; specialize (Hall q Hq).
      apply (date_le_trans k k' (fst q)); [exact E | exact Hall].
Qed.

Lemma isort_sorted (l : list (date * entry)) : StronglySorted key_le (isort l).
Proof.
  induction l as [|[k x] l IH]; simpl; [constructor | apply insert_by_sorted, IH].
Qed.

Lemma with_keys_ok (xs : list entry) :
  (forall x, In x xs -> exists k, strptime (congratulation_date x) = Ok k) ->
  exists keyed,
    with_keys xs = Ok keyed /\ map snd keyed = xs
    /\ Forall (fun kx => strptime (congratulation_date (snd kx)) = Ok (fst kx)) keyed.
Proof.
  induction xs as [|x xs IH]; intros H.
  - exists []; repeat split; constructor.
  - destruct (H x (or_introl eq_refl)) as [k Hk].
    destruct IH as (keyed & Hw & Hm & Hf); [intros y Hy; apply H; right; exact Hy|].
    exists ((k, x) :: keyed); simpl; rewrite Hk, Hw; simpl.
    repeat split; [f_equal; exact Hm | constructor; assumption].
Qed.

Lemma key_le_entry_le (l : list (date * entry)) :
  Forall (fun kx => strptime (congratulation_date (snd kx)) = Ok (fst kx)) l ->
  StronglySorted key_le l -> StronglySorted entry_le (map snd l).
Proof.
  intros Hf; induction 1 as [|p t Hs IH Hall]; simpl; [constructor|].
  apply Forall_cons_iff in Hf as [Hp Hf].
  constructor; [apply IH, Hf|].
  apply Forall_map, Forall_forall; intros q Hq.
  rewrite Forall_forall in Hall, Hf.
  exists (fst p), (fst q); repeat split; [exact Hp | apply Hf, Hq | apply Hall, Hq].
Qed.

(** When every reported string parses, [sorted] returns a permutation of
    its argument in the order of the parsed dates. *)
Lemma sorted_ok (xs : list entry) :
  (forall x, In x xs -> exists k, strptime (congratulation_date x) = Ok k) ->
  exists l, sorted xs = Ok l /\ Permutation l xs /\ StronglySorted entry_le l.
Proof.
  intros H; destruct (with_keys_ok xs H) as (keyed & Hw & Hm & Hf).
  exists (map snd (isort keyed)); unfold sorted; rewrite Hw; simpl.
  split; [reflexivity|]; split.
  - rewrite <- Hm; apply Permutation_map, isort_perm.
  - apply key_le_entry_le; [|apply isort_sorted].
    apply (Permutation_Forall (Permutation_sym (isort_perm keyed))), Hf.
Qed.

(** ** [birthdays] on a directory *)

Lemma strptime_strftime (b : date) :
  birthday_ok b = true -> strptime (strftime b) = Ok b.
Proof.
  intros H; pose proof (birthday_ok_roundtrip b H) as E.
  unfold Birthday in E; destruct (validate_birthday (strftime b));
    [exact E | discriminate].
Qed.

Lemma NoDup_fst_unique {A B : Type} (l : list (A * B)) (k : A) (a b : B) :
  NoDup (map fst l) -> In (k, a) l -> In (k, b) l -> a = b.
Proof.
  induction l as [|[k' v] l IH]; simpl; [tauto|].
  intros Hnd Ha Hb; apply NoDup_cons_iff in Hnd as [Hk Hnd].
  destruct Ha as [Ha|Ha], Hb as [Hb|Hb].
  - congruence.
  - exfalso; apply Hk; injection Ha as -> _.
    apply (in_map fst) in Hb; exact Hb.
  - exfalso; apply Hk; injection Hb as -> _.
    apply (in_map fst) in Ha; exact Ha.
  - exact (IH Hnd Ha Hb).
Qed.

(** The entries collected from a directory: one for each record whose
    birthday falls in the window. *)
Lemma in_upcoming (today : date) (data : AddressBook) (e : entry) :
  book_ok data ->
  In e (flat_map (upcoming_of today) (map snd data)) <->
  exists r b, In (entry_name e, r) data /\ birthday r = Some b
              /\ congratulation_date e = strftime b
              /\ falls_in_window today b.
Proof.
  intros [_ Hok]; rewrite in_flat_map; split.
  - intros (u & Hu & He); apply in_map_iff in Hu as ([k r] & <- & Hin).
    destruct (Hok k r Hin) as [Hn _]; simpl in He.
    unfold upcoming_of in He; rewrite Hn in He.
    destruct (birthday r) as [b|] eqn:Hb; [|destruct He].
    destruct (existsb _ _) eqn:Hh; [|destruct He].
    destruct He as [<-|[]]; simpl.
    exists r, b; repeat split; try assumption.
    apply hits_falls_in_window, Hh.
  - intros (r & b & Hin & Hb & Hc & Hw).
    exists r; split; [apply in_map_iff; exists (entry_name e, r); auto|].
    destruct (Hok _ r Hin) as [Hn _].
    unfold upcoming_of; rewrite Hb, Hn.
    apply hits_falls_in_window in Hw; rewrite Hw.
    left; destruct e; simpl in *; congruence.
Qed.

Lemma upcoming_names_NoDup (today : date) (data : AddressBook) :
  book_ok data ->
  NoDup (map entry_name (flat_map (upcoming_of today) (map snd data))).
Proof.
  induction data as [|[k r] data IH]; intros [Hnd Hok]; [constructor|].
  simpl in Hnd; apply NoDup_cons_iff in Hnd as [Hk Hnd].
  assert (Hrest : book_ok data)
    by (split; [exact Hnd | intros k' r' H; apply Hok; right; exact H]).
  cbn [map flat_map snd]; rewrite map_app.
  assert (Hin : forall n, In n (map entry_name
                   (flat_map (upcoming_of today) (map snd data))) ->
                 In n (map fst data)).
  { intros n Hn; apply in_map_iff in Hn as (e & <- & He).
    apply (in_upcoming today data e Hrest) in He as (r' & _ & Hr' & _).
    apply (in_map fst) in Hr'; exact Hr'. }
  destruct (Hok k r (or_introl eq_refl)) as [Hn _].
  unfold upcoming_of at 1; rewrite Hn.
  destruct (birthday r) as [b|]; [|exact (IH Hrest)].
  destruct (existsb _ _); [|exact (IH Hrest)].
  simpl; constructor; [|exact (IH Hrest)].
  intros H; apply Hk, Hin, H.
Qed.

Lemma reference_date_today (now : date) (s : str) :
  (check_date <- except_ValueError (d <- strptime s ;; Ok (Some d)) (Ok None) ;;
   Ok match check_date with Some d => d | None => now end)
  = Ok (reference_date now s).
Proof.
  unfold reference_date; destruct (strptime s) as [d|e] eqn:E; [reflexivity|].
  rewrite (strptime_raises_only_ValueError s e E); reflexivity.
Qed.

Lemma birthdays_ok (now : date) (s : str) (data : AddressBook) :
  book_ok data ->
  window_in_range (reference_date now s) ->
  exists l,
    birthdays now (Some s) data = Ok l
    /\ Permutation l (flat_map (upcoming_of (reference_date now s)) (map snd data))
    /\ StronglySorted entry_le l.
Proof.
  intros Hok Hw.
  destruct (sorted_ok (flat_map (upcoming_of (reference_date now s)) (map snd data)))
    as (l & Hl & Hp & Hs).
  { intros x Hx; apply (in_upcoming _ _ _ Hok) in Hx as (r & b & Hin & Hb & Hc & _).
    exists b; rewrite Hc; apply strptime_strftime.
    destruct Hok as [_ Hok]; exact (proj2 (Hok _ _ Hin) b Hb). }
  exists l; split; [|split; assumption].
  unfold birthdays.
  pose proof (reference_date_today now s) as E.
  destruct (except_ValueError (d <- strptime s;; Ok (Some d)) (Ok None))
    as [check_date|e]; [|discriminate].
  cbn [bind] in E |- *; injection E as ->.
  rewrite for_in_upcoming; [exact Hl | exact Hw|].
  intros u Hu; apply in_map_iff in Hu as ([k r] & <- & Hin).
  destruct Hok as [_ Hok]; destruct (Hok k r Hin) as [Hn _].
  simpl; congruence.
Qed.

(** With a date given, on a directory that satisfies its invariant and a
    window inside the calendar, [birthdays] returns a list in which a
    record with a birthday has its entry exactly when the scan of the
    window hits the birthday's month and day; the entry reports the
    stored birthday, written [DD.MM.YYYY] with its own year; no name
    occurs twice; and a record without a birthday has no entry. *)
Lemma birthdays_window (now : date) (s : str) (data : AddressBook) :
  book_ok data ->
  window_in_range (reference_date now s) ->
  exists l,
    birthdays now (Some s) data = Ok l
    /\ (forall k r b, In (k, r) data -> birthday r = Some b ->
          (In (mkentry k (strftime b)) l
           <-> falls_in_window (reference_date now s) b))
    /\ (forall e, In e l ->
          exists r b, In (entry_name e, r) data /\ birthday r = Some b
                      /\ congratulation_date e = strftime b)
    /\ NoDup (map entry_name l)
    /\ (forall k r, In (k, r) data -> birthday r = None ->
          ~ In k (map entry_name l)).
Proof.
  intros Hok Hw; destruct (birthdays_ok now s data Hok Hw) as (l & Hl & Hp & _).
  exists l; split; [exact Hl|].
  assert (M : forall e, In e l <->
                In e (flat_map (upcoming_of (reference_date now s)) (map snd data))).
  { intros e; split; apply Permutation_in;
      [exact Hp | apply Permutation_sym, Hp]. }
  split; [|split; [|split]].
  - intros k r b Hkr Hrb; split.
    + intros H.
      apply M, (in_upcoming _ _ _ Hok) in H as (r' & b' & Hin & Hb & Hc & Hf).
      simpl in Hin, Hc.
      rewrite <- (NoDup_fst_unique data k r r' (proj1 Hok) Hkr Hin) in Hb.
      congruence.
    + intros H; apply M, (in_upcoming _ _ _ Hok).
      exists r, b; auto.
  - intros e He.
    apply M, (in_upcoming _ _ _ Hok) in He as (r & b & Hin & Hb & Hc & _).
    exists r, b; auto.
  - apply (Permutation_NoDup (Permutation_map entry_name (Permutation_sym Hp))).
    apply upcoming_names_NoDup, Hok.
  - intros k r Hin Hb Hk; apply in_map_iff in Hk as (e & <- & He).
    apply M, (in_upcoming _ _ _ Hok) in He as (r' & b' & Hin' & Hb' & _).
    rewrite (NoDup_fst_unique data _ r r' (proj1 Hok) Hin Hin') in Hb.
    congruence.
Qed.


(** *** The inputs of the description *)

Lemma book_of_ok (nm : String.string) (bd : date) :
  birthday_ok bd = true -> book_ok (book_of nm bd).
Proof.
  intros H; split.
  - repeat constructor; simpl; tauto.
  - intros k r [E|[]]; injection E as <- <-; split; [reflexivity|].
    simpl; intros b Hb; injection Hb as <-; exact H.
Qed.

Lemma bob_ann_ok : book_ok bob_ann.
Proof.
  split.
  - repeat constructor; simpl; intuition discriminate.
  - intros k r [E|[E|[E|[]]]]; injection E as <- <-;
      (split; [reflexivity|]); simpl; intros b Hb;
      try discriminate; injection Hb as <-; reflexivity.
Qed.

(** With the reference date 01.01.2024 a birthday 03.01.1990 is reported,
    with its own year, and a birthday 10.01.1990 is not. *)
Example birthdays_03_01_1990 :
  birthdays today_ (Some (lit "01.01.2024")) (book_of "Ann" (mkdate 1990 1 3))
  = Ok [mkentry (lit "Ann") (lit "03.01.1990")].
Proof. vm_compute; reflexivity. Qed.

Example birthdays_10_01_1990 :
  birthdays today_ (Some (lit "01.01.2024")) (book_of "Ann" (mkdate 1990 1 10))
  = Ok [].
Proof. vm_compute; reflexivity. Qed.

(** The order is that of the full dates: 05.01.1990 comes before
    03.01.1995, and the record without a birthday is left out. *)
Example birthdays_mixed_years :
  birthdays today_ (Some (lit "01.01.2024")) bob_ann
  = Ok [mkentry (lit "Bob") (lit "05.01.1990");
        mkentry (lit "Ann") (lit "03.01.1995")].
Proof. vm_compute; reflexivity. Qed.

(** A date that does not parse: the window starts today. *)
Example birthdays_bad_date :
  birthdays (mkdate 2024 1 1) (Some (lit "soon")) (book_of "Ann" (mkdate 1990 1 3))
  = Ok [mkentry (lit "Ann") (lit "03.01.1990")].
Proof. vm_compute; reflexivity. Qed.

(** In the last week of the year 9999 the scan leaves the calendar. *)
Example birthdays_overflow :
  birthdays today_ (Some (lit "31.12.9999")) (book_of "Ann" (mkdate 1990 1 10))
  = Raise OverflowError.
Proof. vm_compute; reflexivity. Qed.


(** ** Dictionaries *)

Lemma dict_get_set_same {V : Type} (k : str) (v : V) (d : list (str * V)) :
  dict_get k (dict_set k v d) = Some v.
Proof.
  induction d as [|[k' v'] d IH]; simpl.
  - rewrite str_eqb_refl; reflexivity.
  - destruct (str_eqb k' k) eqn:E; simpl; rewrite E; [reflexivity | exact IH].
Qed.

Lemma dict_get_set_other {V : Type} (k k' : str) (v : V) (d : list (str * V)) :
  k <> k' -> dict_get k' (dict_set k v d) = dict_get k' d.
Proof.
  intros Hne; induction d as [|[k0 v0] d IH]; simpl.
  - apply str_eqb_neq in Hne; rewrite Hne; reflexivity.
  - destruct (str_eqb k0 k) eqn:E; simpl.
    + apply str_eqb_eq in E; subst k0.
      apply str_eqb_neq in Hne; rewrite Hne; reflexivity.
    + rewrite IH; reflexivity.
Qed.

Lemma dict_get_None {V : Type} (k : str) (d : list (str * V)) :
  dict_get k d = None <-> ~ In k (map fst d).
Proof.
  induction d as [|[k' v'] d IH]; simpl; [tauto|].
  destruct (str_eqb_spec k' k) as [->|Hne].
  - split; [discriminate | tauto].
  - rewrite IH; tauto.
Qed.

Lemma dict_get_In {V : Type} (k : str) (v : V) (d : list (str * V)) :
  dict_get k d = Some v -> In (k, v) d.
Proof.
  induction d as [|[k' v'] d IH]; simpl; [discriminate|].
  destruct (str_eqb_spec k' k) as [->|Hne].
  - intros H; injection H as ->; left; reflexivity.
  - intros H; right; exact (IH H).
Qed.

Lemma dict_set_fresh {V : Type} (k : str) (v : V) (d : list (str * V)) :
  ~ In k (map fst d) -> dict_set k v d = d ++ [(k, v)].
Proof.
  induction d as [|[k' v'] d IH]; simpl; [reflexivity|].
  intros H; destruct (str_eqb_spec k' k) as [->|Hne]; [tauto|].
  rewrite IH; tauto.
Qed.

Lemma dict_set_keys {V : Type} (k : str) (v : V) (d : list (str * V)) :
  map fst (dict_set k v d)
  = if existsb (fun k' => str_eqb k' k) (map fst d) then map fst d
    else map fst d ++ [k].
Proof.
  induction d as [|[k' v'] d IH]; simpl; [reflexivity|].
  destruct (str_eqb k' k) eqn:E; simpl; [reflexivity|].
  rewrite IH; destruct (existsb _ _); reflexivity.
Qed.

Lemma dict_set_In_key {V : Type} (k k' : str) (v : V) (d : list (str * V)) :
  In k' (map fst (dict_set k v d)) <-> k' = k \/ In k' (map fst d).
Proof.
  rewrite dict_set_keys; destruct (existsb _ _) eqn:E.
  - apply existsb_str_eqb in E; split; [tauto | intros [->|H]; assumption].
  - rewrite in_app_iff; simpl; intuition congruence.
Qed.

Lemma dict_set_NoDup {V : Type} (k : str) (v : V) (d : list (str * V)) :
  NoDup (map fst d) -> NoDup (map fst (dict_set k v d)).
Proof.
  intros H; rewrite dict_set_keys; destruct (existsb _ _) eqn:E; [exact H|].
  assert (Hk : ~ In k (map fst d)).
  { intros Hin; apply existsb_str_eqb in Hin; congruence. }
  clear E; induction (map fst d) as [|x l IH]; simpl.
  - constructor; [tauto | constructor].
  - apply NoDup_cons_iff in H as [Hx Hl]; constructor.
    + rewrite in_app_iff; simpl in *; intuition congruence.
    + apply IH; [exact Hl | simpl in Hk; tauto].
Qed.

Lemma dict_set_In {V : Type} (k k' : str) (v v' : V) (d : list (str * V)) :
  In (k', v') (dict_set k v d) -> (k' = k /\ v' = v) \/ In (k', v') d.
Proof.
  induction d as [|[k0 v0] d IH]; simpl.
  - intros [H|[]]; injection H as <- <-; auto.
  - destruct (str_eqb_spec k0 k) as [->|Hne]; simpl.
    + intros [H|H]; [injection H as <- <-; auto | auto].
    + intros [H|H]; [auto | destruct (IH H); auto].
Qed.

(** ** [file_read], line by line *)

Lemma split_nonempty (sep : ascii) (s : str) : split sep s <> [].
Proof.
  destruct s as [|c s]; simpl; [discriminate|].
  destruct (Ascii.eqb c sep); [discriminate|].
  destruct (split sep s); discriminate.
Qed.

Lemma line_parts_cons (line : str) :
  exists rest, line_parts line = line_name line :: rest.
Proof.
  unfold line_name, line_parts.
  destruct (split comma (strip line)) as [|p ps] eqn:E.
  - exfalso; exact (split_nonempty _ _ E).
  - exists (map strip ps); reflexivity.
Qed.

Lemma Birthday_raises_only_ValueError (s : str) (e : exn) :
  Birthday s = Raise e -> e = ValueError.
Proof.
  unfold Birthday; destruct (validate_birthday s); [|congruence].
  apply strptime_raises_only_ValueError.
Qed.

Lemma Birthday_empty : Birthday [] = Raise ValueError.
Proof. reflexivity. Qed.

Lemma add_phones_fold (phs : list str) (r : Record_) :
  fold_left (fun r phone => snd (add_phone phone r)) phs r
  = set_phones r (phones r ++ filter validate_phone phs).
Proof.
  revert r; induction phs as [|p phs IH]; intros r; simpl.
  - rewrite app_nil_r; destruct r; reflexivity.
  - rewrite IH; unfold add_phone, Phone.
    destruct (validate_phone p); simpl; [|reflexivity].
    unfold set_phones; simpl; rewrite <- app_assoc; reflexivity.
Qed.

(** On a record that has a name [add_birthday] never raises: it keeps a
    birthday that is there, and otherwise takes the token if [Birthday]
    accepts it. *)
Lemma add_birthday_named (b : str) (r : Record_) (n : str) :
  name r = Some n ->
  exists z, add_birthday b r
            = Ok (z, set_birthday r (match birthday r with
                                     | Some d => Some d
                                     | None => first_birthday [Some b]
                                     end)).
Proof.
  intros Hn; unfold add_birthday; rewrite Hn.
  destruct (birthday r) as [d|] eqn:Hb.
  - exists 0%Z; unfold set_birthday; rewrite <- Hb; destruct r; reflexivity.
  - simpl; destruct (Birthday b) as [d|e] eqn:E; simpl.
    + exists 1%Z; reflexivity.
    + rewrite (Birthday_raises_only_ValueError b e E); simpl.
      exists 0%Z; unfold set_birthday; rewrite <- Hb; destruct r; reflexivity.
Qed.

Lemma file_read_line_named (contacts : list (str * Record_)) (line : str) (n : str) :
  name (get_or_new (line_name line) contacts) = Some n ->
  file_read_line contacts line = Ok (read_step contacts line).
Proof.
  intros Hn; unfold file_read_line, read_step.
  fold (line_parts line).
  destruct (line_parts_cons line) as [rest Hparts].
  unfold merge_line, line_phones, line_birthday.
  rewrite Hparts; cbn [nth_error nth].
  set (nm := line_name line) in *.
  fold (get_or_new nm contacts).
  set (r0 := get_or_new nm contacts) in *.
  rewrite add_phones_fold.
  set (phs := filter validate_phone _).
  assert (Hn1 : name (set_phones r0 (phones r0 ++ phs)) = Some n) by exact Hn.
  destruct rest as [|p1 [|b rest']]; cbn [nth_error nth].
  - unfold set_phones; destruct (birthday r0); reflexivity.
  - unfold set_phones; destruct (birthday r0); reflexivity.
  - destruct b as [|c b']; cbn [is_empty].
    + unfold set_phones; cbn [first_birthday]; rewrite Birthday_empty.
      destruct (birthday r0); reflexivity.
    + destruct (add_birthday_named (c :: b') _ n Hn1) as [z Hz].
      rewrite Hz; reflexivity.
Qed.

(** Without a birthday token [add_birthday] is not called. *)
Lemma file_read_line_no_birthday (contacts : list (str * Record_)) (line : str) :
  line_birthday line = None \/ line_birthday line = Some [] ->
  file_read_line contacts line = Ok (read_step contacts line).
Proof.
  intros Hb; unfold file_read_line, read_step.
  fold (line_parts line).
  destruct (line_parts_cons line) as [rest Hparts].
  unfold merge_line, line_phones; unfold line_birthday in Hb |- *.
  rewrite Hparts in Hb |- *; cbn [nth_error nth] in Hb |- *.
  fold (get_or_new (line_name line) contacts).
  rewrite add_phones_fold.
  destruct rest as [|p1 [|b rest']]; cbn [nth_error nth] in Hb |- *.
  - unfold set_phones; destruct (birthday _); reflexivity.
  - unfold set_phones; destruct (birthday _); reflexivity.
  - destruct Hb as [Hb|Hb]; [discriminate | injection Hb as ->].
    cbn [is_empty first_birthday]; rewrite Birthday_empty.
    unfold set_phones; destruct (birthday _); reflexivity.
Qed.

(** ** [file_read] on a whole file *)

Lemma Record_init_name (n : str) : n <> [] -> name (Record_init n) = Some n.
Proof. destruct n; [contradiction | reflexivity]. Qed.

Lemma get_or_new_name (contacts : list (str * Record_)) (n : str) :
  named contacts -> name (get_or_new n contacts) = name (Record_init n).
Proof.
  intros Hc; unfold get_or_new.
  destruct (dict_get n contacts) as [r|] eqn:E; [|reflexivity].
  apply Hc, dict_get_In, E.
Qed.

Lemma read_step_named (contacts : list (str * Record_)) (line : str) :
  named contacts -> named (read_step contacts line).
Proof.
  intros Hc k r Hin; unfold read_step in Hin.
  apply dict_set_In in Hin as [[-> ->]|Hin]; [|exact (Hc k r Hin)].
  exact (get_or_new_name contacts _ Hc).
Qed.

Lemma file_read_line_readable (contacts : list (str * Record_)) (line : str) :
  named contacts -> readable line ->
  file_read_line contacts line = Ok (read_step contacts line).
Proof.
  intros Hc [Hn|Hb]; [|exact (file_read_line_no_birthday contacts line Hb)].
  apply (file_read_line_named contacts line (line_name line)).
  rewrite (get_or_new_name contacts _ Hc); exact (Record_init_name _ Hn).
Qed.

Lemma for_in_read (lines : list str) (contacts : list (str * Record_)) :
  named contacts ->
  Forall readable lines ->
  for_in file_read_line lines contacts = Ok (fold_left read_step lines contacts).
Proof.
  revert contacts; induction lines as [|line lines IH]; intros contacts Hc Hl.
  - reflexivity.
  - apply Forall_cons_iff in Hl as [Hn Hl]; cbn [for_in fold_left].
    rewrite (file_read_line_readable contacts line Hc Hn); cbn [bind].
    apply IH; [apply read_step_named; assumption | exact Hl].
Qed.

Lemma get_or_new_step (n : str) (contacts : list (str * Record_)) (line : str) :
  get_or_new n (read_step contacts line)
  = if str_eqb (line_name line) n then merge_line (get_or_new n contacts) line
    else get_or_new n contacts.
Proof.
  unfold read_step; destruct (str_eqb_spec (line_name line) n) as [<-|Hne].
  - unfold get_or_new at 1; rewrite dict_get_set_same; reflexivity.
  - unfold get_or_new at 1 3; rewrite (dict_get_set_other _ _ _ _ Hne).
    reflexivity.
Qed.

Lemma get_or_new_fold (n : str) (lines : list str) (contacts : list (str * Record_)) :
  get_or_new n (fold_left read_step lines contacts)
  = fold_left merge_line
      (filter (fun line => str_eqb (line_name line) n) lines)
      (get_or_new n contacts).
Proof.
  revert contacts; induction lines as [|line lines IH]; intros contacts;
    [reflexivity|].
  cbn [fold_left filter]; rewrite IH, get_or_new_step.
  destruct (str_eqb (line_name line) n); reflexivity.
Qed.

Lemma keys_fold (n : str) (lines : list str) (contacts : list (str * Record_)) :
  In n (map fst (fold_left read_step lines contacts))
  <-> In n (map fst contacts) \/ In n (map line_name lines).
Proof.
  revert contacts; induction lines as [|line lines IH]; intros contacts;
    cbn [fold_left map]; [simpl; tauto|].
  rewrite IH; unfold read_step at 1; rewrite dict_set_In_key.
  simpl; intuition congruence.
Qed.

Lemma NoDup_fold (lines : list str) (contacts : list (str * Record_)) :
  NoDup (map fst contacts) ->
  NoDup (map fst (fold_left read_step lines contacts)).
Proof.
  revert contacts; induction lines as [|line lines IH]; intros contacts H;
    [exact H|].
  cbn [fold_left]; apply IH, dict_set_NoDup, H.
Qed.

Lemma first_birthday_cons (t : option str) (rest : list (option str)) :
  first_birthday (t :: rest)
  = match first_birthday [t] with
    | Some d => Some d
    | None => first_birthday rest
    end.
Proof.
  destruct t as [b|]; simpl; [|reflexivity].
  destruct (Birthday b); reflexivity.
Qed.

(** The record a sequence of lines leaves: the valid phones of all the
    lines, in order, after those it had, and the birthday it had or else
    the first valid one. *)
Lemma merge_lines (ls : list str) (r : Record_) :
  fold_left merge_line ls r
  = mkRecord (name r)
             (phones r ++ filter validate_phone (flat_map line_phones ls))
             (match birthday r with
              | Some b => Some b
              | None => first_birthday (map line_birthday ls)
              end).
Proof.
  revert r; induction ls as [|line ls IH]; intros r.
  - simpl; rewrite app_nil_r; destruct r as [n p [b|]]; reflexivity.
  - cbn [fold_left flat_map map]; rewrite IH; unfold merge_line at 1 2 3.
    cbn [name phones birthday].
    f_equal.
    + rewrite filter_app, app_assoc; reflexivity.
    + rewrite (first_birthday_cons (line_birthday line) (map line_birthday ls)).
      destruct (birthday r); [reflexivity|].
      destruct (first_birthday [line_birthday line]); reflexivity.
Qed.

(** The dictionary [file_read] returns for a file of lines it gets
    through. *)
Lemma file_read_merged (text : str) :
  Forall readable (readlines text) ->
  exists contacts,
    file_read (Some text) = Ok contacts
    /\ NoDup (map fst contacts)
    /\ (forall n, In n (map fst contacts)
                  <-> In n (map line_name (readlines text)))
    /\ (forall n, In n (map line_name (readlines text)) ->
          let ls := filter (fun line => str_eqb (line_name line) n)
                           (readlines text) in
          dict_get n contacts
          = Some (mkRecord (name (Record_init n))
                    (filter validate_phone (flat_map line_phones ls))
                    (first_birthday (map line_birthday ls)))).
Proof.
  intros Hl; exists (fold_left read_step (readlines text) []).
  assert (Hnamed : named []) by (intros k r []).
  split; [exact (for_in_read _ [] Hnamed Hl)|].
  split; [apply NoDup_fold; constructor|].
  split; [intros n; rewrite keys_fold; simpl; tauto|].
  intros n Hn ls.
  pose proof (get_or_new_fold n (readlines text) []) as E.
  fold ls in E; rewrite merge_lines in E.
  unfold get_or_new in E at 1.
  destruct (dict_get n (fold_left read_step (readlines text) [])) as [r|] eqn:G.
  - rewrite E; reflexivity.
  - exfalso; apply dict_get_None in G; apply G, keys_fold; right; exact Hn.
Qed.

(** *** A file with several lines for one name *)

(** The three lines of Bob make one record: the phone tokens that are
    phones, in file order (the token [abc] is skipped), and the birthday
    of the second line, the first that is a date. *)
Example file_read_bob_file :
  file_read (Some bob_file)
  = Ok [(lit "Bob",
         mkRecord (Some (lit "Bob"))
           [lit "1234567890"; lit "1112223333"; lit "5555555555"]
           (Some (mkdate 2000 2 2)));
        (lit "Ann", mkRecord (Some (lit "Ann")) [lit "2223334444"] None)].
Proof. vm_compute; reflexivity. Qed.

(** No file: an empty dictionary. *)
Example file_read_missing : file_read None = Ok [].
Proof. reflexivity. Qed.

(** C10 (the code departs from it): two lines with the same, empty name
    field, each with a birthday.  The first line alone is read into a
    record without a name that holds its birthday; with the second line
    after it, [add_birthday] finds the birthday set, reads
    [self.name.value] for its message and raises [AttributeError] (the
    defect of C8): [file_read] does not return.  The same two lines
    under a name are merged, and the later birthday is left out. *)
Theorem C10_duplicate_nameless_lines_raise :
  file_read (Some (lit ", , 01.01.2000" ++ [LF]))
  = Ok [([], mkRecord None [] (Some (mkdate 2000 1 1)))]
  /\ file_read (Some (lit ", , 01.01.2000" ++ [LF]
                       ++ lit ", , 02.02.2000" ++ [LF]))
     = Raise AttributeError
  /\ file_read (Some (lit "Bob, , 01.01.2000" ++ [LF]
                       ++ lit "Bob, , 02.02.2000" ++ [LF]))
     = Ok [(lit "Bob", mkRecord (Some (lit "Bob")) [] (Some (mkdate 2000 1 1)))].
Proof. repeat split; vm_compute; reflexivity. Qed.

(** An empty line makes a record without a name under the empty key and
    does not disturb the others. *)
Example file_read_empty_line :
  file_read (Some (lit "Bob, 1234567890," ++ [LF] ++ [LF]
                   ++ lit "Bob, 5555555555, 02.02.2000" ++ [LF]))
  = Ok [(lit "Bob",
         mkRecord (Some (lit "Bob")) [lit "1234567890"; lit "5555555555"]
           (Some (mkdate 2000 2 2)));
        ([], mkRecord None [] None)].
Proof. vm_compute; reflexivity. Qed.

(** ** Characters of the line format *)

Lemma digit_field_char (c : ascii) : is_digit c = true -> field_char c = true.
Proof.
  destruct c as [[] [] [] [] [] [] [] []]; vm_compute; congruence.
Qed.

Lemma digit_not_hyphen (c : ascii) :
  is_digit c = true -> Ascii.eqb c hyphen = false.
Proof.
  destruct c as [[] [] [] [] [] [] [] []]; vm_compute; congruence.
Qed.

Lemma is_digit_digit_chr (n : Z) : is_digit (digit_chr n) = true.
Proof.
  unfold digit_chr.
  assert (H : (0 <= n mod 10 < 10)%Z) by (apply Z.mod_pos_bound; lia).
  assert (E : (n mod 10 = 0 \/ n mod 10 = 1 \/ n mod 10 = 2 \/ n mod 10 = 3
               \/ n mod 10 = 4 \/ n mod 10 = 5 \/ n mod 10 = 6
               \/ n mod 10 = 7 \/ n mod 10 = 8 \/ n mod 10 = 9)%Z) by lia.
  repeat destruct E as [E|E]; rewrite E; reflexivity.
Qed.

Lemma field_char_strftime (b : date) : forallb field_char (strftime b) = true.
Proof.
  unfold strftime, fmt2, fmt4; simpl.
  rewrite !(digit_field_char _ (is_digit_digit_chr _)); reflexivity.
Qed.

Lemma strftime_nonempty (b : date) : strftime b <> [].
Proof. unfold strftime, fmt2; simpl; discriminate. Qed.

Lemma field_char_join (ps : list str) :
  Forall (fun p => ten_digits p = true) ps ->
  forallb field_char (join (lit "-") ps) = true.
Proof.
  induction 1 as [|p ps Hp Hps IH]; [reflexivity|].
  assert (Hd : forallb field_char p = true).
  { apply andb_true_iff in Hp as [_ Hp]; rewrite forallb_forall in Hp |- *.
    intros c Hc; apply digit_field_char, Hp, Hc. }
  destruct ps as [|q ps]; [exact Hd|].
  change (join (lit "-") (p :: q :: ps))
    with (p ++ lit "-" ++ join (lit "-") (q :: ps)).
  rewrite !forallb_app, Hd, IH; reflexivity.
Qed.

(** ** [strip], [split] and [readlines] on such characters *)

Lemma rstrip_nospace (s : str) :
  forallb (fun c => negb (is_space c)) s = true -> rstrip s = s.
Proof.
  induction s as [|c s IH]; simpl; [reflexivity|].
  intros H; apply andb_true_iff in H as [Hc Hs]; rewrite (IH Hs).
  apply negb_true_iff in Hc; rewrite Hc; destruct s; reflexivity.
Qed.

Lemma rstrip_app_keep (s t : str) :
  rstrip t <> [] -> rstrip (s ++ t) = s ++ rstrip t.
Proof.
  intros H; induction s as [|c s IH]; simpl; [reflexivity|].
  rewrite IH; destruct (s ++ rstrip t) eqn:E; [|reflexivity].
  apply app_eq_nil in E as [_ E]; contradiction.
Qed.

Lemma rstrip_app_drop (s t : str) : rstrip t = [] -> rstrip (s ++ t) = rstrip s.
Proof.
  intros H; induction s as [|c s IH]; simpl; [exact H|].
  rewrite IH; reflexivity.
Qed.

Lemma lstrip_length (s : str) : length (lstrip s) <= length s.
Proof.
  induction s as [|c s IH]; simpl; [lia|].
  destruct (is_space c); simpl; lia.
Qed.

Lemma rstrip_length (s : str) : length (rstrip s) <= length s.
Proof.
  induction s as [|c s IH]; simpl; [lia|].
  destruct (rstrip s); [destruct (is_space c)|]; simpl in *; lia.
Qed.

(** A string that [strip] leaves alone starts with a character that is
    not white space. *)
Lemma strip_fixed_head (c : ascii) (s : str) :
  strip (c :: s) = c :: s -> is_space c = false.
Proof.
  unfold strip; simpl; destruct (is_space c); [|reflexivity].
  intros H; apply (f_equal (@length ascii)) in H; simpl in H.
  pose proof (rstrip_length (lstrip s)); pose proof (lstrip_length s); lia.
Qed.

Lemma strip_nospace (s : str) :
  forallb (fun c => negb (is_space c)) s = true -> strip s = s.
Proof.
  intros H; unfold strip.
  replace (lstrip s) with s; [exact (rstrip_nospace s H)|].
  destruct s as [|c s]; simpl in *; [reflexivity|].
  apply andb_true_iff in H as [Hc _]; apply negb_true_iff in Hc.
  rewrite Hc; reflexivity.
Qed.

Lemma field_char_nospace (s : str) :
  forallb field_char s = true -> forallb (fun c => negb (is_space c)) s = true.
Proof.
  rewrite !forallb_forall; intros H c Hc.
  specialize (H c Hc); apply andb_true_iff in H; tauto.
Qed.

Lemma field_char_name_char (s : str) :
  forallb field_char s = true -> forallb name_char s = true.
Proof.
  rewrite !forallb_forall; intros H c Hc.
  specialize (H c Hc); apply andb_true_iff in H; tauto.
Qed.

Lemma split_none (sep : ascii) (s : str) :
  forallb (fun c => negb (Ascii.eqb c sep)) s = true -> split sep s = [s].
Proof.
  induction s as [|c s IH]; simpl; [reflexivity|].
  intros H; apply andb_true_iff in H as [Hc Hs]; apply negb_true_iff in Hc.
  rewrite Hc, (IH Hs); reflexivity.
Qed.

Lemma split_app (sep : ascii) (a b : str) :
  forallb (fun c => negb (Ascii.eqb c sep)) a = true ->
  split sep (a ++ sep :: b) = a :: split sep b.
Proof.
  induction a as [|c a IH]; simpl.
  - rewrite Ascii.eqb_refl; reflexivity.
  - intros H; apply andb_true_iff in H as [Hc Ha]; apply negb_true_iff in Hc.
    rewrite Hc, (IH Ha); reflexivity.
Qed.

Lemma name_char_no_comma (s : str) :
  forallb name_char s = true ->
  forallb (fun c => negb (Ascii.eqb c comma)) s = true.
Proof.
  rewrite !forallb_forall; intros H c Hc.
  specialize (H c Hc); apply andb_true_iff in H; tauto.
Qed.

Lemma name_char_nobreak (s : str) :
  forallb name_char s = true -> forallb nobreak s = true.
Proof.
  rewrite !forallb_forall; intros H c Hc.
  specialize (H c Hc); apply andb_true_iff in H; tauto.
Qed.

Lemma readlines_line (body rest : str) :
  forallb nobreak body = true ->
  readlines (body ++ LF :: rest) = (body ++ [LF]) :: readlines rest.
Proof.
  induction body as [|c body IH]; intros H.
  - reflexivity.
  - simpl in H; apply andb_true_iff in H as [Hc Hb].
    unfold nobreak in Hc; apply andb_true_iff in Hc as [H1 H2].
    apply negb_true_iff in H1, H2.
    change ((c :: body) ++ LF :: rest) with (c :: (body ++ LF :: rest)).
    cbn [readlines]; rewrite H1, H2, (IH Hb); reflexivity.
Qed.

(** ** One record, written and read *)

Lemma ten_digits_no_hyphen (p : str) :
  ten_digits p = true ->
  forallb (fun c => negb (Ascii.eqb c hyphen)) p = true.
Proof.
  intros H; apply andb_true_iff in H as [_ H].
  rewrite forallb_forall in H |- *; intros c Hc.
  rewrite (digit_not_hyphen c (H c Hc)); reflexivity.
Qed.

Lemma ten_digits_strip (p : str) : ten_digits p = true -> strip p = p.
Proof.
  intros H; apply strip_nospace, field_char_nospace.
  apply andb_true_iff in H as [_ H].
  rewrite forallb_forall in H |- *; intros c Hc.
  apply digit_field_char, H, Hc.
Qed.

Lemma ten_digits_nonempty (p : str) : ten_digits p = true -> is_empty p = false.
Proof. destruct p; [discriminate | reflexivity]. Qed.

Lemma split_join (ps : list str) :
  Forall (fun p => ten_digits p = true) ps -> ps <> [] ->
  split hyphen (join (lit "-") ps) = ps.
Proof.
  induction 1 as [|p ps Hp Hps IH]; intros Hne; [contradiction|].
  destruct ps as [|q ps].
  - apply split_none, ten_digits_no_hyphen, Hp.
  - change (join (lit "-") (p :: q :: ps))
      with (p ++ hyphen :: join (lit "-") (q :: ps)).
    rewrite (split_app hyphen p _ (ten_digits_no_hyphen p Hp)).
    rewrite IH; [reflexivity | discriminate].
Qed.

(** The phone field of a line gives back the phones. *)
Lemma phones_of_field (ps : list str) :
  Forall (fun p => ten_digits p = true) ps ->
  filter (fun p => negb (is_empty p))
         (map strip (split hyphen (join (lit "-") ps))) = ps.
Proof.
  intros H; destruct ps as [|p ps]; [reflexivity|].
  rewrite (split_join _ H) by discriminate.
  induction H as [|q qs Hq Hqs IH]; [reflexivity|].
  cbn [map filter]; rewrite (ten_digits_strip q Hq), (ten_digits_nonempty q Hq).
  cbn [negb]; f_equal; exact IH.
Qed.

Lemma filter_valid_phones (ps : list str) :
  Forall (fun p => ten_digits p = true) ps -> filter validate_phone ps = ps.
Proof.
  induction 1 as [|p ps Hp Hps IH]; [reflexivity|].
  cbn [filter]; replace (validate_phone p) with true; [f_equal; exact IH|].
  symmetry; apply validate_phone_spec; left; exact Hp.
Qed.

Lemma strip_blank_cons (s : str) : strip (" "%char :: s) = strip s.
Proof. reflexivity. Qed.

Lemma field_char_birthday_field (r : Record_) :
  forallb field_char (birthday_field r) = true.
Proof.
  unfold birthday_field; destruct (birthday r);
    [apply field_char_strftime | reflexivity].
Qed.

Lemma rstrip_line_end (bf : str) :
  forallb field_char bf = true -> rstrip (line_end bf) = line_end bf.
Proof.
  intros H; unfold line_end; destruct bf as [|c bf]; [reflexivity|].
  cbn [is_empty].
  change (comma :: " "%char :: c :: bf) with ([comma; " "%char] ++ c :: bf).
  rewrite rstrip_app_keep;
    rewrite (rstrip_nospace _ (field_char_nospace _ H));
    [reflexivity | discriminate].
Qed.

Lemma split_line_end (bf : str) :
  forallb field_char bf = true ->
  map strip (split comma (line_end bf)) = [[]; bf].
Proof.
  intros H; unfold line_end; cbn [split]; rewrite Ascii.eqb_refl.
  rewrite split_none.
  - destruct bf as [|c bf]; [reflexivity|].
    cbn [is_empty map]; rewrite strip_blank_cons.
    rewrite (strip_nospace _ (field_char_nospace _ H)); reflexivity.
  - destruct bf as [|c bf]; [reflexivity|].
    cbn [is_empty]; change (" "%char :: c :: bf) with ([" "%char] ++ c :: bf).
    rewrite forallb_app, (name_char_no_comma _ (field_char_name_char _ H)).
    reflexivity.
Qed.

Lemma strip_line (x : str) :
  is_space (hd " "%char x) = false -> rstrip x = x -> strip (x ++ [LF]) = x.
Proof.
  intros Hc Hr; destruct x as [|c s]; [discriminate|].
  unfold strip; cbn [app lstrip hd] in *; rewrite Hc.
  change (c :: s ++ [LF]) with ((c :: s) ++ [LF]).
  rewrite rstrip_app_drop by reflexivity; exact Hr.
Qed.

(** The parts [file_read] finds in a line made of a name, a phone field
    and a birthday field. *)
Lemma line_parts_fields (k ps bf : str) :
  clean_name k ->
  forallb field_char ps = true -> forallb field_char bf = true ->
  line_parts ((k ++ comma :: " "%char :: ps ++ line_end bf) ++ [LF])
  = [k; ps; bf].
Proof.
  intros (Hne & Hstrip & Hchars) Hps Hbf; unfold line_parts.
  assert (EA : k ++ comma :: " "%char :: ps ++ line_end bf
               = (k ++ comma :: " "%char :: ps) ++ line_end bf)
    by (rewrite <- app_assoc; reflexivity).
  assert (E : strip ((k ++ comma :: " "%char :: ps ++ line_end bf) ++ [LF])
              = k ++ comma :: " "%char :: ps ++ line_end bf).
  { rewrite EA; apply strip_line.
    - destruct k as [|c k']; [contradiction|].
      exact (strip_fixed_head c k' Hstrip).
    - rewrite rstrip_app_keep; rewrite (rstrip_line_end bf Hbf);
        [reflexivity | discriminate]. }
  rewrite E, (split_app comma k _ (name_char_no_comma _ Hchars)).
  change (" "%char :: ps ++ line_end bf) with ((" "%char :: ps) ++ line_end bf).
  unfold line_end at 1.
  rewrite (split_app comma (" "%char :: ps)).
  - pose proof (split_line_end bf Hbf) as S; unfold line_end in S.
    cbn [split] in S; rewrite Ascii.eqb_refl in S; cbn [map] in S.
    injection S as S.
    cbn [map]; rewrite S, Hstrip, strip_blank_cons.
    rewrite (strip_nospace ps (field_char_nospace _ Hps)); reflexivity.
  - change (" "%char :: ps) with ([" "%char] ++ ps).
    rewrite forallb_app, (name_char_no_comma _ (field_char_name_char _ Hps)).
    reflexivity.
Qed.

(** The line [file_write] writes for a stored record. *)
Lemma record_line_stored (k : str) (r : Record_) :
  stored k r ->
  record_line r
  = Some ((k ++ comma :: " "%char :: join (lit "-") (phones r)
             ++ line_end (birthday_field r)) ++ [LF]).
Proof.
  intros (Hn & _); unfold record_line, line_end; rewrite Hn.
  fold (birthday_field r); destruct (is_empty (birthday_field r));
    cbn [lit String.list_ascii_of_string app];
    rewrite <- ?app_assoc; cbn [app]; rewrite <- ?app_assoc; reflexivity.
Qed.

Lemma line_nobreak (k ps bf : str) :
  forallb name_char k = true ->
  forallb field_char ps = true -> forallb field_char bf = true ->
  forallb nobreak (k ++ comma :: " "%char :: ps ++ line_end bf) = true.
Proof.
  intros Hk Hps Hbf; unfold line_end.
  rewrite forallb_app; cbn [forallb]; rewrite forallb_app; cbn [forallb].
  rewrite (name_char_nobreak _ Hk),
          (name_char_nobreak _ (field_char_name_char _ Hps)).
  destruct bf as [|c bf]; [reflexivity|].
  cbn [is_empty forallb].
  pose proof (name_char_nobreak _ (field_char_name_char _ Hbf)) as H.
  cbn [forallb] in H; rewrite H; reflexivity.
Qed.

(** ** The round trip *)

Lemma written_line_parts (k : str) (r : Record_) :
  stored k r ->
  line_parts (written_line (k, r))
  = [k; join (lit "-") (phones r); birthday_field r].
Proof.
  intros (_ & Hk & Hph & _); unfold written_line; cbn [fst snd].
  apply line_parts_fields;
    [exact Hk | apply field_char_join, Hph | apply field_char_birthday_field].
Qed.

Lemma first_birthday_field (r : Record_) :
  (forall b, birthday r = Some b -> birthday_ok b = true) ->
  first_birthday [Some (birthday_field r)] = birthday r.
Proof.
  intros H; unfold birthday_field; destruct (birthday r) as [b|]; simpl.
  - rewrite (birthday_ok_roundtrip b (H b eq_refl)); reflexivity.
  - reflexivity.
Qed.

(** Reading the line of a stored record into a new record gives the
    record back. *)
Lemma merge_written_line (k : str) (r : Record_) :
  stored k r ->
  line_name (written_line (k, r)) = k
  /\ merge_line (Record_init k) (written_line (k, r)) = r.
Proof.
  intros Hs; pose proof (written_line_parts k r Hs) as P.
  destruct Hs as (Hn & (Hne & _) & Hph & Hb).
  split; [unfold line_name; rewrite P; reflexivity|].
  unfold merge_line, line_phones, line_birthday; rewrite P.
  cbn [nth nth_error]; rewrite (phones_of_field _ Hph).
  rewrite (filter_valid_phones _ Hph), (first_birthday_field r Hb).
  unfold Record_init; destruct k as [|c k]; [contradiction|].
  destruct r as [n ps b]; simpl in *; rewrite Hn; reflexivity.
Qed.

Lemma readlines_written (data : list (str * Record_)) :
  (forall k r, In (k, r) data -> stored k r) ->
  readlines (write_records (map snd data)) = map written_line data.
Proof.
  induction data as [|[k r] data IH]; intros H; [reflexivity|].
  assert (Hs : stored k r) by (apply H; left; reflexivity).
  cbn [map snd write_records]; rewrite (record_line_stored k r Hs).
  rewrite <- app_assoc; cbn [app].
  destruct Hs as (_ & (_ & _ & Hk) & Hph & _).
  rewrite readlines_line.
  - rewrite IH; [reflexivity | intros k' r' Hin; apply H; right; exact Hin].
  - apply line_nobreak;
      [exact Hk | apply field_char_join, Hph | apply field_char_birthday_field].
Qed.

Lemma fold_read_written (data acc : list (str * Record_)) :
  (forall k r, In (k, r) data -> stored k r) ->
  NoDup (map fst (acc ++ data)) ->
  fold_left read_step (map written_line data) acc = acc ++ data.
Proof.
  revert acc; induction data as [|[k r] data IH]; intros acc H Hnd.
  - rewrite app_nil_r; reflexivity.
  - assert (Hs : stored k r) by (apply H; left; reflexivity).
    destruct (merge_written_line k r Hs) as [Hname Hmerge].
    assert (Hfresh : ~ In k (map fst acc)).
    { rewrite map_app in Hnd; apply NoDup_remove_2 in Hnd.
      intros Hin; apply Hnd, in_or_app; left; exact Hin. }
    cbn [map fold_left]; unfold read_step at 2; rewrite Hname.
    unfold get_or_new; rewrite (proj2 (dict_get_None k acc) Hfresh), Hmerge.
    rewrite (dict_set_fresh k r acc Hfresh), IH.
    + rewrite <- app_assoc; reflexivity.
    + intros k' r' Hin; apply H; right; exact Hin.
    + rewrite <- app_assoc; exact Hnd.
Qed.

(** C4 (as amended): a directory with unique keys whose records are
    stored under their own names, with names the file keeps (not empty,
    no white space at either end, no comma, no line break), phones of ten
    digits and birthdays [Birthday] returns, is read back from the text
    [file_write] writes exactly as it was: the same records in the same
    order, with the same names, phone lists and birthdays. *)
Theorem C4_file_roundtrip (data : AddressBook) :
  NoDup (map fst data) ->
  (forall k r, In (k, r) data -> stored k r) ->
  file_read (Some (file_write data)) = Ok data.
Proof.
  intros Hnd H; unfold file_read, file_write.
  rewrite (readlines_written data H), for_in_read.
  - rewrite (fold_read_written data [] H Hnd); reflexivity.
  - intros k r [].
  - apply Forall_forall; intros line Hin; left.
    apply in_map_iff in Hin as ([k r] & <- & Hin).
    destruct (merge_written_line k r (H k r Hin)) as [-> _].
    destruct (H k r Hin) as (_ & (Hne & _) & _); exact Hne.
Qed.

(** *** Directories written and read *)

Example file_write_two_contacts :
  file_write two_contacts
  = lit "John Smith, 1112223333-4445556666, 03.01.1990" ++ [LF]
    ++ lit "Eve, ," ++ [LF].
Proof. vm_compute; reflexivity. Qed.

Lemma two_contacts_stored (k : str) (r : Record_) :
  In (k, r) two_contacts -> stored k r.
Proof.
  intros [E|[E|[]]]; injection E as <- <-;
    (split; [reflexivity|]); (split; [repeat split; discriminate|]);
    (split; [repeat constructor|]);
    intros b Hb; try discriminate; injection Hb as <-; reflexivity.
Qed.

(** C4 on a directory of two records. *)
Lemma C4_two_contacts_roundtrip :
  file_read (Some (file_write two_contacts)) = Ok two_contacts.
Proof.
  apply (C4_file_roundtrip two_contacts).
  - repeat constructor; simpl; intuition discriminate.
  - exact two_contacts_stored.
Defined.

(** C4 fails as stated: [" Ann"] is a name [Name] accepts and it has no
    comma, yet the record comes back under the name ["Ann"]. *)
Lemma C4_leading_blank_not_kept :
  let r := Record_init (lit " Ann") in
  name r = Some (lit " Ann")
  /\ existsb (Ascii.eqb comma) (lit " Ann") = false
  /\ phones r = [] /\ birthday r = None
  /\ file_read (Some (file_write [(lit " Ann", r)]))
     = Ok [(lit "Ann", Record_init (lit "Ann"))].
Proof. vm_compute; auto 10. Qed.

(** ** What the pattern of [Birthday] accepts *)

Lemma digit_val_range (c : ascii) :
  is_digit c = true -> (0 <= digit_val c <= 9)%Z.
Proof.
  unfold is_digit, digit_val; intros H.
  apply andb_true_iff in H as [H1 H2].
  apply N.leb_le in H1, H2; lia.
Qed.

Lemma in_range_digit (lo hi c : ascii) :
  in_range lo hi c = true -> is_digit lo = true -> is_digit hi = true ->
  is_digit c = true /\ (digit_val lo <= digit_val c <= digit_val hi)%Z.
Proof.
  unfold in_range, is_digit, digit_val; intros H Hlo Hhi.
  apply andb_true_iff in H as [H1 H2].
  apply andb_true_iff in Hlo as [L1 L2].
  apply andb_true_iff in Hhi as [U1 U2].
  apply N.leb_le in H1, H2, L1, L2, U1, U2.
  split; [|lia].
  apply andb_true_iff; split; apply N.leb_le; lia.
Qed.

Lemma digit_chr_val (c : ascii) (a : Z) :
  is_digit c = true -> digit_chr (10 * a + digit_val c) = c.
Proof.
  intros H; pose proof (digit_val_range c H) as R; unfold digit_chr.
  replace ((10 * a + digit_val c) mod 10)%Z with (digit_val c).
  - unfold digit_val in *.
    replace (48 + (Z.of_N (N_of_ascii c) - 48))%Z with (Z.of_N (N_of_ascii c))
      by lia.
    rewrite N2Z.id; apply ascii_N_embedding.
  - rewrite Z.add_comm, Z.mul_comm, Z.mod_add by lia.
    symmetry; apply Z.mod_small; lia.
Qed.

Lemma fmt2_digits (c1 c2 : ascii) :
  is_digit c1 = true -> is_digit c2 = true ->
  fmt2 (10 * digit_val c1 + digit_val c2) = [c1; c2].
Proof.
  intros H1 H2; pose proof (digit_val_range c2 H2) as R2.
  unfold fmt2; rewrite (digit_chr_val c2 _ H2).
  replace ((10 * digit_val c1 + digit_val c2) / 10)%Z
    with (10 * 0 + digit_val c1)%Z.
  - rewrite (digit_chr_val c1 0 H1); reflexivity.
  - pose proof (digit_val_range c1 H1).
    apply Z.div_unique with (r := digit_val c2); lia.
Qed.

Lemma fmt4_digits (c1 c2 c3 c4 : ascii) :
  is_digit c1 = true -> is_digit c2 = true ->
  is_digit c3 = true -> is_digit c4 = true ->
  fmt4 (10 * (10 * (10 * digit_val c1 + digit_val c2) + digit_val c3)
        + digit_val c4) = [c1; c2; c3; c4].
Proof.
  intros H1 H2 H3 H4.
  pose proof (digit_val_range c1 H1); pose proof (digit_val_range c2 H2).
  pose proof (digit_val_range c3 H3); pose proof (digit_val_range c4 H4).
  unfold fmt4; rewrite (digit_chr_val c4 _ H4).
  set (v1 := digit_val c1) in *; set (v2 := digit_val c2) in *.
  set (v3 := digit_val c3) in *; set (v4 := digit_val c4) in *.
  replace ((10 * (10 * (10 * v1 + v2) + v3) + v4) / 10)%Z
    with (10 * (10 * v1 + v2) + v3)%Z
    by (apply Z.div_unique with (r := v4); lia).
  replace ((10 * (10 * (10 * v1 + v2) + v3) + v4) / 100)%Z
    with (10 * v1 + v2)%Z
    by (apply Z.div_unique with (r := (10 * v3 + v4)%Z); lia).
  replace ((10 * (10 * (10 * v1 + v2) + v3) + v4) / 1000)%Z
    with (10 * 0 + v1)%Z
    by (apply Z.div_unique with (r := (100 * v2 + 10 * v3 + v4)%Z); lia).
  subst v1 v2 v3 v4.
  rewrite (digit_chr_val c3 _ H3), (digit_chr_val c2 _ H2), (digit_chr_val c1 _ H1).
  reflexivity.
Qed.

Ltac short_input H :=
  unfold validate_birthday, re_match, birthday_re, chr, rng in H;
  cbn [accept] in H; rewrite ?andb_false_r in H; cbn in H; discriminate H.

Ltac char_facts :=
  repeat match goal with
    | H : (_ =? _)%char = true |- _ => apply Ascii.eqb_eq in H; subst
    | H : in_range ?lo ?hi ?c = true |- _ =>
        let D := fresh "D" in
        let R := fresh "R" in
        destruct (in_range_digit lo hi c H eq_refl eq_refl) as [D R];
        clear H
    | H : true = true |- _ => clear H
    end.

(** The value of a digit that is a literal of the pattern. *)
Ltac literal_digits :=
  repeat match goal with
    | |- context [digit_val (Ascii ?a ?b ?c ?d ?e ?f ?g ?h)] =>
        let v := eval vm_compute in (digit_val (Ascii a b c d e f g h)) in
        change (digit_val (Ascii a b c d e f g h)) with v
    | H : context [digit_val (Ascii ?a ?b ?c ?d ?e ?f ?g ?h)] |- _ =>
        let v := eval vm_compute in (digit_val (Ascii a b c d e f g h)) in
        change (digit_val (Ascii a b c d e f g h)) with v in H
    end.

(** A string the pattern accepts is some [DD.MM.YYYY] with day 01-31,
    month 01-12 and year 1900-2099, alone or followed by one line feed. *)
Lemma validate_birthday_inv (s : str) :
  validate_birthday s = true ->
  exists d m y,
    (1 <= d <= 31)%Z /\ (1 <= m <= 12)%Z /\ (1900 <= y <= 2099)%Z
    /\ (s = dmy d m y \/ s = dmy d m y ++ [LF]).
Proof.
  intros H.
  do 10 (destruct s as [|? s]; [short_input H|]).
  unfold validate_birthday, re_match, birthday_re, chr, rng in H.
  cbn [accept] in H.
  repeat rewrite ?andb_true_iff, ?orb_true_iff in H.
  assert (G : forall c1 c2 c4 c5 c7 c8 c9 c10 : ascii,
             is_digit c1 = true -> is_digit c2 = true ->
             is_digit c4 = true -> is_digit c5 = true ->
             is_digit c7 = true -> is_digit c8 = true ->
             is_digit c9 = true -> is_digit c10 = true ->
             at_dollar s = true ->
             (1 <= 10 * digit_val c1 + digit_val c2 <= 31)%Z ->
             (1 <= 10 * digit_val c4 + digit_val c5 <= 12)%Z ->
             (19 <= 10 * digit_val c7 + digit_val c8 <= 20)%Z ->
             exists d m y,
               (1 <= d <= 31)%Z /\ (1 <= m <= 12)%Z /\ (1900 <= y <= 2099)%Z
               /\ (c1 :: c2 :: dot :: c4 :: c5 :: dot :: c7 :: c8 :: c9 :: c10 :: s
                   = dmy d m y
                   \/ c1 :: c2 :: dot :: c4 :: c5 :: dot :: c7 :: c8 :: c9 :: c10 :: s
                      = dmy d m y ++ [LF])).
  { clear; intros c1 c2 c4 c5 c7 c8 c9 c10 D1 D2 D4 D5 D7 D8 D9 D10 Hs Rd Rm Ry.
    pose proof (digit_val_range c9 D9); pose proof (digit_val_range c10 D10).
    exists (10 * digit_val c1 + digit_val c2)%Z,
           (10 * digit_val c4 + digit_val c5)%Z,
           (10 * (10 * (10 * digit_val c7 + digit_val c8) + digit_val c9)
            + digit_val c10)%Z.
    repeat split; try lia.
    unfold dmy, strftime; cbn [day month year].
    rewrite (fmt2_digits c1 c2 D1 D2), (fmt2_digits c4 c5 D4 D5).
    rewrite (fmt4_digits c7 c8 c9 c10 D7 D8 D9 D10).
    apply at_dollar_spec in Hs as [-> | ->]; [left | right]; reflexivity. }
  decompose [and or] H; clear H; char_facts;
    apply G; try assumption; try reflexivity; literal_digits; lia.
Qed.

(** [$] lets one final line feed through. *)
Lemma validate_birthday_LF (d m y : Z) :
  validate_birthday (dmy d m y ++ [LF]) = validate_birthday (dmy d m y).
Proof.
  unfold validate_birthday, re_match, birthday_re, chr, rng, dmy, strftime,
    fmt2, fmt4.
  cbn [day month year app lit String.list_ascii_of_string accept at_dollar].
  reflexivity.
Qed.

(** The strings the pattern of [Birthday] accepts. *)
Lemma validate_birthday_iff (s : str) :
  validate_birthday s = true <->
  exists d m y,
    (1 <= d <= 31)%Z /\ (1 <= m <= 12)%Z /\ (1900 <= y <= 2099)%Z
    /\ (s = dmy d m y \/ s = dmy d m y ++ [LF]).
Proof.
  split; [apply validate_birthday_inv|].
  intros (d & m & y & Hd & Hm & Hy & [-> | ->]).
  - exact (proj1 (Birthday_dmy d m y Hd Hm Hy)).
  - rewrite validate_birthday_LF; exact (proj1 (Birthday_dmy d m y Hd Hm Hy)).
Qed.

Lemma digit_not_dot (c : ascii) : is_digit c = true -> Ascii.eqb c dot = false.
Proof.
  destruct c as [[] [] [] [] [] [] [] []]; vm_compute; congruence.
Qed.

Lemma no_dot_digits (s : str) :
  forallb is_digit s = true ->
  forallb (fun c => negb (Ascii.eqb c dot)) s = true.
Proof.
  rewrite !forallb_forall; intros H c Hc.
  rewrite (digit_not_dot c (H c Hc)); reflexivity.
Qed.

Lemma is_digit_fmt2 (n : Z) : forallb is_digit (fmt2 n) = true.
Proof. unfold fmt2; cbn [forallb]; rewrite !is_digit_digit_chr; reflexivity. Qed.

Lemma is_digit_fmt4 (n : Z) : forallb is_digit (fmt4 n) = true.
Proof. unfold fmt4; cbn [forallb]; rewrite !is_digit_digit_chr; reflexivity. Qed.

(** The three fields [strptime] finds between the dots. *)
Lemma split_dmy (d m y : Z) (rest : str) :
  forallb (fun c => negb (Ascii.eqb c dot)) rest = true ->
  split dot (dmy d m y ++ rest) = [fmt2 d; fmt2 m; fmt4 y ++ rest].
Proof.
  intros H; unfold dmy, strftime; cbn [day month year lit
    String.list_ascii_of_string].
  rewrite <- !app_assoc; cbn [app].
  rewrite (split_app dot (fmt2 d)) by apply no_dot_digits, is_digit_fmt2.
  rewrite (split_app dot (fmt2 m)) by apply no_dot_digits, is_digit_fmt2.
  rewrite split_none; [reflexivity|].
  rewrite forallb_app, H, (no_dot_digits _ (is_digit_fmt4 y)); reflexivity.
Qed.

(** The final line feed the pattern lets through is refused by
    [strptime]: the whole string has to be converted. *)
Lemma strptime_trailing_LF (d m y : Z) :
  strptime (dmy d m y ++ [LF]) = Raise ValueError.
Proof.
  unfold strptime; rewrite split_dmy by reflexivity.
  replace (re_fullmatch re_Y (fmt4 y ++ [LF])) with false.
  - rewrite andb_false_r; reflexivity.
  - unfold re_fullmatch, re_Y, fmt4; cbn [accept app].
    rewrite !andb_false_r; reflexivity.
Qed.

(** What [Birthday] returns: the date of a string [DD.MM.YYYY] that names
    a calendar day of the years 1900 to 2099. *)
Lemma Birthday_inv (s : str) (b : date) :
  Birthday s = Ok b -> birthday_ok b = true /\ s = strftime b.
Proof.
  unfold Birthday; destruct (validate_birthday s) eqn:V; [|discriminate].
  destruct (validate_birthday_inv s V) as (d & m & y & Hd & Hm & Hy & [-> | ->]).
  - destruct (Birthday_dmy d m y Hd Hm Hy) as [V' E].
    unfold Birthday in E; rewrite V' in E; rewrite E.
    destruct (d <=? days_in_month y m)%Z eqn:L; [|discriminate].
    intros H; injection H as <-; split; [|reflexivity].
    unfold birthday_ok, valid_date; cbn [year month day]; rewrite L.
    rewrite !andb_true_iff, !Z.leb_le; repeat split; lia.
  - rewrite strptime_trailing_LF; discriminate.
Qed.

Lemma Birthday_ok_iff (s : str) (b : date) :
  Birthday s = Ok b <-> birthday_ok b = true /\ s = strftime b.
Proof.
  split; [apply Birthday_inv|].
  intros [H ->]; apply birthday_ok_roundtrip, H.
Qed.

(** ** The invariant of a directory is kept *)

Lemma Record_init_ok (n : str) : n <> [] -> record_ok n (Record_init n).
Proof.
  intros H; split; [destruct n; [contradiction | reflexivity]|].
  intros b Hb; discriminate.
Qed.

Lemma add_phone_record_ok (k phone : str) (r : Record_) :
  record_ok k r -> record_ok k (snd (add_phone phone r)).
Proof.
  intros H; unfold add_phone; destruct (Phone phone); exact H.
Qed.

Lemma edit_phone_record_ok (k old_phone new_phone : str) (r : Record_) :
  record_ok k r -> record_ok k (snd (edit_phone old_phone new_phone r)).
Proof.
  intros H; unfold edit_phone; destruct (existsb _ _); [|exact H].
  unfold add_phone; destruct (Phone new_phone); exact H.
Qed.

Lemma add_birthday_record_ok (k bd : str) (r r' : Record_) (z : Z) :
  record_ok k r -> add_birthday bd r = Ok (z, r') -> record_ok k r'.
Proof.
  intros [Hn Hb]; unfold add_birthday; rewrite Hn.
  destruct (birthday r) as [b0|] eqn:E.
  - intros H; injection H as _ <-; split; [exact Hn|].
    intros b Hb'; apply Hb; congruence.
  - destruct (Birthday bd) as [b|e] eqn:B; cbn [bind except_ValueError].
    + intros H; injection H as _ <-; split; [exact Hn|].
      cbn [birthday set_birthday]; intros b' Hb'; injection Hb' as <-.
      exact (proj1 (Birthday_inv bd b B)).
    + rewrite (Birthday_raises_only_ValueError bd e B); cbn.
      intros H; injection H as _ <-; split; [exact Hn|].
      intros b Hb'; congruence.
Qed.

Lemma edit_birthday_record_ok (k bd : str) (r : Record_) :
  record_ok k r -> record_ok k (snd (edit_birthday bd r)).
Proof.
  intros [Hn Hb]; unfold edit_birthday.
  destruct (Birthday bd) as [b|e] eqn:B; [|split; assumption].
  split; [exact Hn|]; cbn; intros b' Hb'; injection Hb' as <-.
  exact (proj1 (Birthday_inv bd b B)).
Qed.

Lemma add_record_book_ok (k : str) (r : Record_) (data : AddressBook) :
  book_ok data -> record_ok k r -> book_ok (add_record r data).
Proof.
  intros [Hnd Hok] Hr; unfold add_record; rewrite (proj1 Hr); split.
  - apply dict_set_NoDup, Hnd.
  - intros k' r' Hin; apply dict_set_In in Hin as [[-> ->]|Hin];
      [exact Hr | exact (Hok k' r' Hin)].
Qed.

Lemma add_record_nameless (r : Record_) (data : AddressBook) :
  name r = None -> add_record r data = data.
Proof. intros H; unfold add_record; rewrite H; reflexivity. Qed.

Lemma first_birthday_ok (tokens : list (option str)) (b : date) :
  first_birthday tokens = Some b -> birthday_ok b = true.
Proof.
  induction tokens as [|[t|] tokens IH]; simpl; [discriminate| |exact IH].
  destruct (Birthday t) as [d|e] eqn:B; [|exact IH].
  intros H; injection H as <-; exact (proj1 (Birthday_inv t d B)).
Qed.

Lemma In_dict_get {V : Type} (k : str) (v : V) (d : list (str * V)) :
  NoDup (map fst d) -> In (k, v) d -> dict_get k d = Some v.
Proof.
  intros Hnd Hin; destruct (dict_get k d) as [v'|] eqn:E.
  - f_equal; apply (NoDup_fst_unique d k v' v Hnd (dict_get_In k v' d E) Hin).
  - apply dict_get_None in E; exfalso; apply E.
    apply (in_map fst) in Hin; exact Hin.
Qed.

(** The dictionary [file_read] returns for a file in which every line has
    a name satisfies the invariant [birthdays] relies on. *)
Lemma file_read_book_ok (text : str) :
  Forall (fun line => line_name line <> []) (readlines text) ->
  exists contacts, file_read (Some text) = Ok contacts /\ book_ok contacts.
Proof.
  intros H.
  assert (Hr : Forall readable (readlines text))
    by (apply (Forall_impl _ (fun line Hn => or_introl Hn) H)).
  destruct (file_read_merged text Hr) as (contacts & E & Hnd & Hk & Hget).
  exists contacts; split; [exact E|]; split; [exact Hnd|].
  intros k r Hin.
  assert (Hkey : In k (map line_name (readlines text)))
    by (apply Hk; apply (in_map fst) in Hin; exact Hin).
  specialize (Hget k Hkey); cbv zeta in Hget.
  rewrite (In_dict_get k r contacts Hnd Hin) in Hget; injection Hget as ->.
  split; [|cbn [birthday]; apply first_birthday_ok].
  apply Record_init_name.
  apply in_map_iff in Hkey as (line & <- & Hline).
  rewrite Forall_forall in H; exact (H line Hline).
Qed.

(** ** More on [Phone] and [Birthday] *)

Lemma Phone_raises_only_ValueError (s : str) (e : exn) :
  Phone s = Raise e -> e = ValueError.
Proof. unfold Phone; destruct (validate_phone s); congruence. Qed.

(** On the code points of this development the class [\d] is 0 to 9. *)
Lemma ten_of_class_d_spec (s : str) : ten_of_class_d s = ten_digits s.
Proof.
  apply eq_true_iff_eq; unfold ten_of_class_d, re_fullmatch, ten_digits.
  rewrite accept_rep_dig, andb_true_iff, Nat.eqb_eq; split.
  - intros (u & v & -> & Hu & Hd & Hv); destruct v; [|discriminate].
    rewrite app_nil_r; split; assumption.
  - intros [Hl Hd]; exists s, []; rewrite app_nil_r; auto.
Qed.

(** X1: [Phone] returns its argument exactly when the whole string is
    ten characters of the class [\d], or ten such characters followed by
    one line feed (the [$] of the pattern matches before a final line
    feed); on every other string it raises [ValueError]. *)
Theorem X1_phone_accepted_strings (value : str) :
  (Phone value = Ok value
   <-> ten_of_class_d value = true
       \/ exists t, ten_of_class_d t = true /\ value = t ++ [LF])
  /\ (Phone value = Ok value \/ Phone value = Raise ValueError).
Proof.
  split.
  - rewrite (Phone_ok_iff value), ten_of_class_d_spec; split;
      (intros [H|(t & Ht & E)]; [left; exact H|right; exists t]);
      [rewrite ten_of_class_d_spec|rewrite <- ten_of_class_d_spec]; auto.
  - unfold Phone; destruct (validate_phone value); auto.
Qed.

(** X2: the dates [Birthday] returns are the calendar dates of the
    years 1900 to 2099: whatever the string, a date it returns is one of
    them, and each of them is returned for its own string [DD.MM.YYYY];
    apart from a date, the constructor gives [ValueError] and nothing
    else. *)
Theorem X2_birthday_returns_calendar_dates (value : str) (b : date) :
  (Birthday value = Ok b -> birthday_ok b = true)
  /\ (birthday_ok b = true -> Birthday (strftime b) = Ok b)
  /\ (forall e, Birthday value = Raise e -> e = ValueError).
Proof.
  split; [intros H; exact (proj1 (Birthday_inv value b H))|].
  split; [exact (birthday_ok_roundtrip b)|].
  exact (Birthday_raises_only_ValueError value).
Qed.

(** ** More on the phones of a record *)

Lemma filter_absent (x : str) (l : list str) :
  ~ In x l -> filter (fun p => negb (str_eqb p x)) l = l.
Proof.
  induction l as [|y l IH]; simpl; [reflexivity|].
  intros H; destruct (str_eqb_spec y x) as [->|Hne]; [tauto|].
  simpl; rewrite IH; tauto.
Qed.

(** X3: [edit_phone] with an [old_phone] the record does not hold
    returns 0 and changes nothing, whatever [new_phone] is. *)
Theorem X3_edit_phone_unknown_old (old_phone new_phone : str) (r : Record_) :
  ~ In old_phone (phones r) -> edit_phone old_phone new_phone r = (0%Z, r).
Proof. exact (edit_phone_not_found old_phone new_phone r). Qed.

Lemma X3_edit_phone_unknown_old_on_empty :
  edit_phone (lit "1112223333") (lit "4445556666") (Record_init (lit "Ann"))
  = (0%Z, Record_init (lit "Ann")).
Proof.
  apply (X3_edit_phone_unknown_old (lit "1112223333") (lit "4445556666")
           (Record_init (lit "Ann"))).
  simpl; tauto.
Defined.

(** X4: [edit_phone] with an [old_phone] the record holds and a valid
    [new_phone] returns 1; the phones are the former ones without the
    entries equal to [old_phone], followed by [new_phone], unless
    [new_phone] is [old_phone] itself: then the phone is removed and
    nothing replaces it. *)
Theorem X4_edit_phone_valid_new (old_phone new_phone : str) (r : Record_) :
  In old_phone (phones r) ->
  validate_phone new_phone = true ->
  edit_phone old_phone new_phone r
  = (1%Z,
     set_phones r
       (filter (fun p => negb (str_eqb p old_phone)) (phones r)
        ++ (if str_eqb new_phone old_phone then [] else [new_phone]))).
Proof.
  intros Hin Hv; unfold edit_phone.
  replace (existsb (fun p => str_eqb p old_phone) (phones r)) with true
    by (symmetry; apply existsb_str_eqb; exact Hin).
  rewrite (add_phone_valid _ _ Hv); unfold delete_phone, set_phones.
  cbn [snd phones name birthday]; rewrite filter_app; cbn [filter].
  destruct (str_eqb new_phone old_phone); reflexivity.
Qed.

Lemma X4_edit_phone_same_number :
  edit_phone (lit "1112223333") (lit "1112223333")
    (mkRecord (Some (lit "Ann")) [lit "1112223333"] None)
  = (1%Z,
     set_phones (mkRecord (Some (lit "Ann")) [lit "1112223333"] None)
       (filter (fun p => negb (str_eqb p (lit "1112223333")))
               [lit "1112223333"]
        ++ (if str_eqb (lit "1112223333") (lit "1112223333") then []
            else [lit "1112223333"]))).
Proof.
  apply (X4_edit_phone_valid_new (lit "1112223333") (lit "1112223333")
           (mkRecord (Some (lit "Ann")) [lit "1112223333"] None)).
  - simpl; left; reflexivity.
  - reflexivity.
Defined.

(** Editing a phone to itself loses it. *)
Example edit_phone_to_itself :
  phones (snd (edit_phone (lit "1112223333") (lit "1112223333")
                 (mkRecord (Some (lit "Ann")) [lit "1112223333"] None)))
  = [].
Proof. reflexivity. Qed.

Lemma filter_remove (x : str) (l : list str) :
  filter (fun q => negb (str_eqb q x)) l = remove (list_eq_dec ascii_dec) x l.
Proof.
  induction l as [|y l IH]; [reflexivity|]; cbn [filter remove].
  destruct (list_eq_dec ascii_dec x y) as [<-|N].
  - rewrite str_eqb_refl; exact IH.
  - replace (str_eqb y x) with false
      by (symmetry; apply str_eqb_neq; congruence).
    cbn [negb]; rewrite IH; reflexivity.
Qed.

(** X5: [delete_phone] always returns 1; afterwards the phones are the
    former list with every entry equal to [phone] taken out and the
    others in their order ([remove] of the standard library), so no entry
    equals [phone]; deleting a phone the record does not hold changes
    nothing, deleting twice is deleting once, and the name and the
    birthday are untouched. *)
Theorem X5_delete_phone_all_entries (phone : str) (r : Record_) :
  let r' := snd (delete_phone phone r) in
  fst (delete_phone phone r) = 1%Z
  /\ phones r' = remove (list_eq_dec ascii_dec) phone (phones r)
  /\ ~ In phone (phones r')
  /\ (forall p, In p (phones r') <-> In p (phones r) /\ p <> phone)
  /\ (~ In phone (phones r) -> r' = r)
  /\ delete_phone phone r' = delete_phone phone r
  /\ name r' = name r /\ birthday r' = birthday r.
Proof.
  cbn [delete_phone fst snd].
  assert (M : forall p, In p (filter (fun q => negb (str_eqb q phone)) (phones r))
                        <-> In p (phones r) /\ p <> phone).
  { intros p; rewrite filter_In, negb_true_iff, str_eqb_neq; tauto. }
  unfold set_phones; cbn [phones name birthday].
  split; [reflexivity|]; split; [apply filter_remove|].
  split; [intros H; apply M in H; tauto|].
  split; [exact M|]; split.
  - intros H; rewrite (filter_absent phone _ H); destruct r; reflexivity.
  - split; [|split; reflexivity].
    unfold delete_phone, set_phones; cbn [phones name birthday].
    rewrite (filter_absent phone (filter _ (phones r))); [reflexivity|].
    intros H; apply M in H; tauto.
Qed.

(** X6: the phones of a record stay validated: when every phone of a
    record passes [validate_phone], so does every phone after
    [add_phone], [delete_phone] and [edit_phone], and a new record has no
    phone. *)
Theorem X6_phones_stay_valid (r : Record_) (p q : str) :
  Forall (fun x => validate_phone x = true) (phones r) ->
  Forall (fun x => validate_phone x = true) (phones (snd (add_phone p r)))
  /\ Forall (fun x => validate_phone x = true) (phones (snd (delete_phone p r)))
  /\ Forall (fun x => validate_phone x = true) (phones (snd (edit_phone p q r)))
  /\ phones (Record_init p) = [].
Proof.
  intros H.
  assert (A : forall x r0,
             Forall (fun x => validate_phone x = true) (phones r0) ->
             Forall (fun x => validate_phone x = true)
                    (phones (snd (add_phone x r0)))).
  { intros x r0 H0; unfold add_phone, Phone.
    destruct (validate_phone x) eqn:V; [|exact H0].
    cbn [snd set_phones phones]; apply Forall_app; split; [exact H0|].
    constructor; [exact V | constructor]. }
  assert (D : forall x r0,
             Forall (fun x => validate_phone x = true) (phones r0) ->
             Forall (fun x => validate_phone x = true)
                    (phones (snd (delete_phone x r0)))).
  { intros x r0 H0; cbn [delete_phone snd set_phones phones].
    rewrite Forall_forall in H0 |- *; intros y Hy.
    apply filter_In in Hy as [Hy _]; exact (H0 y Hy). }
  split; [exact (A p r H)|]; split; [exact (D p r H)|]; split; [|reflexivity].
  unfold edit_phone; destruct (existsb _ _); [|exact H].
  cbn [snd]; apply D, A, H.
Qed.

Lemma X6_phones_stay_valid_on_new_record :
  Forall (fun x => validate_phone x = true)
         (phones (snd (add_phone (lit "1112223333") (Record_init (lit "Ann")))))
  /\ Forall (fun x => validate_phone x = true)
            (phones (snd (delete_phone (lit "1112223333")
                            (Record_init (lit "Ann")))))
  /\ Forall (fun x => validate_phone x = true)
            (phones (snd (edit_phone (lit "1112223333") (lit "abc")
                            (Record_init (lit "Ann")))))
  /\ phones (Record_init (lit "1112223333")) = [].
Proof.
  apply (X6_phones_stay_valid (Record_init (lit "Ann")) (lit "1112223333")
           (lit "abc")).
  constructor.
Defined.

(** ** More on the birthday of a record *)

(** X7: on a record that has a name [add_birthday] never raises; it
    returns 1 and stores the date exactly when the record had no birthday
    and [Birthday] accepts the string, and otherwise returns 0 and
    changes nothing. *)
Theorem X7_add_birthday_on_named (bd : str) (r : Record_) (n : str) :
  name r = Some n ->
  add_birthday bd r
  = Ok (match birthday r, Birthday bd with
        | None, Ok d => (1%Z, set_birthday r (Some d))
        | _, _ => (0%Z, r)
        end).
Proof.
  intros Hn; unfold add_birthday; rewrite Hn.
  destruct (birthday r); [reflexivity|].
  destruct (Birthday bd) as [d|e] eqn:B; [reflexivity|].
  rewrite (Birthday_raises_only_ValueError bd e B); reflexivity.
Qed.

Lemma X7_add_birthday_on_ann :
  add_birthday (lit "03.01.1990") (Record_init (lit "Ann"))
  = Ok (match birthday (Record_init (lit "Ann")), Birthday (lit "03.01.1990") with
        | None, Ok d => (1%Z, set_birthday (Record_init (lit "Ann")) (Some d))
        | _, _ => (0%Z, Record_init (lit "Ann"))
        end).
Proof.
  apply (X7_add_birthday_on_named (lit "03.01.1990") (Record_init (lit "Ann"))
           (lit "Ann")).
  reflexivity.
Defined.

(** X8: [edit_birthday] with a string [Birthday] accepts returns 1 and
    stores the date, whatever was there, as [add_birthday] does after
    [delete_birthday]; with any other string it returns 0 and the record,
    with the birthday it had, is unchanged. *)
Theorem X8_edit_birthday_outcomes (s : str) (r : Record_) :
  (forall b, Birthday s = Ok b ->
     edit_birthday s r = (1%Z, set_birthday r (Some b))
     /\ add_birthday s (delete_birthday r) = Ok (1%Z, set_birthday r (Some b)))
  /\ ((forall b, Birthday s <> Ok b) -> edit_birthday s r = (0%Z, r)).
Proof.
  split.
  - intros b Hb; split; [exact (edit_birthday_overwrites s r b Hb)|].
    unfold add_birthday, delete_birthday; cbn [birthday set_birthday].
    rewrite Hb; reflexivity.
  - intros H; unfold edit_birthday.
    destruct (Birthday s) as [b|e] eqn:B; [|reflexivity].
    exfalso; exact (H b eq_refl).
Qed.

(** ** [AddressBook]: [add_record], [find], [delete] *)

Lemma dict_del_get_other {V : Type} (k k' : str) (d : list (str * V)) :
  k <> k' -> dict_get k' (dict_del k d) = dict_get k' d.
Proof.
  intros Hne; induction d as [|[k0 v0] d IH]; simpl; [reflexivity|].
  destruct (str_eqb_spec k0 k) as [->|H0]; simpl.
  - apply str_eqb_neq in Hne; rewrite Hne; reflexivity.
  - rewrite IH; reflexivity.
Qed.

Lemma dict_del_keys {V : Type} (k k' : str) (d : list (str * V)) :
  In k' (map fst (dict_del k d)) -> In k' (map fst d).
Proof.
  induction d as [|[k0 v0] d IH]; simpl; [tauto|].
  destruct (str_eqb k0 k); simpl; tauto.
Qed.

Lemma dict_del_In {V : Type} (k k' : str) (v : V) (d : list (str * V)) :
  In (k', v) (dict_del k d) -> In (k', v) d.
Proof.
  induction d as [|[k0 v0] d IH]; simpl; [tauto|].
  destruct (str_eqb k0 k); simpl; tauto.
Qed.

Lemma dict_del_NoDup {V : Type} (k : str) (d : list (str * V)) :
  NoDup (map fst d) -> NoDup (map fst (dict_del k d)).
Proof.
  induction d as [|[k0 v0] d IH]; simpl; [tauto|].
  intros H; apply NoDup_cons_iff in H as [H0 H].
  destruct (str_eqb k0 k); simpl; [exact H|].
  constructor; [|exact (IH H)].
  intros Hin; apply H0; exact (dict_del_keys k k0 d Hin).
Qed.

Lemma dict_del_get_same {V : Type} (k : str) (d : list (str * V)) :
  NoDup (map fst d) -> dict_get k (dict_del k d) = None.
Proof.
  induction d as [|[k0 v0] d IH]; simpl; [reflexivity|].
  intros H; apply NoDup_cons_iff in H as [H0 H].
  destruct (str_eqb_spec k0 k) as [->|Hne]; simpl.
  - apply dict_get_None; exact H0.
  - apply str_eqb_neq in Hne; rewrite Hne; exact (IH H).
Qed.

(** X9: a record that has a name is found under that name after
    [add_record], whatever was stored there before, and the other names
    are found as before; a record without a name is not added. *)
Theorem X9_find_after_add_record (record : Record_) (data : AddressBook) :
  (forall n, name record = Some n ->
     find n (add_record record data) = Some record
     /\ forall m, m <> n -> find m (add_record record data) = find m data)
  /\ (name record = None -> add_record record data = data).
Proof.
  split.
  - intros n Hn; unfold add_record, find; rewrite Hn; split.
    + apply dict_get_set_same.
    + intros m Hm; apply dict_get_set_other; congruence.
  - exact (add_record_nameless record data).
Qed.

(** X10: in a directory with unique keys, [delete] of a name that is
    there returns 1, the name is not found afterwards and the other names
    are found as before; [delete] of a name that is not there returns 0
    and leaves the directory as it was. *)
Theorem X10_delete_then_find (nm : str) (data : AddressBook) :
  NoDup (map fst data) ->
  (find nm data = None -> delete nm data = (0%Z, data))
  /\ (find nm data <> None ->
      fst (delete nm data) = 1%Z
      /\ find nm (snd (delete nm data)) = None
      /\ NoDup (map fst (snd (delete nm data))))
  /\ (forall m, m <> nm -> find m (snd (delete nm data)) = find m data).
Proof.
  intros Hnd; unfold delete, find.
  destruct (dict_get nm data) as [r|] eqn:E; cbn [fst snd].
  - split; [discriminate|]; split.
    + intros _; split; [reflexivity|].
      split; [apply dict_del_get_same, Hnd | apply dict_del_NoDup, Hnd].
    + intros m Hm; apply dict_del_get_other; congruence.
  - split; [reflexivity|]; split; [intros H; contradiction|reflexivity].
Qed.

Lemma X10_delete_ann :
  (find (lit "Ann") (book_of "Ann" (mkdate 1990 1 3)) = None ->
   delete (lit "Ann") (book_of "Ann" (mkdate 1990 1 3))
   = (0%Z, book_of "Ann" (mkdate 1990 1 3)))
  /\ (find (lit "Ann") (book_of "Ann" (mkdate 1990 1 3)) <> None ->
      fst (delete (lit "Ann") (book_of "Ann" (mkdate 1990 1 3))) = 1%Z
      /\ find (lit "Ann")
           (snd (delete (lit "Ann") (book_of "Ann" (mkdate 1990 1 3)))) = None
      /\ NoDup (map fst
                  (snd (delete (lit "Ann") (book_of "Ann" (mkdate 1990 1 3))))))
  /\ (forall m, m <> lit "Ann" ->
        find m (snd (delete (lit "Ann") (book_of "Ann" (mkdate 1990 1 3))))
        = find m (book_of "Ann" (mkdate 1990 1 3))).
Proof.
  apply (X10_delete_then_find (lit "Ann") (book_of "Ann" (mkdate 1990 1 3))).
  repeat constructor; simpl; tauto.
Defined.

(** X11: the invariant of a directory (unique keys, every record under
    its own name, birthdays that [Birthday] returns) is kept by
    [add_record] of a record that satisfies it, by [delete], and by
    replacing a record with the result of [add_phone], [delete_phone],
    [edit_phone], [add_birthday], [delete_birthday] or [edit_birthday]. *)
Theorem X11_directory_invariant_kept
  (data : AddressBook) (k : str) (r : Record_) (p q : str) :
  book_ok data -> record_ok k r ->
  book_ok (add_record r data)
  /\ book_ok (snd (delete k data))
  /\ record_ok k (snd (add_phone p r))
  /\ record_ok k (snd (delete_phone p r))
  /\ record_ok k (snd (edit_phone p q r))
  /\ (forall z r', add_birthday p r = Ok (z, r') -> record_ok k r')
  /\ record_ok k (delete_birthday r)
  /\ record_ok k (snd (edit_birthday p r)).
Proof.
  intros Hb Hr; split; [exact (add_record_book_ok k r data Hb Hr)|]; split.
  { unfold delete; destruct (dict_get k data); cbn [snd]; [|exact Hb].
    destruct Hb as [Hnd Hok]; split; [apply dict_del_NoDup, Hnd|].
    intros k' r' Hin; exact (Hok k' r' (dict_del_In k k' r' data Hin)). }
  split; [exact (add_phone_record_ok k p r Hr)|].
  split; [exact Hr|].
  split; [exact (edit_phone_record_ok k p q r Hr)|].
  split; [intros z r' H; exact (add_birthday_record_ok k p r r' z Hr H)|].
  split; [|exact (edit_birthday_record_ok k p r Hr)].
  destruct Hr as [Hn _]; split; [exact Hn | discriminate].
Qed.

Lemma X11_invariant_kept_on_ann :
  let data := book_of "Ann" (mkdate 1990 1 3) in
  let k := lit "Bob" in
  let r := Record_init (lit "Bob") in
  let p := lit "1112223333" in
  let q := lit "4445556666" in
  book_ok (add_record r data)
  /\ book_ok (snd (delete k data))
  /\ record_ok k (snd (add_phone p r))
  /\ record_ok k (snd (delete_phone p r))
  /\ record_ok k (snd (edit_phone p q r))
  /\ (forall z r', add_birthday p r = Ok (z, r') -> record_ok k r')
  /\ record_ok k (delete_birthday r)
  /\ record_ok k (snd (edit_birthday p r)).
Proof.
  apply (X11_directory_invariant_kept (book_of "Ann" (mkdate 1990 1 3))
           (lit "Bob") (Record_init (lit "Bob"))
           (lit "1112223333") (lit "4445556666")).
  - apply book_of_ok; reflexivity.
  - apply Record_init_ok; discriminate.
Defined.

(** ** More on [birthdays] *)

(** X12: a date string that does not parse gives what today's date,
    written [DD.MM.YYYY], gives (today being a day of the years 1900 to
    2099). *)
Theorem X12_bad_date_is_today (now : date) (s : str) (data : AddressBook) (e : exn) :
  strptime s = Raise e ->
  birthday_ok now = true ->
  birthdays now (Some s) data = birthdays now (Some (strftime now)) data.
Proof.
  intros Hs Hnow; unfold birthdays.
  rewrite Hs, (strptime_raises_only_ValueError s e Hs).
  rewrite (strptime_strftime now Hnow); reflexivity.
Qed.

Lemma X12_bad_date_soon :
  birthdays today_ (Some (lit "soon")) bob_ann
  = birthdays today_ (Some (strftime today_)) bob_ann.
Proof.
  apply (X12_bad_date_is_today today_ (lit "soon") bob_ann ValueError);
    reflexivity.
Defined.

Lemma for_in_no_birthday (today : date) (users : list Record_) (acc : list entry) :
  (forall u, In u users -> birthday u = None) ->
  for_in (upcoming_step today) users acc = Ok acc.
Proof.
  revert acc; induction users as [|u users IH]; intros acc H; [reflexivity|].
  cbn [for_in]; unfold upcoming_step at 1.
  rewrite (H u (or_introl eq_refl)); cbn [bind].
  apply IH; intros v Hv; apply H; right; exact Hv.
Qed.

(** X13: with a date string given, a directory in which no record has a
    birthday, the empty directory among them, gives the empty list:
    nothing is raised, whatever the string and the records are. *)
Theorem X13_no_birthdays_no_entries (now : date) (s : str) (data : AddressBook) :
  (forall k r, In (k, r) data -> birthday r = None) ->
  birthdays now (Some s) data = Ok [].
Proof.
  intros H; unfold birthdays.
  pose proof (reference_date_today now s) as E.
  destruct (except_ValueError (d <- strptime s;; Ok (Some d)) (Ok None))
    as [check_date|e]; [|discriminate].
  cbn [bind]; rewrite for_in_no_birthday; [reflexivity|].
  intros u Hu; apply in_map_iff in Hu as ([k r] & <- & Hin); exact (H k r Hin).
Qed.

Lemma X13_no_birthdays_last_day :
  birthdays today_ (Some (lit "31.12.9999"))
    [(lit "Eve", mkRecord (Some (lit "Eve")) [lit "5556667777"] None);
     ([], mkRecord None [] None)]
  = Ok [].
Proof.
  apply (X13_no_birthdays_no_entries today_ (lit "31.12.9999")
           [(lit "Eve", mkRecord (Some (lit "Eve")) [lit "5556667777"] None);
            ([], mkRecord None [] None)]).
  intros k r [E|[E|[]]]; injection E as _ <-; reflexivity.
Defined.

(** *** The 29th of February *)

Lemma days_in_month_ge_28 (y m : Z) : (28 <= days_in_month y m)%Z.
Proof.
  unfold days_in_month.
  repeat match goal with
         | |- context [match ?x with _ => _ end] => destruct x
         end; lia.
Qed.

Ltac bool_to_Z :=
  repeat match goal with
    | H : andb _ _ = true |- _ => apply andb_true_iff in H; destruct H
    | H : (_ <=? _)%Z = true |- _ => apply Z.leb_le in H
    | H : (_ <? _)%Z = true |- _ => apply Z.ltb_lt in H
    | H : (_ <? _)%Z = false |- _ => apply Z.ltb_ge in H
    end.

Lemma valid_date_spec (d : date) :
  valid_date d = true <->
  (1 <= year d <= 9999 /\ 1 <= month d <= 12
   /\ 1 <= day d <= days_in_month (year d) (month d))%Z.
Proof.
  unfold valid_date; rewrite !andb_true_iff, !Z.leb_le; tauto.
Qed.

Lemma tomorrow_valid (d c : date) :
  valid_date d = true -> tomorrow d = Ok c -> valid_date c = true.
Proof.
  rewrite !valid_date_spec; intros Hd; unfold tomorrow.
  destruct (day d <? days_in_month (year d) (month d))%Z eqn:E1.
  - intros H; injection H as <-; cbn [year month day]; bool_to_Z; lia.
  - destruct (month d <? 12)%Z eqn:E2.
    + intros H; injection H as <-; cbn [year month day]; bool_to_Z.
      pose proof (days_in_month_ge_28 (year d) (month d + 1)); lia.
    + destruct (year d <? 9999)%Z eqn:E3; [|discriminate].
      intros H; injection H as <-; cbn [year month day]; bool_to_Z.
      pose proof (days_in_month_ge_28 (year d + 1) 1); lia.
Qed.

(** A day of the window lies in the year of its first day or in the
    first days of January of the next year. *)
Lemma window_years (ref c : date) (k : nat) :
  valid_date ref = true -> k <= 30 -> add_days ref k = Ok c ->
  valid_date c = true
  /\ (year c = year ref
      \/ (year c = year ref + 1 /\ month c = 1 /\ day c <= Z.of_nat k))%Z.
Proof.
  intros Href; revert c; induction k as [|k IH]; intros c Hk H.
  - injection H as <-; auto.
  - cbn [add_days] in H.
    destruct (add_days ref k) as [c0|e] eqn:E; [|discriminate].
    cbn [bind] in H; destruct (IH c0 ltac:(lia) eq_refl) as [V0 Y0].
    split; [exact (tomorrow_valid c0 c V0 H)|].
    apply valid_date_spec in V0; unfold tomorrow in H.
    destruct (day c0 <? days_in_month (year c0) (month c0))%Z eqn:E1.
    + injection H as <-; cbn [year month day]; lia.
    + destruct (month c0 <? 12)%Z eqn:E2.
      * injection H as <-; cbn [year month day]; bool_to_Z.
        destruct Y0 as [Y0|(Y0 & M0 & D0)]; [left; exact Y0|].
        exfalso; rewrite M0 in E1; change (days_in_month (year c0) 1) with 31%Z in E1.
        lia.
      * destruct (year c0 <? 9999)%Z eqn:E3; [|discriminate].
        injection H as <-; cbn [year month day]; bool_to_Z; lia.
Qed.

Lemma leap_day_in_window (ref b : date) :
  valid_date ref = true -> falls_in_window ref b ->
  month b = 2%Z -> day b = 29%Z -> is_leap (year ref) = true.
Proof.
  intros Href (delta & c & Hd & Hc & Hm & Hday) Mb Db.
  destruct (window_years ref c delta Href) as [V Y];
    [unfold search_period in Hd; lia | exact Hc |].
  apply valid_date_spec in V.
  assert (Yc : year c = year ref) by lia.
  rewrite Hm, Mb, Hday, Db, Yc in V; unfold days_in_month in V.
  destruct (is_leap (year ref)); [reflexivity | lia].
Qed.

Lemma strptime_valid (s : str) (d : date) :
  strptime s = Ok d -> valid_date d = true.
Proof.
  unfold strptime, make_date.
  repeat match goal with
         | |- context [match ?x with _ => _ end] => destruct x eqn:?
         end; try discriminate.
  intros H; injection H as <-; assumption.
Qed.

(** X14: when the date given is a day of a year that is not a leap year,
    no record born on a 29th of February is in the list: its birthday
    matches no day of the window. *)
Theorem X14_leap_day_skipped (now : date) (s : str) (ref : date) (data : AddressBook) :
  book_ok data ->
  strptime s = Ok ref ->
  is_leap (year ref) = false ->
  window_in_range ref ->
  exists l,
    birthdays now (Some s) data = Ok l
    /\ forall k r b, In (k, r) data -> birthday r = Some b ->
         month b = 2%Z -> day b = 29%Z -> ~ In k (map entry_name l).
Proof.
  intros Hok Hs Hleap Hw.
  assert (Href : reference_date now s = ref)
    by (unfold reference_date; rewrite Hs; reflexivity).
  destruct (birthdays_ok now s data Hok) as (l & Hl & Hp & _);
    [rewrite Href; exact Hw|].
  exists l; split; [exact Hl|].
  intros k r b Hin Hb Mb Db Hk.
  apply in_map_iff in Hk as (e & <- & He).
  apply (Permutation_in _ Hp), (in_upcoming _ _ _ Hok) in He
    as (r' & b' & Hin' & Hb' & _ & Hf).
  rewrite (NoDup_fst_unique data _ r r' (proj1 Hok) Hin Hin') in Hb.
  assert (b' = b) by congruence; subst b'.
  rewrite Href in Hf.
  pose proof (leap_day_in_window ref b (strptime_valid s ref Hs) Hf Mb Db).
  congruence.
Qed.

(** In 2023 the record born on 29.02.1992 is not reported in the last
    week of February; in 2024 it is. *)
Lemma X14_leap_day_2023 :
  exists l,
    birthdays today_ (Some (lit "25.02.2023")) (book_of "Ann" (mkdate 1992 2 29))
    = Ok l
    /\ forall k r b, In (k, r) (book_of "Ann" (mkdate 1992 2 29)) ->
         birthday r = Some b ->
         month b = 2%Z -> day b = 29%Z -> ~ In k (map entry_name l).
Proof.
  apply (X14_leap_day_skipped today_ (lit "25.02.2023") (mkdate 2023 2 25)
           (book_of "Ann" (mkdate 1992 2 29))).
  - apply book_of_ok; reflexivity.
  - reflexivity.
  - reflexivity.
  - exists (mkdate 2023 3 4); reflexivity.
Defined.

Example leap_day_2024 :
  birthdays today_ (Some (lit "25.02.2024")) (book_of "Ann" (mkdate 1992 2 29))
  = Ok [mkentry (lit "Ann") (lit "29.02.1992")].
Proof. vm_compute; reflexivity. Qed.

(** ** [birthdays] on a record without a name *)

Lemma for_in_app {A S : Type} (body : S -> A -> result S) (xs ys : list A) (s : S) :
  for_in body (xs ++ ys) s = (s' <- for_in body xs s ;; for_in body ys s').
Proof.
  revert s; induction xs as [|x xs IH]; intros s; [reflexivity|].
  cbn [app for_in]; destruct (body s x) as [s1|e]; cbn [bind]; [apply IH|reflexivity].
Qed.

Lemma upcoming_step_nameless (today b : date) (acc : list entry) (user : Record_) :
  window_in_range today -> name user = None -> birthday user = Some b ->
  falls_in_window today b ->
  upcoming_step today acc user = Raise AttributeError.
Proof.
  intros Hw Hn Hb Hf; unfold upcoming_step; rewrite Hb.
  rewrite (window_scan_period today b Hw).
  rewrite (proj2 (hits_falls_in_window today b) Hf); cbn [bind].
  rewrite Hn; reflexivity.
Qed.

(** X28: a record without a name whose birthday falls in the window
    makes [birthdays] raise [AttributeError]: the entry reads
    [user.name.value].  The records after it are not looked at, and the
    entries collected before it are lost. *)
Theorem X28_nameless_birthday_raises (now : date) (s : str) (ref b : date)
  (pre post : AddressBook) (k : str) (r : Record_) :
  strptime s = Ok ref ->
  window_in_range ref ->
  (forall k' r', In (k', r') pre -> name r' <> None) ->
  name r = None -> birthday r = Some b -> falls_in_window ref b ->
  birthdays now (Some s) (pre ++ (k, r) :: post) = Raise AttributeError.
Proof.
  intros Hs Hw Hpre Hn Hb Hf; unfold birthdays; rewrite Hs.
  cbn [bind except_ValueError]; rewrite map_app, for_in_app.
  rewrite (for_in_upcoming ref (map snd pre) [] Hw).
  - cbn [bind map snd for_in].
    rewrite (upcoming_step_nameless ref b _ r Hw Hn Hb Hf); reflexivity.
  - intros u Hu; apply in_map_iff in Hu as ([k' r'] & <- & Hin).
    exact (Hpre k' r' Hin).
Qed.

Lemma X28_nameless_birthday_in_january :
  birthdays today_ (Some (lit "01.01.2024"))
    (book_of "Ann" (mkdate 1990 1 3)
     ++ ([], mkRecord None [] (Some (mkdate 2000 1 5))) :: [])
  = Raise AttributeError.
Proof.
  apply (X28_nameless_birthday_raises today_ (lit "01.01.2024")
           (mkdate 2024 1 1) (mkdate 2000 1 5)).
  - reflexivity.
  - exists (mkdate 2024 1 8); reflexivity.
  - intros k' r' [E|[]]; injection E as _ <-; discriminate.
  - reflexivity.
  - reflexivity.
  - exists 4, (mkdate 2024 1 5); repeat split; [unfold search_period; lia].
Defined.

(** C3 (the code departs from it): a directory as [file_read] returns
    it for a file with a line that has an empty name field and a
    birthday.  With the reference date 01.01.2024 the record of Ann,
    born on 03.01.1990, is due, and alone it is reported; with the
    record without a name, born on 05.01.2000, after it, [birthdays]
    reads [user.name.value] on that record and raises [AttributeError]:
    no list is returned, and Ann is not reported. *)
Theorem C3_nameless_record_in_window_raises :
  let text := lit "Ann, 1112223333, 03.01.1990" ++ [LF]
              ++ lit ", , 05.01.2000" ++ [LF] in
  let book := book_of "Ann" (mkdate 1990 1 3)
              ++ [([], mkRecord None [] (Some (mkdate 2000 1 5)))] in
  file_read (Some text) = Ok book
  /\ birthdays today_ (Some (lit "01.01.2024")) book = Raise AttributeError
  /\ birthdays today_ (Some (lit "01.01.2024")) (book_of "Ann" (mkdate 1990 1 3))
     = Ok [mkentry (lit "Ann") (lit "03.01.1990")].
Proof. repeat split; vm_compute; reflexivity. Qed.

(** ** More on the persisted file *)

Lemma write_records_stops (pre post : list Record_) (r : Record_) :
  name r = None ->
  write_records (pre ++ r :: post) = write_records pre.
Proof.
  intros Hr; induction pre as [|x pre IH]; cbn [app write_records].
  - unfold record_line; rewrite Hr; reflexivity.
  - destruct (record_line x); [rewrite IH|]; reflexivity.
Qed.

(** X15: [file_write] stops at the first record without a name: the
    text it leaves is the one it writes for the records before that
    record, and the records after it are not written. *)
Theorem X15_file_write_stops_at_nameless
  (pre post : list (str * Record_)) (k : str) (r : Record_) :
  name r = None ->
  file_write (pre ++ (k, r) :: post) = file_write pre.
Proof.
  intros Hr; unfold file_write; rewrite map_app; cbn [map snd].
  exact (write_records_stops (map snd pre) (map snd post) r Hr).
Qed.

Lemma X15_file_write_loses_ann :
  file_write
    ([(lit "Bob", mkRecord (Some (lit "Bob")) [lit "1234567890"] None)]
     ++ ([], mkRecord None [] None)
     :: [(lit "Ann", mkRecord (Some (lit "Ann")) [lit "2223334444"] None)])
  = file_write [(lit "Bob", mkRecord (Some (lit "Bob")) [lit "1234567890"] None)].
Proof.
  apply (X15_file_write_stops_at_nameless
           [(lit "Bob", mkRecord (Some (lit "Bob")) [lit "1234567890"] None)]
           [(lit "Ann", mkRecord (Some (lit "Ann")) [lit "2223334444"] None)]
           [] (mkRecord None [] None)).
  reflexivity.
Defined.

(** An empty line in the file makes such a record: read and written
    back, the file has lost the contacts after that line. *)
Example empty_line_loses_contacts :
  let text := lit "Bob, 1234567890," ++ [LF] ++ [LF]
              ++ lit "Ann, 2223334444," ++ [LF] in
  exists contacts,
    file_read (Some text) = Ok contacts
    /\ file_write contacts = lit "Bob, 1234567890," ++ [LF].
Proof. eexists; split; vm_compute; reflexivity. Qed.

Lemma readlines_to_crlf (s : str) :
  ~ In CR s -> readlines (to_crlf s) = readlines s.
Proof.
  induction s as [|c s IH]; intros H; [reflexivity|].
  assert (Hc : Ascii.eqb c CR = false)
    by (apply Ascii.eqb_neq; intros ->; apply H; left; reflexivity).
  assert (Hs : ~ In CR s) by (intros Hin; apply H; right; exact Hin).
  cbn [to_crlf]; destruct (Ascii.eqb c LF) eqn:E.
  - cbn [readlines]; change (Ascii.eqb CR LF) with false.
    change (Ascii.eqb CR CR) with true; change (Ascii.eqb LF LF) with true.
    cbn iota; rewrite E, (IH Hs); reflexivity.
  - cbn [readlines]; rewrite E, Hc, (IH Hs); reflexivity.
Qed.

(** X16: a file whose lines end in carriage return and line feed is read
    as the same file with lines ending in line feed. *)
Theorem X16_file_read_crlf (text : str) :
  ~ In CR text -> file_read (Some (to_crlf text)) = file_read (Some text).
Proof.
  intros H; unfold file_read; rewrite (readlines_to_crlf text H); reflexivity.
Qed.

Lemma X16_bob_file_crlf :
  file_read (Some (to_crlf bob_file)) = file_read (Some bob_file).
Proof.
  apply (X16_file_read_crlf bob_file).
  vm_compute; intuition discriminate.
Defined.

(** ** What a file is read into *)

Lemma forallb_lstrip (P : ascii -> bool) (s : str) :
  forallb P s = true -> forallb P (lstrip s) = true.
Proof.
  induction s as [|c s IH]; intros H; [reflexivity|].
  cbn [lstrip]; destruct (is_space c); [|exact H].
  cbn [forallb] in H; apply andb_true_iff in H as [_ H]; exact (IH H).
Qed.

Lemma forallb_rstrip (P : ascii -> bool) (s : str) :
  forallb P s = true -> forallb P (rstrip s) = true.
Proof.
  induction s as [|c s IH]; intros H; [reflexivity|].
  cbn [forallb] in H; apply andb_true_iff in H as [Hc H].
  cbn [rstrip]; destruct (rstrip s) as [|d t] eqn:E.
  - destruct (is_space c); [reflexivity|cbn [forallb]; rewrite Hc; reflexivity].
  - cbn [forallb]; rewrite Hc; exact (IH H).
Qed.

Lemma forallb_strip (P : ascii -> bool) (s : str) :
  forallb P s = true -> forallb P (strip s) = true.
Proof. intros H; apply forallb_rstrip, forallb_lstrip, H. Qed.

Lemma lstrip_app_space (c : ascii) (s : str) :
  is_space c = true ->
  lstrip (s ++ [c]) = match lstrip s with [] => [] | t => t ++ [c] end.
Proof.
  intros Hc; induction s as [|d s IH]; cbn [app lstrip].
  - rewrite Hc; reflexivity.
  - destruct (is_space d); [exact IH|reflexivity].
Qed.

Lemma strip_app_space (c : ascii) (s : str) :
  is_space c = true -> strip (s ++ [c]) = strip s.
Proof.
  intros Hc; unfold strip; rewrite (lstrip_app_space c s Hc).
  destruct (lstrip s) as [|d t]; [reflexivity|].
  apply rstrip_app_drop; cbn [rstrip]; rewrite Hc; reflexivity.
Qed.

Lemma rstrip_idem (s : str) : rstrip (rstrip s) = rstrip s.
Proof.
  induction s as [|c s IH]; [reflexivity|].
  cbn [rstrip]; destruct (rstrip s) as [|d t] eqn:E.
  - destruct (is_space c) eqn:Hc; [reflexivity|].
    cbn [rstrip]; rewrite Hc; reflexivity.
  - change (rstrip (c :: d :: t))
      with (match rstrip (d :: t) with
            | [] => if is_space c then [] else [c]
            | u => c :: u
            end).
    rewrite IH; reflexivity.
Qed.

Lemma lstrip_head (s : str) :
  match lstrip s with [] => True | c :: _ => is_space c = false end.
Proof.
  induction s as [|c s IH]; [exact I|].
  cbn [lstrip]; destruct (is_space c) eqn:Hc; [exact IH|exact Hc].
Qed.

Lemma rstrip_head (c : ascii) (s : str) :
  is_space c = false -> exists t, rstrip (c :: s) = c :: t.
Proof.
  intros Hc; cbn [rstrip]; destruct (rstrip s) as [|d t].
  - rewrite Hc; exists []; reflexivity.
  - exists (d :: t); reflexivity.
Qed.

(** [strip] leaves a stripped string as it is. *)
Lemma strip_idem (s : str) : strip (strip s) = strip s.
Proof.
  unfold strip at 2 3; pose proof (lstrip_head s) as Hh.
  destruct (lstrip s) as [|c t]; [reflexivity|].
  destruct (rstrip_head c t Hh) as (u & E).
  unfold strip; rewrite E; cbn [lstrip]; rewrite Hh, <- E.
  apply rstrip_idem.
Qed.

Lemma readlines_shape_upto (n : nat) (s : str) :
  length s <= n -> Forall line_shape (readlines s).
Proof.
  revert s; induction n as [|n IH]; intros s Hn.
  - destruct s; [constructor|cbn [length] in Hn; lia].
  - destruct s as [|c s]; [constructor|].
    cbn [length] in Hn.
    assert (Hempty : line_shape [LF])
      by (exists []; split; [reflexivity|right; reflexivity]).
    cbn [readlines]; destruct (Ascii.eqb c LF) eqn:E1.
    { constructor; [exact Hempty|apply IH; lia]. }
    destruct (Ascii.eqb c CR) eqn:E2.
    { destruct s as [|d s]; [repeat constructor; exact Hempty|].
      cbn [length] in Hn.
      destruct (Ascii.eqb d LF); (constructor; [exact Hempty|]);
        apply IH; cbn [length]; lia. }
    assert (Hc : nobreak c = true) by (unfold nobreak; rewrite E1, E2; reflexivity).
    assert (Hs : Forall line_shape (readlines s)) by (apply IH; lia).
    destruct (readlines s) as [|l ls].
    + repeat constructor; exists [c]; split; [|left; reflexivity].
      cbn [forallb]; rewrite Hc; reflexivity.
    + inversion Hs as [|? ? (body & Hb & Hl) Hls]; subst.
      constructor; [|exact Hls].
      exists (c :: body); split; [cbn [forallb]; rewrite Hc; exact Hb|].
      destruct Hl as [->| ->]; [left|right]; reflexivity.
Qed.

Lemma readlines_shape (s : str) : Forall line_shape (readlines s).
Proof. exact (readlines_shape_upto (length s) s (le_n _)). Qed.

Lemma strip_line_nobreak (line : str) :
  line_shape line -> forallb nobreak (strip line) = true.
Proof.
  intros (body & Hb & [->| ->]).
  - apply forallb_strip, Hb.
  - rewrite (strip_app_space LF body eq_refl); apply forallb_strip, Hb.
Qed.

Lemma split_forallb (P : ascii -> bool) (sep : ascii) (s : str) :
  forallb P s = true -> Forall (fun f => forallb P f = true) (split sep s).
Proof.
  induction s as [|c s IH]; intros H; [repeat constructor|].
  cbn [forallb] in H; apply andb_true_iff in H as [Hc H]; specialize (IH H).
  cbn [split]; destruct (Ascii.eqb c sep).
  - constructor; [reflexivity|exact IH].
  - destruct (split sep s) as [|f fs].
    + repeat constructor; cbn [forallb]; rewrite Hc; reflexivity.
    + inversion IH; subst; constructor; [|assumption].
      cbn [forallb]; rewrite Hc; assumption.
Qed.

Lemma split_no_sep (sep : ascii) (s : str) :
  Forall (fun f => forallb (fun c => negb (Ascii.eqb c sep)) f = true)
         (split sep s).
Proof.
  induction s as [|c s IH]; [repeat constructor|].
  cbn [split]; destruct (Ascii.eqb c sep) eqn:E.
  - constructor; [reflexivity|exact IH].
  - destruct (split sep s) as [|f fs].
    + repeat constructor; cbn [forallb]; rewrite E; reflexivity.
    + inversion IH; subst; constructor; [|assumption].
      cbn [forallb]; rewrite E; assumption.
Qed.

Lemma forallb_and (P Q : ascii -> bool) (s : str) :
  forallb P s = true -> forallb Q s = true ->
  forallb (fun c => P c && Q c) s = true.
Proof.
  induction s as [|c s IH]; [reflexivity|]; cbn [forallb]; intros H1 H2.
  apply andb_true_iff in H1 as [-> H1], H2 as [-> H2]; exact (IH H1 H2).
Qed.

(** The parts of a line have no comma and no line break, and stripping
    them again changes nothing. *)
Lemma line_parts_clean (line : str) :
  line_shape line ->
  Forall (fun p => strip p = p /\ forallb name_char p = true) (line_parts line).
Proof.
  intros Hs; unfold line_parts; apply Forall_forall; intros p Hin.
  apply in_map_iff in Hin as (f & <- & Hin).
  split; [apply strip_idem|].
  pose proof (split_forallb nobreak comma _ (strip_line_nobreak line Hs)) as H1.
  pose proof (split_no_sep comma (strip line)) as H2.
  rewrite Forall_forall in H1, H2.
  apply forallb_strip; unfold name_char.
  exact (forallb_and nobreak _ f (H1 f Hin) (H2 f Hin)).
Qed.

Lemma line_name_clean (line : str) :
  line_shape line -> line_name line <> [] -> clean_name (line_name line).
Proof.
  intros Hs Hne; pose proof (line_parts_clean line Hs) as H.
  destruct (line_parts_cons line) as (rest & E); rewrite E in H.
  inversion H as [|? ? [H1 H2] _]; subst.
  split; [exact Hne|]; split; assumption.
Qed.

Lemma strip_length (s : str) : length (strip s) <= length s.
Proof.
  unfold strip; pose proof (rstrip_length (lstrip s)); pose proof (lstrip_length s).
  lia.
Qed.

(** A stripped string [Phone] accepts is ten digits: the line feed the
    pattern lets through does not survive [strip]. *)
Lemma stripped_phone_ten_digits (p : str) :
  validate_phone (strip p) = true -> ten_digits (strip p) = true.
Proof.
  intros H; apply validate_phone_spec in H as [H|(t & Ht & E)]; [exact H|].
  exfalso; pose proof (strip_idem p) as Hi; rewrite E in Hi at 1.
  rewrite (strip_app_space LF t eq_refl) in Hi.
  pose proof (strip_length t) as Hl; rewrite Hi, E, length_app in Hl.
  cbn [length] in Hl; lia.
Qed.

Lemma line_phones_ten_digits (line : str) :
  Forall (fun p => ten_digits p = true)
         (filter validate_phone (line_phones line)).
Proof.
  apply Forall_forall; intros p Hin.
  apply filter_In in Hin as [Hin Hv]; unfold line_phones in Hin.
  apply filter_In in Hin as [Hin _].
  apply in_map_iff in Hin as (q & <- & _).
  exact (stripped_phone_ten_digits q Hv).
Qed.

(** Every line has a name: the test, as a computation. *)
Lemma named_lines_check (lines : list str) :
  forallb (fun line => negb (is_empty (line_name line))) lines = true ->
  Forall (fun line => line_name line <> []) lines.
Proof.
  intros H; apply Forall_forall; intros line Hin.
  rewrite forallb_forall in H; specialize (H line Hin).
  destruct (line_name line); [discriminate H|discriminate].
Qed.

(** Every record [file_read] returns for a file in which every line has a
    name is one the file keeps. *)
Lemma file_read_stored (text : str) :
  Forall (fun line => line_name line <> []) (readlines text) ->
  exists contacts,
    file_read (Some text) = Ok contacts
    /\ NoDup (map fst contacts)
    /\ forall k r, In (k, r) contacts -> stored k r.
Proof.
  intros H.
  assert (Hr : Forall readable (readlines text))
    by (apply (Forall_impl _ (fun line Hn => or_introl Hn) H)).
  destruct (file_read_merged text Hr) as (contacts & E & Hnd & Hk & Hget).
  exists contacts; split; [exact E|]; split; [exact Hnd|].
  intros k r Hin.
  assert (Hkey : In k (map line_name (readlines text)))
    by (apply Hk; apply (in_map fst) in Hin; exact Hin).
  specialize (Hget k Hkey); cbv zeta in Hget.
  rewrite (In_dict_get k r contacts Hnd Hin) in Hget; injection Hget as ->.
  apply in_map_iff in Hkey as (line & <- & Hline).
  pose proof (readlines_shape text) as Hsh.
  rewrite Forall_forall in H, Hsh.
  pose proof (line_name_clean line (Hsh line Hline) (H line Hline)) as Hc.
  split; [apply Record_init_name; exact (H line Hline)|].
  split; [exact Hc|].
  split; [|cbn [birthday]; apply first_birthday_ok].
  cbn [phones]; apply Forall_forall; intros p Hp.
  apply filter_In in Hp as [Hp Hv].
  apply in_flat_map in Hp as (l & _ & Hp).
  pose proof (line_phones_ten_digits l) as Hl; rewrite Forall_forall in Hl.
  apply Hl, filter_In; split; assumption.
Qed.

(** What is stored is read back from the text written for it. *)
Lemma file_roundtrip_stored (data : AddressBook) :
  NoDup (map fst data) ->
  (forall k r, In (k, r) data -> stored k r) ->
  file_read (Some (file_write data)) = Ok data.
Proof.
  intros Hnd H; unfold file_read, file_write.
  rewrite (readlines_written data H), for_in_read.
  - rewrite (fold_read_written data [] H Hnd); reflexivity.
  - intros k r [].
  - apply Forall_forall; intros line Hin; left.
    apply in_map_iff in Hin as ([k r] & <- & Hin).
    destruct (merge_written_line k r (H k r Hin)) as [-> _].
    destruct (H k r Hin) as (_ & (Hne & _) & _); exact Hne.
Qed.

Lemma stored_loaded (k : str) (r : Record_) : stored k r -> loaded k r.
Proof.
  intros (Hn & Hc & Hp & Hb); split; [exact Hn|]; split; [exact Hc|].
  split; [|exact Hb]; apply (Forall_impl _ (P := fun p => ten_digits p = true));
    [|exact Hp].
  intros p H; rewrite ten_of_class_d_spec; exact H.
Qed.

(** X17: from a file in which every line has a name, [file_read] returns a
    dictionary with one record per key, each under its own name; the
    names are not empty, have no white space at either end, no comma and
    no line break; every phone is exactly ten characters of the class
    [\d] (the trailing line feed [Phone] lets through cannot come from a
    file, whose tokens are stripped); and every birthday is a calendar
    date of the years 1900 to 2099. *)
Theorem X17_file_read_gives_loaded_records (text : str) :
  Forall (fun line => line_name line <> []) (readlines text) ->
  exists contacts,
    file_read (Some text) = Ok contacts
    /\ NoDup (map fst contacts)
    /\ forall k r, In (k, r) contacts -> loaded k r.
Proof.
  intros H; destruct (file_read_stored text H) as (contacts & E & Hnd & Hs).
  exists contacts; split; [exact E|]; split; [exact Hnd|].
  intros k r Hin; exact (stored_loaded k r (Hs k r Hin)).
Qed.

Lemma X17_bob_file_gives_loaded_records :
  exists contacts,
    file_read (Some bob_file) = Ok contacts
    /\ NoDup (map fst contacts)
    /\ forall k r, In (k, r) contacts -> loaded k r.
Proof.
  apply (X17_file_read_gives_loaded_records bob_file).
  apply named_lines_check; vm_compute; reflexivity.
Defined.

(** X18: saving what was loaded and loading it again gives the same
    dictionary: for a file in which every line has a name, [file_read]
    of the text [file_write] writes for the loaded contacts returns these
    contacts. *)
Theorem X18_save_and_reload (text : str) (contacts : list (str * Record_)) :
  Forall (fun line => line_name line <> []) (readlines text) ->
  file_read (Some text) = Ok contacts ->
  file_read (Some (file_write contacts)) = Ok contacts.
Proof.
  intros H E; destruct (file_read_stored text H) as (c & E' & Hnd & Hs).
  rewrite E in E'; injection E' as <-.
  exact (file_roundtrip_stored contacts Hnd Hs).
Qed.

Lemma X18_bob_file_save_and_reload :
  file_read (Some (file_write
     [(lit "Bob", mkRecord (Some (lit "Bob"))
                    [lit "1234567890"; lit "1112223333"; lit "5555555555"]
                    (Some (mkdate 2000 2 2)));
      (lit "Ann", mkRecord (Some (lit "Ann")) [lit "2223334444"] None)]))
  = Ok [(lit "Bob", mkRecord (Some (lit "Bob"))
                    [lit "1234567890"; lit "1112223333"; lit "5555555555"]
                    (Some (mkdate 2000 2 2)));
        (lit "Ann", mkRecord (Some (lit "Ann")) [lit "2223334444"] None)].
Proof.
  apply (X18_save_and_reload bob_file).
  - apply named_lines_check; vm_compute; reflexivity.
  - vm_compute; reflexivity.
Defined.

(** ** [parse_input] *)

Lemma split_ws_space (c : ascii) (s : str) :
  is_space c = true -> split_ws (c :: s) = split_ws s.
Proof. intros H; cbn [split_ws]; rewrite H; reflexivity. Qed.

Lemma split_ws_blank (s : str) : split_ws s = [] <-> blank s = true.
Proof.
  unfold blank; induction s as [|c s IH]; [split; reflexivity|].
  cbn [forallb]; destruct (is_space c) eqn:Hc.
  - rewrite (split_ws_space c s Hc); exact IH.
  - cbn [split_ws andb]; rewrite Hc; split; [|discriminate].
    destruct s as [|d s]; [discriminate|].
    destruct (is_space d); [discriminate|].
    destruct (split_ws (d :: s)); discriminate.
Qed.

Lemma split_ws_tokens (s : str) :
  Forall (fun w => is_token w = true) (split_ws s).
Proof.
  induction s as [|c s IH]; [constructor|].
  destruct (is_space c) eqn:Hc; [rewrite (split_ws_space c s Hc); exact IH|].
  assert (H1 : is_token [c] = true)
    by (unfold is_token; cbn [is_empty negb forallb andb]; rewrite Hc; reflexivity).
  cbn [split_ws]; rewrite Hc; destruct s as [|d s]; [repeat constructor; exact H1|].
  destruct (is_space d) eqn:Hd; [constructor; [exact H1|exact IH]|].
  destruct (split_ws (d :: s)) as [|w ws]; [repeat constructor; exact H1|].
  inversion IH as [|? ? Hw Hws]; subst; constructor; [|exact Hws].
  unfold is_token in *; cbn [is_empty negb forallb andb]; rewrite Hc.
  apply andb_true_iff in Hw as [_ Hw]; exact Hw.
Qed.

Lemma is_token_spec (w : str) :
  is_token w = true
  <-> w <> [] /\ forallb (fun c => negb (is_space c)) w = true.
Proof.
  unfold is_token; rewrite andb_true_iff; destruct w; cbn [is_empty negb];
    split; intros [H1 H2]; split; try assumption; try reflexivity;
    try discriminate; exfalso; apply H1; reflexivity.
Qed.

(** A token is the first field of what follows it after white space. *)
Lemma split_ws_token_app (w : str) (c : ascii) (s : str) :
  is_token w = true -> is_space c = true ->
  split_ws (w ++ c :: s) = w :: split_ws s.
Proof.
  intros Hw Hc; apply is_token_spec in Hw as [Hne Hw].
  induction w as [|a w IH]; [exfalso; apply Hne; reflexivity|].
  cbn [forallb] in Hw; apply andb_true_iff in Hw as [Ha Hw].
  apply negb_true_iff in Ha.
  destruct w as [|b w].
  - cbn [app split_ws]; rewrite Ha, Hc; reflexivity.
  - assert (Hb : is_space b = false)
      by (cbn [forallb] in Hw; apply andb_true_iff in Hw as [Hb _];
          apply negb_true_iff in Hb; exact Hb).
    change ((a :: b :: w) ++ c :: s) with (a :: (b :: w) ++ c :: s).
    change (split_ws (a :: (b :: w) ++ c :: s))
      with (if is_space a then split_ws ((b :: w) ++ c :: s)
            else if is_space b then [a] :: split_ws ((b :: w) ++ c :: s)
                 else match split_ws ((b :: w) ++ c :: s) with
                      | x :: xs => (a :: x) :: xs
                      | [] => [[a]]
                      end).
    rewrite Ha, Hb, (IH ltac:(discriminate) Hw); reflexivity.
Qed.

Lemma split_ws_token (w : str) : is_token w = true -> split_ws w = [w].
Proof.
  intros Hw; apply is_token_spec in Hw as [Hne Hw].
  induction w as [|a w IH]; [exfalso; apply Hne; reflexivity|].
  cbn [forallb] in Hw; apply andb_true_iff in Hw as [Ha Hw].
  apply negb_true_iff in Ha.
  destruct w as [|b w]; [cbn [split_ws]; rewrite Ha; reflexivity|].
  assert (Hb : is_space b = false)
    by (cbn [forallb] in Hw; apply andb_true_iff in Hw as [Hb _];
        apply negb_true_iff in Hb; exact Hb).
  change (split_ws (a :: b :: w))
    with (if is_space a then split_ws (b :: w)
          else if is_space b then [a] :: split_ws (b :: w)
               else match split_ws (b :: w) with
                    | x :: xs => (a :: x) :: xs
                    | [] => [[a]]
                    end).
  rewrite Ha, Hb, (IH ltac:(discriminate) Hw); reflexivity.
Qed.

Lemma split_ws_lead (pre s : str) :
  blank pre = true -> split_ws (pre ++ s) = split_ws s.
Proof.
  unfold blank; induction pre as [|c pre IH]; intros H; [reflexivity|].
  cbn [forallb] in H; apply andb_true_iff in H as [Hc H].
  cbn [app]; rewrite (split_ws_space c _ Hc); exact (IH H).
Qed.

Lemma split_ws_join (ws : list str) (post : str) :
  Forall (fun w => is_token w = true) ws -> blank post = true ->
  split_ws (join (lit " ") ws ++ post) = ws.
Proof.
  intros H Hpost; induction H as [|w ws Hw Hws IH].
  - apply split_ws_blank; exact Hpost.
  - destruct ws as [|v ws].
    + cbn [join]; destruct post as [|c post].
      * rewrite app_nil_r; exact (split_ws_token w Hw).
      * unfold blank in Hpost; cbn [forallb] in Hpost.
        apply andb_true_iff in Hpost as [Hc Hp].
        rewrite (split_ws_token_app w c post Hw Hc).
        f_equal; apply split_ws_blank; exact Hp.
    + change (join (lit " ") (w :: v :: ws))
        with (w ++ " "%char :: join (lit " ") (v :: ws)).
      rewrite <- app_assoc; cbn [app].
      rewrite (split_ws_token_app w " "%char _ Hw eq_refl), IH; reflexivity.
Qed.

Lemma lower_char_idem (c : ascii) : lower_char (lower_char c) = lower_char c.
Proof. destruct c as [[] [] [] [] [] [] [] []]; reflexivity. Qed.

Lemma lower_char_space (c : ascii) : is_space (lower_char c) = is_space c.
Proof. destruct c as [[] [] [] [] [] [] [] []]; reflexivity. Qed.

Lemma lower_idem (s : str) : lower (lower s) = lower s.
Proof.
  unfold lower; rewrite map_map; apply map_ext; exact lower_char_idem.
Qed.

Lemma lower_token (w : str) : is_token w = true -> is_token (lower w) = true.
Proof.
  unfold is_token, lower; intros H; apply andb_true_iff in H as [H1 H2].
  apply andb_true_iff; split; [destruct w; [discriminate|reflexivity]|].
  clear H1; induction w as [|c w IH]; [reflexivity|].
  cbn [map forallb] in *; apply andb_true_iff in H2 as [Hc H2].
  rewrite lower_char_space, Hc; exact (IH H2).
Qed.

Lemma strip_token (w : str) : is_token w = true -> strip w = w.
Proof. intros H; apply is_token_spec in H as [_ H]; exact (strip_nospace w H). Qed.

(** X19: [parse_input] raises exactly on an input that is empty or white
    space only, and then [ValueError]; on any other input the command
    is one word without white space in lower case, and every argument is
    a word that is not empty and has no white space. *)
Theorem X19_parse_input_tokens (user_input : str) :
  (parse_input user_input = Raise ValueError <-> blank user_input = true)
  /\ (forall e, parse_input user_input = Raise e -> e = ValueError)
  /\ (forall cmd args,
        parse_input user_input = Ok (cmd, args) ->
        is_token cmd = true /\ lower cmd = cmd
        /\ Forall (fun a => is_token a = true) args).
Proof.
  unfold parse_input; pose proof (split_ws_tokens user_input) as Ht.
  pose proof (split_ws_blank user_input) as Hb.
  destruct (split_ws user_input) as [|w ws].
  - split; [split; intros _; [apply Hb|]; reflexivity|].
    split; [intros e E; injection E as <-; reflexivity|discriminate].
  - split; [split; [discriminate|intros H; apply Hb in H; discriminate]|].
    split; [discriminate|].
    intros cmd args E; injection E as <- <-.
    inversion Ht as [|? ? Hw Hws]; subst.
    rewrite (strip_token w Hw).
    split; [exact (lower_token w Hw)|]; split; [apply lower_idem|exact Hws].
Qed.

(** X20: white space before and after the command line does not count,
    and the case of the command does not either: a command line made of
    words separated by one blank, with white space around it, is parsed
    into the first word in lower case and the other words, unchanged and
    in order. *)
Theorem X20_parse_input_of_words (pre post cmd : str) (args : list str) :
  blank pre = true -> blank post = true ->
  Forall (fun w => is_token w = true) (cmd :: args) ->
  parse_input (pre ++ join (lit " ") (cmd :: args) ++ post)
  = Ok (lower cmd, args).
Proof.
  intros Hpre Hpost H; unfold parse_input.
  rewrite (split_ws_lead pre _ Hpre), (split_ws_join (cmd :: args) post H Hpost).
  inversion H; subst; rewrite (strip_token cmd); [reflexivity|assumption].
Qed.

Lemma X20_parse_add_command :
  parse_input (lit "  " ++ join (lit " ")
                 [lit "ADD"; lit "Bob"; lit "1234567890"; lit "01.02.2000"]
               ++ [LF])
  = Ok (lit "add", [lit "Bob"; lit "1234567890"; lit "01.02.2000"]).
Proof.
  apply (X20_parse_input_of_words (lit "  ") [LF] (lit "ADD")
           [lit "Bob"; lit "1234567890"; lit "01.02.2000"]).
  - reflexivity.
  - reflexivity.
  - repeat constructor.
Defined.

Lemma token_phone_ten_digits (p : str) :
  is_token p = true -> validate_phone p = ten_digits p.
Proof.
  intros H; rewrite <- (strip_token p H).
  destruct (validate_phone (strip p)) eqn:E.
  - symmetry; exact (stripped_phone_ten_digits p E).
  - destruct (ten_digits (strip p)) eqn:E'; [|reflexivity].
    rewrite <- E; apply validate_phone_spec; left; exact E'.
Qed.

(** X21: on an argument of the command line, [Phone] succeeds exactly
    when the whole argument is ten characters of the class [\d], and
    raises [ValueError] otherwise; [Name] accepts every argument.  The
    line feed the pattern of [Phone] lets through cannot be typed as
    part of an argument. *)
Theorem X21_phone_of_an_argument (user_input cmd : str) (args : list str) (a : str) :
  parse_input user_input = Ok (cmd, args) -> In a args ->
  Name a = Ok a
  /\ (Phone a = Ok a <-> ten_of_class_d a = true)
  /\ (ten_of_class_d a = false -> Phone a = Raise ValueError).
Proof.
  intros E Hin.
  assert (Ha : is_token a = true).
  { unfold parse_input in E; pose proof (split_ws_tokens user_input) as Ht.
    destruct (split_ws user_input) as [|w ws]; [discriminate|].
    injection E as _ <-; inversion Ht as [|? ? _ Hws]; subst.
    rewrite Forall_forall in Hws; exact (Hws a Hin). }
  pose proof (token_phone_ten_digits a Ha) as Hp.
  split; [destruct a; [discriminate|reflexivity]|].
  unfold Phone; rewrite Hp, ten_of_class_d_spec; destruct (ten_digits a).
  - split; [split; intros _; reflexivity|discriminate].
  - split; [split; discriminate|intros _; reflexivity].
Qed.

Lemma X21_phone_of_an_argument_abc :
  Name (lit "abc") = Ok (lit "abc")
  /\ (Phone (lit "abc") = Ok (lit "abc") <-> ten_of_class_d (lit "abc") = true)
  /\ (ten_of_class_d (lit "abc") = false -> Phone (lit "abc") = Raise ValueError).
Proof.
  apply (X21_phone_of_an_argument (lit "add-phone Bob abc") (lit "add-phone")
           [lit "Bob"; lit "abc"] (lit "abc")).
  - reflexivity.
  - right; left; reflexivity.
Defined.

(** ** The commands of [main] *)

Lemma dict_set_same {V : Type} (k : str) (v : V) (d : list (str * V)) :
  dict_get k d = Some v -> dict_set k v d = d.
Proof.
  induction d as [|[k' v'] d IH]; cbn [dict_get dict_set]; [discriminate|].
  destruct (str_eqb k' k); intros H.
  - injection H as ->; reflexivity.
  - rewrite (IH H); reflexivity.
Qed.

Lemma find_record_ok (nm : str) (r : Record_) (book : AddressBook) :
  book_ok book -> find nm book = Some r -> record_ok nm r.
Proof. intros [_ H] E; exact (H nm r (dict_get_In nm r book E)). Qed.

Lemma dict_set_book_ok (k : str) (r : Record_) (book : AddressBook) :
  book_ok book -> record_ok k r -> book_ok (dict_set k r book).
Proof.
  intros [Hnd Hok] Hr; split; [apply dict_set_NoDup, Hnd|].
  intros k' r' Hin; apply dict_set_In in Hin as [[-> ->]|Hin];
    [exact Hr|exact (Hok k' r' Hin)].
Qed.

Lemma dict_del_book_ok (k : str) (book : AddressBook) :
  book_ok book -> book_ok (dict_del k book).
Proof.
  intros [Hnd Hok]; split; [apply dict_del_NoDup, Hnd|].
  intros k' r' Hin; apply Hok; revert Hin; clear.
  induction book as [|[k0 r0] book IH]; cbn [dict_del]; [intros []|].
  destruct (str_eqb k0 k); [intros H; right; exact H|].
  intros [H|H]; [left; exact H|right; exact (IH H)].
Qed.

(** The record [add] makes of a name, a phone and a birthday. *)
Lemma cmd_add_new (nm p bd : str) (rest : list str) (book : AddressBook) :
  find nm book = None ->
  cmd_add (nm :: p :: bd :: rest) book
  = let record :=
      mkRecord (name (Record_init nm))
               (if validate_phone p then [p] else [])
               (match Birthday bd with Ok b => Some b | Raise _ => None end) in
    Ok (add_record record book, Some (file_write (add_record record book))).
Proof.
  intros Hf; unfold cmd_add; rewrite Hf; cbn [nth_error].
  unfold add_phone, Phone; destruct (validate_phone p);
    cbn [bind except_ValueError snd set_phones phones app Record_init name birthday];
    unfold add_birthday; cbn [birthday];
    destruct (Birthday bd) as [b|e] eqn:B;
    cbn [bind except_ValueError snd set_birthday name phones];
    try reflexivity;
    rewrite (Birthday_raises_only_ValueError bd e B); reflexivity.
Qed.

(** X22: [add] with a name that is not in the directory and fewer than
    three arguments raises [TypeError], which nothing catches: the
    missing phone or birthday is [None], and [re.match] does not take
    it. *)
Theorem X22_add_needs_three_arguments (nm : str) (rest : list str)
  (book : AddressBook) :
  find nm book = None -> length rest < 2 ->
  cmd_add (nm :: rest) book = Raise TypeError.
Proof.
  intros Hf Hl; unfold cmd_add; rewrite Hf.
  destruct rest as [|p [|bd rest]]; [reflexivity| |cbn [length] in Hl; lia].
  cbn [nth_error]; unfold add_phone, Phone.
  destruct (validate_phone p); reflexivity.
Qed.

Lemma X22_add_dan_without_birthday :
  cmd_add [lit "Dan"; lit "1234567890"] bob_ann = Raise TypeError.
Proof.
  apply (X22_add_needs_three_arguments (lit "Dan") [lit "1234567890"] bob_ann).
  - reflexivity.
  - cbn [length]; lia.
Defined.

(** X23: [add] with three arguments or more and a name that is not in
    the directory never raises: it stores a record with the phone when
    [Phone] accepts it and with the birthday when [Birthday] accepts it,
    each left out otherwise, and writes the file.  With a name that is in
    the directory it changes nothing and writes nothing. *)
Theorem X23_add_with_three_arguments (nm p bd : str) (rest : list str)
  (book : AddressBook) :
  (find nm book = None ->
   cmd_add (nm :: p :: bd :: rest) book
   = let record :=
       mkRecord (name (Record_init nm))
                (if validate_phone p then [p] else [])
                (match Birthday bd with Ok b => Some b | Raise _ => None end) in
     Ok (add_record record book, Some (file_write (add_record record book))))
  /\ (forall r, find nm book = Some r ->
        cmd_add (nm :: p :: bd :: rest) book = Ok (book, None)).
Proof.
  split; [exact (cmd_add_new nm p bd rest book)|].
  intros r Hf; unfold cmd_add; rewrite Hf; reflexivity.
Qed.

Example add_dan :
  cmd_add [lit "Dan"; lit "12345"; lit "29.02.2000"] []
  = Ok ([(lit "Dan", mkRecord (Some (lit "Dan")) [] (Some (mkdate 2000 2 29)))],
        Some (lit "Dan, , 29.02.2000" ++ [LF])).
Proof. vm_compute; reflexivity. Qed.

Lemma cmd_add_follows (args : list str) (book book' : AddressBook)
  (saved : option str) :
  cmd_add args book = Ok (book', saved) -> file_follows book (book', saved).
Proof.
  unfold cmd_add, file_follows; destruct args as [|nm rest].
  { intros H; injection H as <- <-; right; split; reflexivity. }
  destruct (find nm book).
  { intros H; injection H as <- <-; right; split; reflexivity. }
  destruct (except_ValueError _ _) as [r1|]; cbn [bind]; [|discriminate].
  destruct (except_ValueError _ _) as [r2|]; cbn [bind]; [|discriminate].
  intros H; injection H as <- <-; left; reflexivity.
Qed.

Ltac unchanged := right; split; reflexivity.

Lemma cmd_add_phone_follows (args : list str) (book : AddressBook) :
  file_follows book (cmd_add_phone args book).
Proof.
  unfold cmd_add_phone, file_follows; destruct args as [|nm rest]; [unchanged|].
  destruct (find nm book) as [record|] eqn:Hf; [|unchanged].
  destruct (nth_error _ 1) as [phone|]; [|unchanged].
  destruct (is_empty phone); [unchanged|].
  unfold add_phone; destruct (Phone phone); cbn [truthy Z.eqb negb];
    [left; reflexivity|].
  right; split; [reflexivity|exact (dict_set_same nm record book Hf)].
Qed.

Lemma add_birthday_zero (bd : str) (r r' : Record_) (z : Z) :
  add_birthday bd r = Ok (z, r') -> truthy z = false -> r' = r.
Proof.
  unfold add_birthday; destruct (birthday r).
  - destruct (name r); [|discriminate].
    intros H _; injection H as _ <-; reflexivity.
  - destruct (Birthday bd) as [b|e] eqn:B; cbn [bind except_ValueError].
    + intros H; injection H as <- _; discriminate.
    + rewrite (Birthday_raises_only_ValueError bd e B).
      intros H _; injection H as _ <-; reflexivity.
Qed.

Lemma cmd_add_birthday_follows (args : list str) (book : AddressBook) :
  file_follows book (cmd_add_birthday args book).
Proof.
  unfold cmd_add_birthday, file_follows; destruct args as [|nm rest]; [unchanged|].
  destruct (find nm book) as [record|] eqn:Hf; [|unchanged].
  destruct (nth_error _ 1) as [bd|]; [|unchanged].
  destruct (is_empty bd); [unchanged|].
  destruct (add_birthday bd record) as [[z r']|e] eqn:A; [|unchanged].
  destruct (truthy z) eqn:T; [left; reflexivity|].
  rewrite (add_birthday_zero bd record r' z A T).
  right; split; [reflexivity|exact (dict_set_same nm record book Hf)].
Qed.

Lemma cmd_delete_follows (args : list str) (book : AddressBook) :
  file_follows book (cmd_delete args book).
Proof.
  unfold cmd_delete, file_follows, delete.
  destruct args as [|nm [|x rest]]; [unchanged| |unchanged].
  destruct (dict_get nm book); cbn [truthy Z.eqb negb];
    [left; reflexivity|unchanged].
Qed.

Lemma cmd_delete_phone_follows (args : list str) (book : AddressBook) :
  file_follows book (cmd_delete_phone args book).
Proof.
  unfold cmd_delete_phone, file_follows.
  destruct args as [|nm [|phone [|x rest]]]; try unchanged.
  destruct (find nm book); [left; reflexivity|unchanged].
Qed.

Lemma cmd_delete_birthday_follows (args : list str) (book : AddressBook) :
  file_follows book (cmd_delete_birthday args book).
Proof.
  unfold cmd_delete_birthday, file_follows.
  destruct args as [|nm [|x rest]]; try unchanged.
  destruct (find nm book); [left; reflexivity|unchanged].
Qed.

Lemma cmd_edit_birthday_follows (args : list str) (book : AddressBook) :
  file_follows book (cmd_edit_birthday args book).
Proof.
  unfold cmd_edit_birthday, file_follows.
  destruct args as [|nm [|bd [|x rest]]]; try unchanged.
  destruct (find nm book); [left; reflexivity|unchanged].
Qed.

(** X24: no command changes the directory without writing the file:
    after [add], [add-phone], [add-birthday], [delete], [delete-phone],
    [delete-birthday] and [edit-birthday], whatever the arguments,
    either the file holds what [file_write] writes for the directory the
    command left, or the directory is as it was. *)
Theorem X24_file_follows_directory (args : list str) (book : AddressBook) :
  (forall book' saved,
     cmd_add args book = Ok (book', saved) -> file_follows book (book', saved))
  /\ file_follows book (cmd_add_phone args book)
  /\ file_follows book (cmd_add_birthday args book)
  /\ file_follows book (cmd_delete args book)
  /\ file_follows book (cmd_delete_phone args book)
  /\ file_follows book (cmd_delete_birthday args book)
  /\ file_follows book (cmd_edit_birthday args book).
Proof.
  split; [exact (cmd_add_follows args book)|].
  split; [apply cmd_add_phone_follows|].
  split; [apply cmd_add_birthday_follows|].
  split; [apply cmd_delete_follows|].
  split; [apply cmd_delete_phone_follows|].
  split; [apply cmd_delete_birthday_follows|apply cmd_edit_birthday_follows].
Qed.

(** *** The invariant [birthdays] relies on *)

Lemma add_record_birthday_ok (r : Record_) (book : AddressBook) :
  book_ok book ->
  (forall b, birthday r = Some b -> birthday_ok b = true) ->
  book_ok (add_record r book).
Proof.
  intros Hb Hr; destruct (name r) as [n|] eqn:E.
  - apply (add_record_book_ok n r book Hb); split; assumption.
  - rewrite (add_record_nameless r book E); exact Hb.
Qed.

Lemma cmd_add_book_ok (args : list str) (book book' : AddressBook)
  (saved : option str) :
  book_ok book -> cmd_add args book = Ok (book', saved) -> book_ok book'.
Proof.
  intros Hb; unfold cmd_add; destruct args as [|nm rest].
  { intros H; injection H as <- _; exact Hb. }
  destruct (find nm book).
  { intros H; injection H as <- _; exact Hb. }
  set (r0 := Record_init nm).
  assert (H0 : birthday r0 = None) by reflexivity.
  destruct (except_ValueError _ _) as [r1|] eqn:E1; cbn [bind]; [|discriminate].
  assert (H1 : birthday r1 = None).
  { destruct (nth_error (nm :: rest) 1) as [p|]; [|discriminate].
    unfold add_phone in E1; destruct (Phone p) as [v|e];
      cbn [bind except_ValueError snd] in E1.
    - injection E1 as <-; exact H0.
    - destruct e; try discriminate; injection E1 as <-; exact H0. }
  destruct (except_ValueError _ (Ok r1)) as [r2|] eqn:E2; cbn [bind];
    [|discriminate].
  cbv zeta; intros H; injection H as <- _.
  apply (add_record_birthday_ok r2 book Hb).
  destruct (nth_error (nm :: rest) 2) as [bd|]; [|discriminate].
  unfold add_birthday in E2; rewrite H1 in E2.
  destruct (Birthday bd) as [b|e] eqn:B; cbn [bind except_ValueError snd] in E2.
  - injection E2 as <-; cbn [set_birthday birthday]; intros b' Hb'.
    injection Hb' as <-; exact (proj1 (Birthday_inv bd b B)).
  - rewrite (Birthday_raises_only_ValueError bd e B) in E2.
    injection E2 as <-; rewrite H1; discriminate.
Qed.

Lemma cmd_add_phone_book_ok (args : list str) (book : AddressBook) :
  book_ok book -> book_ok (fst (cmd_add_phone args book)).
Proof.
  intros Hb; unfold cmd_add_phone; destruct args as [|nm rest]; [exact Hb|].
  destruct (find nm book) as [record|] eqn:Hf; [|exact Hb].
  destruct (nth_error _ 1) as [phone|]; [|exact Hb].
  destruct (is_empty phone); [exact Hb|].
  pose proof (add_phone_record_ok nm phone record (find_record_ok nm record book Hb Hf))
    as Hr.
  destruct (add_phone phone record) as [ok r']; cbn [snd] in Hr.
  pose proof (dict_set_book_ok nm r' book Hb Hr) as Hb'.
  destruct (truthy ok); cbn [fst]; [|exact Hb'].
  exact (add_record_book_ok nm r' _ Hb' Hr).
Qed.

Lemma cmd_add_birthday_book_ok (args : list str) (book : AddressBook) :
  book_ok book -> book_ok (fst (cmd_add_birthday args book)).
Proof.
  intros Hb; unfold cmd_add_birthday; destruct args as [|nm rest]; [exact Hb|].
  destruct (find nm book) as [record|] eqn:Hf; [|exact Hb].
  destruct (nth_error _ 1) as [bd|]; [|exact Hb].
  destruct (is_empty bd); [exact Hb|].
  destruct (add_birthday bd record) as [[ok r']|e] eqn:A; [|exact Hb].
  pose proof (add_birthday_record_ok nm bd record r' ok
                (find_record_ok nm record book Hb Hf) A) as Hr.
  pose proof (dict_set_book_ok nm r' book Hb Hr) as Hb'.
  destruct (truthy ok); cbn [fst]; [|exact Hb'].
  exact (add_record_book_ok nm r' _ Hb' Hr).
Qed.

Lemma cmd_delete_book_ok (args : list str) (book : AddressBook) :
  book_ok book -> book_ok (fst (cmd_delete args book)).
Proof.
  intros Hb; unfold cmd_delete, delete.
  destruct args as [|nm [|x rest]]; try exact Hb.
  destruct (dict_get nm book); cbn [truthy Z.eqb negb fst]; [|exact Hb].
  exact (dict_del_book_ok nm book Hb).
Qed.

Lemma delete_phone_record_ok (k phone : str) (r : Record_) :
  record_ok k r -> record_ok k (snd (delete_phone phone r)).
Proof. intros H; exact H. Qed.

Lemma delete_birthday_record_ok (k : str) (r : Record_) :
  record_ok k r -> record_ok k (delete_birthday r).
Proof. intros [Hn _]; split; [exact Hn|discriminate]. Qed.

Lemma cmd_delete_phone_book_ok (args : list str) (book : AddressBook) :
  book_ok book -> book_ok (fst (cmd_delete_phone args book)).
Proof.
  intros Hb; unfold cmd_delete_phone.
  destruct args as [|nm [|phone [|x rest]]]; try exact Hb.
  destruct (find nm book) as [record|] eqn:Hf; [|exact Hb].
  cbn [delete_phone truthy Z.eqb negb fst]; apply (dict_set_book_ok nm _ book Hb).
  exact (delete_phone_record_ok nm phone record (find_record_ok nm record book Hb Hf)).
Qed.

Lemma cmd_delete_birthday_book_ok (args : list str) (book : AddressBook) :
  book_ok book -> book_ok (fst (cmd_delete_birthday args book)).
Proof.
  intros Hb; unfold cmd_delete_birthday.
  destruct args as [|nm [|x rest]]; try exact Hb.
  destruct (find nm book) as [record|] eqn:Hf; [|exact Hb].
  cbn [fst]; apply (dict_set_book_ok nm _ book Hb).
  exact (delete_birthday_record_ok nm record (find_record_ok nm record book Hb Hf)).
Qed.

Lemma cmd_edit_birthday_book_ok (args : list str) (book : AddressBook) :
  book_ok book -> book_ok (fst (cmd_edit_birthday args book)).
Proof.
  intros Hb; unfold cmd_edit_birthday.
  destruct args as [|nm [|bd [|x rest]]]; try exact Hb.
  destruct (find nm book) as [record|] eqn:Hf; [|exact Hb].
  cbn [fst]; apply (dict_set_book_ok nm _ book Hb).
  exact (edit_birthday_record_ok nm bd record (find_record_ok nm record book Hb Hf)).
Qed.

(** X25: every command keeps the invariant [birthdays] relies on,
    whatever its arguments: in the directory it leaves, keys are unique,
    every record is stored under its own name and every birthday is a
    calendar date of the years 1900 to 2099. *)
Theorem X25_commands_keep_invariant (args : list str) (book : AddressBook) :
  book_ok book ->
  (forall book' saved, cmd_add args book = Ok (book', saved) -> book_ok book')
  /\ book_ok (fst (cmd_add_phone args book))
  /\ book_ok (fst (cmd_add_birthday args book))
  /\ book_ok (fst (cmd_delete args book))
  /\ book_ok (fst (cmd_delete_phone args book))
  /\ book_ok (fst (cmd_delete_birthday args book))
  /\ book_ok (fst (cmd_edit_birthday args book)).
Proof.
  intros Hb.
  split; [intros book' saved; exact (cmd_add_book_ok args book book' saved Hb)|].
  split; [exact (cmd_add_phone_book_ok args book Hb)|].
  split; [exact (cmd_add_birthday_book_ok args book Hb)|].
  split; [exact (cmd_delete_book_ok args book Hb)|].
  split; [exact (cmd_delete_phone_book_ok args book Hb)|].
  split; [exact (cmd_delete_birthday_book_ok args book Hb)|].
  exact (cmd_edit_birthday_book_ok args book Hb).
Qed.

Lemma X25_commands_keep_invariant_on_bob_ann :
  let args := [lit "Eve"; lit "03.01.2001"] in
  (forall book' saved, cmd_add args bob_ann = Ok (book', saved) -> book_ok book')
  /\ book_ok (fst (cmd_add_phone args bob_ann))
  /\ book_ok (fst (cmd_add_birthday args bob_ann))
  /\ book_ok (fst (cmd_delete args bob_ann))
  /\ book_ok (fst (cmd_delete_phone args bob_ann))
  /\ book_ok (fst (cmd_delete_birthday args bob_ann))
  /\ book_ok (fst (cmd_edit_birthday args bob_ann)).
Proof.
  apply (X25_commands_keep_invariant [lit "Eve"; lit "03.01.2001"] bob_ann).
  exact bob_ann_ok.
Defined.

(** *** The file can be read back *)

Lemma token_nobreak (w : str) :
  forallb (fun c => negb (is_space c)) w = true -> forallb nobreak w = true.
Proof.
  induction w as [|c w IH]; [reflexivity|]; cbn [forallb]; intros H.
  apply andb_true_iff in H as [Hc H]; rewrite (IH H), andb_true_r.
  destruct c as [[] [] [] [] [] [] [] []]; try reflexivity; discriminate.
Qed.

Lemma no_comma_forallb (w : str) :
  ~ In comma w -> forallb (fun c => negb (Ascii.eqb c comma)) w = true.
Proof.
  induction w as [|c w IH]; [reflexivity|]; cbn [forallb]; intros H.
  rewrite IH by (intros Hin; apply H; right; exact Hin).
  destruct (Ascii.eqb_spec c comma) as [->|]; [|reflexivity].
  exfalso; apply H; left; reflexivity.
Qed.

(** A word of the command line without a comma is a name the file
    keeps. *)
Lemma token_clean_name (nm : str) :
  is_token nm = true -> ~ In comma nm -> clean_name nm.
Proof.
  intros Ht Hc; pose proof (strip_token nm Ht) as Hs.
  apply is_token_spec in Ht as [Hne Ht].
  split; [exact Hne|]; split; [exact Hs|].
  exact (forallb_and nobreak _ nm (token_nobreak nm Ht) (no_comma_forallb nm Hc)).
Qed.

Lemma add_phone_stored (k p : str) (r : Record_) :
  stored k r -> is_token p = true -> stored k (snd (add_phone p r)).
Proof.
  intros (Hn & Hc & Hp & Hb) Ht; unfold add_phone, Phone.
  destruct (validate_phone p) eqn:V; cbn [snd];
    [|exact (conj Hn (conj Hc (conj Hp Hb)))].
  split; [exact Hn|]; split; [exact Hc|]; split; [|exact Hb].
  cbn [phones set_phones]; apply Forall_app; split; [exact Hp|].
  repeat constructor; rewrite <- (token_phone_ten_digits p Ht); exact V.
Qed.

Lemma delete_phone_stored (k p : str) (r : Record_) :
  stored k r -> stored k (snd (delete_phone p r)).
Proof.
  intros (Hn & Hc & Hp & Hb); split; [exact Hn|]; split; [exact Hc|].
  split; [|exact Hb]; cbn [snd delete_phone phones set_phones].
  rewrite Forall_forall in *; intros x Hx; apply filter_In in Hx as [Hx _].
  exact (Hp x Hx).
Qed.

Lemma set_birthday_stored (k : str) (r : Record_) (b : option date) :
  stored k r -> (forall d, b = Some d -> birthday_ok d = true) ->
  stored k (set_birthday r b).
Proof.
  intros (Hn & Hc & Hp & _) Hb; split; [exact Hn|]; split; [exact Hc|].
  split; [exact Hp|exact Hb].
Qed.

Lemma add_birthday_stored (k bd : str) (r r' : Record_) (z : Z) :
  stored k r -> add_birthday bd r = Ok (z, r') -> stored k r'.
Proof.
  intros Hs; pose proof Hs as (Hn & _); unfold add_birthday; rewrite Hn.
  destruct (birthday r) as [b0|] eqn:E.
  - intros H; injection H as _ <-; exact Hs.
  - destruct (Birthday bd) as [b|e] eqn:B; cbn [bind except_ValueError].
    + intros H; injection H as _ <-; apply (set_birthday_stored k r _ Hs).
      intros d Hd; injection Hd as <-; exact (proj1 (Birthday_inv bd b B)).
    + rewrite (Birthday_raises_only_ValueError bd e B).
      intros H; injection H as _ <-; exact Hs.
Qed.

Lemma edit_birthday_stored (k bd : str) (r : Record_) :
  stored k r -> stored k (snd (edit_birthday bd r)).
Proof.
  intros Hs; unfold edit_birthday.
  destruct (Birthday bd) as [b|e] eqn:B; cbn [snd]; [|exact Hs].
  apply (set_birthday_stored k r _ Hs).
  intros d Hd; injection Hd as <-; exact (proj1 (Birthday_inv bd b B)).
Qed.

Lemma find_stored (nm : str) (r : Record_) (book : AddressBook) :
  kept book -> find nm book = Some r -> stored nm r.
Proof. intros [_ H] E; exact (H nm r (dict_get_In nm r book E)). Qed.

Lemma dict_set_kept (k : str) (r : Record_) (book : AddressBook) :
  kept book -> stored k r -> kept (dict_set k r book).
Proof.
  intros [Hnd Hok] Hr; split; [apply dict_set_NoDup, Hnd|].
  intros k' r' Hin; apply dict_set_In in Hin as [[-> ->]|Hin];
    [exact Hr|exact (Hok k' r' Hin)].
Qed.

Lemma add_record_kept (k : str) (r : Record_) (book : AddressBook) :
  kept book -> stored k r -> kept (add_record r book).
Proof.
  intros Hb Hr; unfold add_record; rewrite (proj1 Hr).
  exact (dict_set_kept k r book Hb Hr).
Qed.

Lemma dict_del_kept (k : str) (book : AddressBook) :
  kept book -> kept (dict_del k book).
Proof.
  intros [Hnd Hok]; split; [apply dict_del_NoDup, Hnd|].
  intros k' r' Hin; exact (Hok k' r' (dict_del_In k k' r' book Hin)).
Qed.

Lemma kept_reload (book : AddressBook) :
  kept book -> file_read (Some (file_write book)) = Ok book.
Proof. intros [Hnd Hs]; exact (file_roundtrip_stored book Hnd Hs). Qed.

(** X26: a contact added from the command line is in the file as it is
    in the directory.  In a directory the file keeps, [add] with three
    arguments or more that are words of the command line, a name without
    a comma and not yet in the directory, stores a record under that
    name, and the file it writes is read back by [file_read] as the
    directory it left. *)
Theorem X26_added_contact_is_reloaded (nm p bd : str) (rest : list str)
  (book : AddressBook) :
  kept book ->
  Forall (fun a => is_token a = true) (nm :: p :: bd :: rest) ->
  ~ In comma nm ->
  find nm book = None ->
  exists book' r,
    cmd_add (nm :: p :: bd :: rest) book = Ok (book', Some (file_write book'))
    /\ find nm book' = Some r /\ name r = Some nm
    /\ kept book'
    /\ file_read (Some (file_write book')) = Ok book'.
Proof.
  intros Hk Ht Hc Hf; rewrite (cmd_add_new nm p bd rest book Hf); cbv zeta.
  inversion Ht as [|? ? Hnm Ht1]; subst; inversion Ht1 as [|? ? Hp _]; subst.
  pose proof (token_clean_name nm Hnm Hc) as Hclean.
  assert (Hne : nm <> []) by (exact (proj1 Hclean)).
  set (r := mkRecord _ _ _).
  assert (Hr : stored nm r).
  { split; [exact (Record_init_name nm Hne)|]; split; [exact Hclean|].
    split; cbn [phones birthday r].
    - rewrite (token_phone_ten_digits p Hp).
      destruct (ten_digits p) eqn:E; repeat constructor; exact E.
    - destruct (Birthday bd) as [b|e] eqn:B; [|discriminate].
      intros d Hd; injection Hd as <-; exact (proj1 (Birthday_inv bd b B)). }
  pose proof (add_record_kept nm r book Hk Hr) as Hk'.
  exists (add_record r book), r; split; [reflexivity|].
  split; [unfold add_record; rewrite (proj1 Hr); apply dict_get_set_same|].
  split; [exact (proj1 Hr)|]; split; [exact Hk'|exact (kept_reload _ Hk')].
Qed.

Lemma X26_dan_is_reloaded :
  exists book' r,
    cmd_add [lit "Dan"; lit "1234567890"; lit "29.02.2000"] two_contacts
    = Ok (book', Some (file_write book'))
    /\ find (lit "Dan") book' = Some r /\ name r = Some (lit "Dan")
    /\ kept book'
    /\ file_read (Some (file_write book')) = Ok book'.
Proof.
  apply (X26_added_contact_is_reloaded (lit "Dan") (lit "1234567890")
           (lit "29.02.2000") [] two_contacts).
  - split; [repeat constructor; simpl; intuition discriminate|].
    exact two_contacts_stored.
  - repeat constructor.
  - simpl; intuition discriminate.
  - reflexivity.
Defined.

(** A comma in the name is not kept: the contact added as ["a,b"] is
    read back from the file under the name ["a"], without its phone. *)
Example add_name_with_comma :
  let book' := [(lit "a,b", mkRecord (Some (lit "a,b")) [lit "1234567890"]
                              (Some (mkdate 2000 2 1)))] in
  cmd_add [lit "a,b"; lit "1234567890"; lit "01.02.2000"] []
  = Ok (book', Some (file_write book'))
  /\ file_read (Some (file_write book'))
     = Ok [(lit "a", mkRecord (Some (lit "a")) [] None)].
Proof. split; vm_compute; reflexivity. Qed.

Lemma cmd_add_phone_kept (args : list str) (book : AddressBook) :
  kept book -> Forall (fun a => is_token a = true) args ->
  kept (fst (cmd_add_phone args book)).
Proof.
  intros Hb Ht; unfold cmd_add_phone; destruct args as [|nm rest]; [exact Hb|].
  destruct (find nm book) as [record|] eqn:Hf; [|exact Hb].
  destruct (nth_error _ 1) as [phone|] eqn:N; [|exact Hb].
  destruct (is_empty phone); [exact Hb|].
  assert (Hp : is_token phone = true).
  { rewrite Forall_forall in Ht; apply Ht; exact (nth_error_In _ 1 N). }
  pose proof (add_phone_stored nm phone record (find_stored nm record book Hb Hf) Hp)
    as Hr.
  destruct (add_phone phone record) as [ok r']; cbn [snd] in Hr.
  pose proof (dict_set_kept nm r' book Hb Hr) as Hb'.
  destruct (truthy ok); cbn [fst]; [|exact Hb'].
  exact (add_record_kept nm r' _ Hb' Hr).
Qed.

Lemma cmd_add_birthday_kept (args : list str) (book : AddressBook) :
  kept book -> kept (fst (cmd_add_birthday args book)).
Proof.
  intros Hb; unfold cmd_add_birthday; destruct args as [|nm rest]; [exact Hb|].
  destruct (find nm book) as [record|] eqn:Hf; [|exact Hb].
  destruct (nth_error _ 1) as [bd|]; [|exact Hb].
  destruct (is_empty bd); [exact Hb|].
  destruct (add_birthday bd record) as [[ok r']|e] eqn:A; [|exact Hb].
  pose proof (add_birthday_stored nm bd record r' ok
                (find_stored nm record book Hb Hf) A) as Hr.
  pose proof (dict_set_kept nm r' book Hb Hr) as Hb'.
  destruct (truthy ok); cbn [fst]; [|exact Hb'].
  exact (add_record_kept nm r' _ Hb' Hr).
Qed.

Lemma cmd_delete_kept (args : list str) (book : AddressBook) :
  kept book -> kept (fst (cmd_delete args book)).
Proof.
  intros Hb; unfold cmd_delete, delete.
  destruct args as [|nm [|x rest]]; try exact Hb.
  destruct (dict_get nm book); cbn [truthy Z.eqb negb fst]; [|exact Hb].
  exact (dict_del_kept nm book Hb).
Qed.

Lemma cmd_delete_phone_kept (args : list str) (book : AddressBook) :
  kept book -> kept (fst (cmd_delete_phone args book)).
Proof.
  intros Hb; unfold cmd_delete_phone.
  destruct args as [|nm [|phone [|x rest]]]; try exact Hb.
  destruct (find nm book) as [record|] eqn:Hf; [|exact Hb].
  cbn [delete_phone truthy Z.eqb negb fst]; apply (dict_set_kept nm _ book Hb).
  exact (delete_phone_stored nm phone record (find_stored nm record book Hb Hf)).
Qed.

Lemma cmd_delete_birthday_kept (args : list str) (book : AddressBook) :
  kept book -> kept (fst (cmd_delete_birthday args book)).
Proof.
  intros Hb; unfold cmd_delete_birthday.
  destruct args as [|nm [|x rest]]; try exact Hb.
  destruct (find nm book) as [record|] eqn:Hf; [|exact Hb].
  cbn [fst]; apply (dict_set_kept nm _ book Hb).
  apply (set_birthday_stored nm record None (find_stored nm record book Hb Hf)).
  discriminate.
Qed.

Lemma cmd_edit_birthday_kept (args : list str) (book : AddressBook) :
  kept book -> kept (fst (cmd_edit_birthday args book)).
Proof.
  intros Hb; unfold cmd_edit_birthday.
  destruct args as [|nm [|bd [|x rest]]]; try exact Hb.
  destruct (find nm book) as [record|] eqn:Hf; [|exact Hb].
  cbn [fst]; apply (dict_set_kept nm _ book Hb).
  exact (edit_birthday_stored nm bd record (find_stored nm record book Hb Hf)).
Qed.

(** X27: the commands that change a contact leave a directory the file
    keeps: after [add-phone], [add-birthday], [delete], [delete-phone],
    [delete-birthday] and [edit-birthday] with words of the command line
    as arguments, on a directory the file keeps, [file_read] of the text
    [file_write] writes for the directory left returns that directory. *)
Theorem X27_changed_directory_is_reloaded (args : list str) (book : AddressBook) :
  kept book ->
  Forall (fun a => is_token a = true) args ->
  Forall (fun book' => kept book'
                       /\ file_read (Some (file_write book')) = Ok book')
    [fst (cmd_add_phone args book); fst (cmd_add_birthday args book);
     fst (cmd_delete args book); fst (cmd_delete_phone args book);
     fst (cmd_delete_birthday args book); fst (cmd_edit_birthday args book)].
Proof.
  intros Hb Ht.
  assert (H : forall book', kept book' ->
            kept book' /\ file_read (Some (file_write book')) = Ok book')
    by (intros book' Hk; split; [exact Hk|exact (kept_reload book' Hk)]).
  repeat (apply Forall_cons; [apply H|]); [| | | | | |apply Forall_nil].
  - exact (cmd_add_phone_kept args book Hb Ht).
  - exact (cmd_add_birthday_kept args book Hb).
  - exact (cmd_delete_kept args book Hb).
  - exact (cmd_delete_phone_kept args book Hb).
  - exact (cmd_delete_birthday_kept args book Hb).
  - exact (cmd_edit_birthday_kept args book Hb).
Qed.

Lemma X27_two_contacts_reloaded :
  let args := [lit "Eve"; lit "5556667777"] in
  Forall (fun book' => kept book'
                       /\ file_read (Some (file_write book')) = Ok book')
    [fst (cmd_add_phone args two_contacts);
     fst (cmd_add_birthday args two_contacts);
     fst (cmd_delete args two_contacts);
     fst (cmd_delete_phone args two_contacts);
     fst (cmd_delete_birthday args two_contacts);
     fst (cmd_edit_birthday args two_contacts)].
Proof.
  apply (X27_changed_directory_is_reloaded [lit "Eve"; lit "5556667777"]
           two_contacts).
  - split; [repeat constructor; simpl; intuition discriminate|].
    exact two_contacts_stored.
  - repeat constructor.
Defined.

(** ** The window, counted in days *)

Lemma month_cases (m : Z) :
  (1 <= m <= 12)%Z ->
  (m = 1 \/ m = 2 \/ m = 3 \/ m = 4 \/ m = 5 \/ m = 6 \/ m = 7 \/ m = 8
   \/ m = 9 \/ m = 10 \/ m = 11 \/ m = 12)%Z.
Proof. lia. Qed.

Ltac each_month H :=
  destruct (month_cases _ H) as
    [?|[?|[?|[?|[?|[?|[?|[?|[?|[?|[?|?]]]]]]]]]]]; subst.

Lemma days_before_month_next (y m : Z) :
  (1 <= m <= 11)%Z ->
  days_before_month y (m + 1) = (days_before_month y m + days_in_month y m)%Z.
Proof.
  intros H; assert (H' : (1 <= m <= 12)%Z) by lia.
  each_month H'; try lia; unfold days_before_month, days_in_month;
    cbn [Z.add Pos.add Pos.succ]; destruct (is_leap y); lia.
Qed.

Lemma year_length (y : Z) :
  days_before_year (y + 1)
  = (days_before_year y + 365 + (if is_leap y then 1 else 0))%Z.
Proof.
  unfold days_before_year, is_leap.
  replace (y + 1 - 1)%Z with y by lia.
  destruct (y mod 4 =? 0)%Z eqn:E4; destruct (y mod 100 =? 0)%Z eqn:E100;
    destruct (y mod 400 =? 0)%Z eqn:E400; cbn [andb orb negb];
    rewrite ?Z.eqb_eq, ?Z.eqb_neq in *;
    Z.div_mod_to_equations; lia.
Qed.

Lemma days_before_month_bounds (y m : Z) :
  (1 <= m <= 12)%Z ->
  (0 <= days_before_month y m
   /\ days_before_month y m + days_in_month y m
      <= 365 + (if is_leap y then 1 else 0))%Z.
Proof.
  intros H; each_month H; unfold days_before_month, days_in_month;
    destruct (is_leap y); lia.
Qed.

(** The day after has the next number. *)
Lemma tomorrow_ordinal (d c : date) :
  valid_date d = true -> tomorrow d = Ok c -> ordinal c = (ordinal d + 1)%Z.
Proof.
  intros Hv; apply valid_date_spec in Hv as (Hy & Hm & Hd).
  unfold tomorrow, ordinal.
  destruct (day d <? days_in_month (year d) (month d))%Z eqn:E1.
  { intros H; injection H as <-; cbn [year month day]; lia. }
  apply Z.ltb_ge in E1.
  destruct (month d <? 12)%Z eqn:E2.
  { apply Z.ltb_lt in E2; intros H; injection H as <-; cbn [year month day].
    rewrite (days_before_month_next (year d) (month d)) by lia; lia. }
  apply Z.ltb_ge in E2.
  destruct (year d <? 9999)%Z; [|discriminate].
  intros H; injection H as <-; cbn [year month day].
  assert (Em : month d = 12%Z) by lia.
  rewrite (year_length (year d)), Em in *.
  unfold days_before_month, days_in_month in *; destruct (is_leap (year d)); lia.
Qed.

Lemma add_days_ordinal (d c : date) (n : nat) :
  valid_date d = true -> add_days d n = Ok c ->
  valid_date c = true /\ ordinal c = (ordinal d + Z.of_nat n)%Z.
Proof.
  intros Hv; revert c; induction n as [|n IH]; intros c.
  - intros H; injection H as <-; split; [exact Hv|lia].
  - cbn [add_days]; destruct (add_days d n) as [c'|e]; cbn [bind]; [|discriminate].
    intros H; destruct (IH c' eq_refl) as [Hv' Ho].
    split; [exact (tomorrow_valid c' c Hv' H)|].
    rewrite (tomorrow_ordinal c' c Hv' H), Ho; lia.
Qed.

Lemma days_before_year_mono (y y' : Z) :
  (y <= y')%Z -> (days_before_year y <= days_before_year y')%Z.
Proof.
  intros H; unfold days_before_year; Z.div_mod_to_equations; lia.
Qed.

(** An earlier date has a smaller number. *)
Lemma ordinal_lt (a b : date) :
  valid_date a = true -> valid_date b = true -> date_ltb a b = true ->
  (ordinal a < ordinal b)%Z.
Proof.
  intros Ha Hb H; apply valid_date_spec in Ha as (Hya & Hma & Hda).
  apply valid_date_spec in Hb as (Hyb & Hmb & Hdb).
  apply date_ltb_lt in H; unfold ordinal.
  pose proof (days_before_month_bounds (year a) (month a) Hma) as [_ Ba].
  pose proof (days_before_month_bounds (year b) (month b) Hmb) as [Bb _].
  destruct H as [H|[Ey [H|[Em H]]]].
  - pose proof (days_before_year_mono (year a + 1) (year b) ltac:(lia)) as M.
    rewrite (year_length (year a)) in M; lia.
  - rewrite Ey in *; clear Ey Ba Bb.
    each_month Hma; each_month Hmb; try lia;
      match goal with
      | E : month a = _, F : month b = _ |- _ => rewrite E, F in *
      end;
      unfold days_before_month, days_in_month in *;
      destruct (is_leap (year b)); lia.
  - rewrite Ey, Em; lia.
Qed.

Lemma ordinal_inj (a b : date) :
  valid_date a = true -> valid_date b = true -> ordinal a = ordinal b -> a = b.
Proof.
  intros Ha Hb E.
  destruct (date_ltb a b) eqn:L1.
  { pose proof (ordinal_lt a b Ha Hb L1); lia. }
  destruct (date_ltb b a) eqn:L2.
  { pose proof (ordinal_lt b a Hb Ha L2); lia. }
  apply date_ltb_ge in L1, L2; destruct a as [ya ma da], b as [yb mb db].
  cbn [year month day] in *.
  f_equal; lia.
Qed.

(** The scan of the window finds a birthday exactly when one of the
    eight days, counted in days from the reference date, has its month
    and day. *)
Lemma falls_in_window_days (today b : date) :
  valid_date today = true -> window_in_range today ->
  (falls_in_window today b <-> in_window today b).
Proof.
  intros Hv [c7 H7]; split.
  - intros (delta & c & Hd & Hc & Hm & Hday).
    destruct (add_days_ordinal today c delta Hv Hc) as [Hvc Ho].
    exists (Z.of_nat delta), c; unfold search_period in Hd.
    split; [lia|]; split; [split; assumption|]; split; assumption.
  - intros (delta & c & Hd & [Hvc Ho] & Hm & Hday).
    destruct (add_days_ok_le today search_period (Z.to_nat delta) c7 H7)
      as [c' Hc']; [unfold search_period; lia|].
    destruct (add_days_ordinal today c' _ Hv Hc') as [Hvc' Ho'].
    assert (E : c' = c) by (apply ordinal_inj; [assumption..|lia]).
    subst c'; exists (Z.to_nat delta), c; unfold search_period.
    split; [lia|]; split; [exact Hc'|]; split; assumption.
Qed.

Lemma reference_date_valid (now : date) (s : str) :
  valid_date now = true -> valid_date (reference_date now s) = true.
Proof.
  intros H; unfold reference_date; destruct (strptime s) as [d|e] eqn:E;
    [exact (strptime_valid s d E)|exact H].
Qed.

(** X29: with a date given, on a directory that satisfies its invariant
    (unique keys, every record under its own name, birthdays [Birthday]
    returns) and a reference date that is not in the last week of the
    year 9999, [birthdays] returns a list in which a record with a
    birthday has its entry exactly when one of the eight days from the
    reference date on, counted in days of the calendar, has the
    birthday's month and day; the entry reports the stored birthday,
    written [DD.MM.YYYY] with its own year; no name occurs twice; and a
    record without a birthday has no entry. *)
Theorem X29_upcoming_birthdays_window (now : date) (s : str) (data : AddressBook) :
  book_ok data ->
  valid_date now = true ->
  window_in_range (reference_date now s) ->
  exists l,
    birthdays now (Some s) data = Ok l
    /\ (forall k r b, In (k, r) data -> birthday r = Some b ->
          (In (mkentry k (strftime b)) l
           <-> in_window (reference_date now s) b))
    /\ (forall e, In e l ->
          exists r b, In (entry_name e, r) data /\ birthday r = Some b
                      /\ congratulation_date e = strftime b)
    /\ NoDup (map entry_name l)
    /\ (forall k r, In (k, r) data -> birthday r = None ->
          ~ In k (map entry_name l)).
Proof.
  intros Hok Hnow Hw.
  destruct (birthdays_window now s data Hok Hw) as (l & E & Hiff & Hrest).
  exists l; split; [exact E|]; split; [|exact Hrest].
  intros k r b Hin Hb; rewrite (Hiff k r b Hin Hb).
  exact (falls_in_window_days _ b (reference_date_valid now s Hnow) Hw).
Qed.

Lemma not_in_window_check (today b : date) :
  valid_date today = true -> window_in_range today ->
  existsb (hits today b) (seq 0 (search_period + 1)) = false ->
  ~ in_window today b.
Proof.
  intros Hv Hw H Hin; apply (falls_in_window_days today b Hv Hw) in Hin.
  apply hits_falls_in_window in Hin; congruence.
Qed.

(** X29 at the inputs of the description: with the reference date
    01.01.2024 a birthday on 03.01.1990 is reported as it is stored, and
    a birthday on 10.01.1990, nine days out, is not. *)
Lemma X29_reference_01_01_2024 :
  (exists l,
     birthdays today_ (Some (lit "01.01.2024")) (book_of "Ann" (mkdate 1990 1 3))
     = Ok l
     /\ In (mkentry (lit "Ann") (lit "03.01.1990")) l
     /\ in_window (mkdate 2024 1 1) (mkdate 1990 1 3))
  /\ (exists l,
        birthdays today_ (Some (lit "01.01.2024"))
          (book_of "Ann" (mkdate 1990 1 10)) = Ok l
        /\ ~ In (mkentry (lit "Ann") (lit "10.01.1990")) l
        /\ ~ in_window (mkdate 2024 1 1) (mkdate 1990 1 10)).
Proof.
  assert (Hw : window_in_range (mkdate 2024 1 1))
    by (exists (mkdate 2024 1 8); reflexivity).
  split.
  - destruct (X29_upcoming_birthdays_window today_ (lit "01.01.2024")
                (book_of "Ann" (mkdate 1990 1 3)))
      as (l & E & Hiff & _);
      [apply book_of_ok; reflexivity|reflexivity|exact Hw|].
    assert (Hin : in_window (mkdate 2024 1 1) (mkdate 1990 1 3)).
    { exists 2%Z, (mkdate 2024 1 3); split; [lia|].
      split; [split; reflexivity|split; reflexivity]. }
    exists l; split; [exact E|]; split; [|exact Hin].
    apply (Hiff (lit "Ann") _ (mkdate 1990 1 3) (or_introl eq_refl) eq_refl).
    exact Hin.
  - destruct (X29_upcoming_birthdays_window today_ (lit "01.01.2024")
                (book_of "Ann" (mkdate 1990 1 10)))
      as (l & E & Hiff & _);
      [apply book_of_ok; reflexivity|reflexivity|exact Hw|].
    assert (Hout : ~ in_window (mkdate 2024 1 1) (mkdate 1990 1 10))
      by (apply not_in_window_check; [reflexivity|exact Hw|reflexivity]).
    exists l; split; [exact E|]; split; [|exact Hout].
    intros Hin; apply Hout.
    apply (Hiff (lit "Ann") _ (mkdate 1990 1 10) (or_introl eq_refl) eq_refl).
    exact Hin.
Defined.

(** ** Lines of the same name, in a file given by its lines *)

Lemma readlines_text_of_lines (lines : list str) :
  Forall (fun l => forallb nobreak l = true) lines ->
  readlines (text_of_lines lines) = map (fun l => l ++ [LF]) lines.
Proof.
  unfold text_of_lines; induction 1 as [|l lines Hl _ IH]; [reflexivity|].
  cbn [map concat]; rewrite <- app_assoc; cbn [app].
  rewrite (readlines_line l _ Hl), IH; reflexivity.
Qed.

Lemma line_parts_LF (l : str) : line_parts (l ++ [LF]) = line_parts l.
Proof. unfold line_parts; rewrite (strip_app_space LF l eq_refl); reflexivity. Qed.

Lemma line_name_LF (l : str) : line_name (l ++ [LF]) = line_name l.
Proof. unfold line_name; rewrite line_parts_LF; reflexivity. Qed.

Lemma line_phones_LF (l : str) : line_phones (l ++ [LF]) = line_phones l.
Proof. unfold line_phones; rewrite line_parts_LF; reflexivity. Qed.

Lemma line_birthday_LF (l : str) : line_birthday (l ++ [LF]) = line_birthday l.
Proof. unfold line_birthday; rewrite line_parts_LF; reflexivity. Qed.

Lemma filter_map_LF (n : str) (lines : list str) :
  filter (fun line => str_eqb (line_name line) n) (map (fun l => l ++ [LF]) lines)
  = map (fun l => l ++ [LF])
        (filter (fun line => str_eqb (line_name line) n) lines).
Proof.
  induction lines as [|l lines IH]; [reflexivity|].
  cbn [map filter]; rewrite line_name_LF, IH.
  destruct (str_eqb (line_name l) n); reflexivity.
Qed.

(** X30: a file given by its lines, each without a line break inside and
    ended by a line feed, in which every line has a name or no birthday
    token.  [file_read] returns a dictionary with one record for each
    name of the file; the record of a name [n] has the name [Record(n)]
    gives it, the phone tokens [Phone] accepts of all the lines of that
    name, in the order of the file, and the first birthday token among
    those lines that [Birthday] accepts, whatever the later lines
    carry. *)
Theorem X30_file_read_merges_lines (lines : list str) :
  Forall (fun l => forallb nobreak l = true) lines ->
  Forall readable lines ->
  exists contacts,
    file_read (Some (text_of_lines lines)) = Ok contacts
    /\ NoDup (map fst contacts)
    /\ (forall n, In n (map fst contacts) <-> In n (map line_name lines))
    /\ (forall n, In n (map line_name lines) ->
          let ls := filter (fun line => str_eqb (line_name line) n) lines in
          dict_get n contacts
          = Some (mkRecord (name (Record_init n))
                    (filter validate_phone (flat_map line_phones ls))
                    (first_birthday (map line_birthday ls)))).
Proof.
  intros Hb Hr.
  assert (Hnames : map line_name (map (fun l => l ++ [LF]) lines)
                   = map line_name lines)
    by (rewrite map_map; apply map_ext; exact line_name_LF).
  destruct (file_read_merged (text_of_lines lines))
    as (contacts & E & Hnd & Hk & Hget).
  { rewrite (readlines_text_of_lines lines Hb); apply Forall_forall.
    intros line Hin; apply in_map_iff in Hin as (l & <- & Hin).
    rewrite Forall_forall in Hr; specialize (Hr l Hin).
    unfold readable in *; rewrite line_name_LF, line_birthday_LF; exact Hr. }
  rewrite (readlines_text_of_lines lines Hb), Hnames in Hk, Hget.
  exists contacts; split; [exact E|]; split; [exact Hnd|]; split; [exact Hk|].
  intros n Hn ls; rewrite (Hget n Hn); cbv zeta.
  rewrite filter_map_LF; fold ls; f_equal; f_equal.
  - f_equal; rewrite flat_map_concat_map, map_map.
    rewrite (map_ext _ _ line_phones_LF), <- flat_map_concat_map; reflexivity.
  - rewrite map_map, (map_ext _ _ line_birthday_LF); reflexivity.
Qed.

(** X30 on a file with three lines for Bob: the phones of the three
    lines in order, without the token that is no phone, and the birthday
    of the third line, the one of the first line being no date. *)
Lemma X30_bob_lines_merged :
  exists contacts,
    file_read (Some bob_file) = Ok contacts
    /\ dict_get (lit "Bob") contacts
       = Some (mkRecord (Some (lit "Bob"))
                 [lit "1234567890"; lit "1112223333"; lit "5555555555"]
                 (Some (mkdate 2000 2 2)))
    /\ dict_get (lit "Ann") contacts
       = Some (mkRecord (Some (lit "Ann")) [lit "2223334444"] None).
Proof.
  destruct (X30_file_read_merges_lines
              [lit "Bob, 1234567890-abc-1112223333, 31.02.2000";
               lit "Ann, 2223334444,";
               lit "Bob, 5555555555, 02.02.2000";
               lit "Bob, , 03.03.2000"])
    as (contacts & E & _ & _ & Hget).
  - repeat constructor.
  - repeat (apply Forall_cons; [left; vm_compute; discriminate|]); constructor.
  - exists contacts; split; [exact E|]; split.
    + rewrite (Hget (lit "Bob")); [vm_compute; reflexivity|].
      left; vm_compute; reflexivity.
    + rewrite (Hget (lit "Ann")); [vm_compute; reflexivity|].
      right; left; vm_compute; reflexivity.
Defined.
